(** * Baler: the derive / compress / decompress pipeline

    A shallow embedding of [baler/modules/helper.py] and
    [baler/modules/training.py], and the properties of the pipeline
    checked against it.

    Conventions.
    - An [int] is a [Z]. A [float] is a rational [Q] or non-finite
      ([pyfloat]); the arithmetic of [helper.py] on config values is that
      of binary64, each operation rounded to the nearest double, while
      the losses and the data, whose arithmetic is that of torch and
      numpy, are exact.
    - A Python object with attributes, and a [dict] with string keys, is a
      [gmap string pyval].
    - A function that may raise returns a [result]; a function that also
      mutates an object it was handed runs in the monad [M] over the state
      it mutates.
    - Modules of the repository that the two files import but that are not
      part of them ([data_processing], [utils]) and the libraries (torch,
      numpy) are interfaces: type classes whose fields are the functions
      called. *)

From Stdlib Require Import QArith Qround Qminmax Qabs Qpower Lia Lqa.
From stdpp Require Import gmap strings list.

Open Scope Z_scope.

(** ** Python values, exceptions, results *)

Module Py.

Inductive pyval : Type :=
  | VNone
  | VBool (b : bool)
  | VInt (z : Z)
  | VFloat (q : Q)
  | VInf (negative : bool)
  | VNaN
  | VStr (s : string)
  | VStrs (l : list string)
  | VObj (repr : string).

(** The exceptions the two files can meet, and the five error classes of
    the specification's taxonomy. *)
Inductive exn : Type :=
  | NameError (name : string)
  | UnboundLocalError (name : string)
  | KeyError (key : string)
  | AttributeError (attr : string)
  | IndexError
  | TypeError
  | ValueError
  | ZeroDivisionError
  | OverflowError
  | OSError (path : string)
  | RuntimeError
  | DataError
  | ConfigMismatchError
  | ShapeError
  | ArchitectureMismatchError
  | DivergenceError.

Inductive result (A : Type) : Type :=
  | Ok (a : A)
  | Raise (e : exn).
Arguments Ok {A} a.
Arguments Raise {A} e.

Definition is_ok {A} (r : result A) : bool :=
  match r with Ok _ => true | Raise _ => false end.

(** State and exceptions: a computation runs from a state to a result and
    the state it left behind (the state at the [raise], when it raises). *)
Definition M (S A : Type) : Type := S -> result A * S.

Definition ret {S A} (a : A) : M S A := fun s => (Ok a, s).
Definition raise {S A} (e : exn) : M S A := fun s => (Raise e, s).
Definition bind {S A B} (m : M S A) (k : A -> M S B) : M S B :=
  fun s => match m s with
           | (Ok a, s') => k a s'
           | (Raise e, s') => (Raise e, s')
           end.
Definition lift {S A} (r : result A) : M S A := fun s => (r, s).
Definition get {S} : M S S := fun s => (Ok s, s).
Definition gets {S A} (f : S -> A) : M S A := fun s => (Ok (f s), s).
Definition modify {S} (f : S -> S) : M S unit := fun s => (Ok tt, f s).

Declare Scope py_scope.
Delimit Scope py_scope with py.
Notation "x <- m ;; k" := (bind m (fun x => k))
  (at level 100, m at next level, right associativity) : py_scope.
Notation "m ;;; k" := (bind m (fun _ => k))
  (at level 100, right associativity) : py_scope.

(** *** Numbers *)

(** The numeric value of a Python number ([bool] is a subclass of [int]). *)
Definition as_Q (v : pyval) : option Q :=
  match v with
  | VInt z => Some (inject_Z z)
  | VFloat q => Some q
  | VBool b => Some (if b then 1%Q else 0%Q)
  | _ => None
  end.

(** [v == True] *)
Definition eq_True (v : pyval) : bool :=
  match as_Q v with
  | Some q => Qeq_bool q 1
  | None => false
  end.

(** A [float] that may be non-finite: what [loss.item()] gives. *)
Inductive pyfloat : Type :=
  | Fin (q : Q)
  | PInf
  | NInf
  | NaN.


(** [a + b] on floats *)
Definition fadd (a b : pyfloat) : pyfloat :=
  match a, b with
  | NaN, _ | _, NaN => NaN
  | PInf, NInf | NInf, PInf => NaN
  | PInf, _ | _, PInf => PInf
  | NInf, _ | _, NInf => NInf
  | Fin x, Fin y => Fin (x + y)
  end.

(** [a / n] for a float [a] and a length [n] *)
Definition truediv (a : pyfloat) (n : nat) : result pyfloat :=
  match n with
  | O => Raise ZeroDivisionError
  | S _ => Ok (match a with
               | Fin x => Fin (x / inject_Z (Z.of_nat n))
               | other => other
               end)
  end.

(** *** binary64 *)

(** The arithmetic of Python on [float] is that of IEEE 754 binary64:
    every operation gives the double nearest to the exact result. A
    finite double is taken for the rational it denotes (a zero has no
    sign). *)

(** The exponent [e] with [2^e <= a < 2^(e+1)], for [a > 0]. *)
Definition Qlog2 (a : Q) : Z :=
  let e := Z.log2 (Qnum a) - Z.log2 (Zpos (Qden a)) in
  if Qle_bool (2 ^ e)%Q a then e else e - 1.

(** The nearest integer, the even one of two that are equally near. *)
Definition round_even (x : Q) : Z :=
  let f := Qfloor x in
  match Qcompare (x - inject_Z f)%Q (1 # 2) with
  | Lt => f
  | Gt => f + 1
  | Eq => if Z.even f then f else f + 1
  end.

(** The unit in the last place of the doubles around [a > 0]: 53 bits of
    precision, and no unit below [2^-1074]. *)
Definition ulp (a : Q) : Q := (2 ^ Z.max (Qlog2 a - 52) (-1074))%Q.

(** The double nearest to [q], the even one of two that are equally
    near; infinite from [2^1024] on. *)
Definition round64 (q : Q) : pyfloat :=
  if Qeq_bool q 0 then Fin 0
  else
    let a := Qabs q in
    let v := (inject_Z (round_even (a / ulp a)) * ulp a)%Q in
    if Qle_bool (2 ^ 1024)%Q v then (if Qle_bool 0 q then PInf else NInf)
    else Fin (Qred (if Qle_bool 0 q then v else (- v)%Q)).

(** [x < 0] and [x != 0] in C: false and true on a NaN. *)
Definition is_negative (x : pyfloat) : bool :=
  match x with
  | Fin q => negb (Qle_bool 0 q)
  | NInf => true
  | PInf | NaN => false
  end.

Definition is_nonzero (x : pyfloat) : bool :=
  match x with
  | Fin q => negb (Qeq_bool q 0)
  | _ => true
  end.

(** [int(v)] on a finite float: truncation toward zero. *)
Definition Qtrunc (q : Q) : Z := Z.quot (Qnum q) (Zpos (Qden q)).

(** [fmod(x, y)] for [y != 0]; it is exact. *)
Definition fmod (x y : pyfloat) : pyfloat :=
  match x, y with
  | NaN, _ | _, NaN => NaN
  | PInf, _ | NInf, _ => NaN
  | Fin a, Fin b => Fin (a - b * inject_Z (Qtrunc (a / b)))%Q
  | Fin a, _ => Fin a
  end.

(** [x - y], [x + y] and [x / y] (for [y != 0]) on doubles. *)
Definition sub64 (x y : pyfloat) : pyfloat :=
  match x, y with
  | NaN, _ | _, NaN => NaN
  | PInf, PInf | NInf, NInf => NaN
  | PInf, _ | _, NInf => PInf
  | NInf, _ | _, PInf => NInf
  | Fin a, Fin b => round64 (a - b)
  end.

Definition add64 (x y : pyfloat) : pyfloat :=
  match x, y with
  | NaN, _ | _, NaN => NaN
  | PInf, NInf | NInf, PInf => NaN
  | PInf, _ | _, PInf => PInf
  | NInf, _ | _, NInf => NInf
  | Fin a, Fin b => round64 (a + b)
  end.

Definition div64 (x y : pyfloat) : pyfloat :=
  match x, y with
  | NaN, _ | _, NaN => NaN
  | Fin a, Fin b => round64 (a / b)
  | Fin _, _ => Fin 0
  | _, Fin b =>
      if xorb (is_negative x) (negb (Qle_bool 0 b)) then NInf else PInf
  | _, _ => NaN
  end.

(** [floor(x)] *)
Definition floor64 (x : pyfloat) : pyfloat :=
  match x with
  | Fin a => Fin (inject_Z (Qfloor a))
  | other => other
  end.

(** [x > 0.5] *)
Definition above_half (x : pyfloat) : bool :=
  match x with
  | Fin a => negb (Qle_bool a (1 # 2))
  | PInf => true
  | NInf | NaN => false
  end.

(** [vx // wx] on doubles, for [wx != 0], as CPython computes it
    ([float_floor_div] in [Objects/floatobject.c]):
    [mod = fmod(vx, wx); div = (vx - mod) / wx];
    [if (mod && ((wx < 0) != (mod < 0))) div -= 1.0];
    [if (div) { floordiv = floor(div);
                if (div - floordiv > 0.5) floordiv += 1.0; }]
    [else floordiv = copysign(0.0, vx / wx)]. *)
Definition float_floor_div (vx wx : pyfloat) : pyfloat :=
  let mod_ := fmod vx wx in
  let div := div64 (sub64 vx mod_) wx in
  let div :=
    if is_nonzero mod_ && negb (eqb (is_negative wx) (is_negative mod_))
    then sub64 div (Fin 1) else div in
  if is_nonzero div then
    let floordiv := floor64 div in
    if above_half (sub64 div floordiv) then add64 floordiv (Fin 1) else floordiv
  else Fin 0.

(** An [int] operand ([bool] is a subclass of [int]). *)
Definition as_int (v : pyval) : option Z :=
  match v with
  | VInt z => Some z
  | VBool b => Some (if b then 1 else 0)
  | _ => None
  end.

(** The operand of a float operation as a double: a float as it is (the
    double nearest to the value written), an [int] converted, which is an
    [OverflowError] for an [int] beyond the doubles; [None] for what is no
    number. *)
Definition as_double (v : pyval) : option (result pyfloat) :=
  match v with
  | VFloat q => Some (Ok (round64 q))
  | VInf negative => Some (Ok (if negative then NInf else PInf))
  | VNaN => Some (Ok NaN)
  | _ =>
      match as_int v with
      | Some z =>
          Some (match round64 (inject_Z z) with
                | Fin q => Ok (Fin q)
                | _ => Raise OverflowError
                end)
      | None => None
      end
  end.

Definition of_double (x : pyfloat) : pyval :=
  match x with
  | Fin q => VFloat q
  | PInf => VInf false
  | NInf => VInf true
  | NaN => VNaN
  end.

(** [a // b]: the floored quotient of two [int]s, exact; as soon as one
    operand is a [float], both are converted (the left one first) and the
    quotient is that of the doubles. *)
Definition floordiv (a b : pyval) : result pyval :=
  match as_int a, as_int b with
  | Some x, Some y =>
      if y =? 0 then Raise ZeroDivisionError else Ok (VInt (x / y))
  | _, _ =>
      match as_double a, as_double b with
      | Some (Ok vx), Some (Ok wx) =>
          if is_nonzero wx then Ok (of_double (float_floor_div vx wx))
          else Raise ZeroDivisionError
      | Some (Raise e), Some _ => Raise e
      | Some (Ok _), Some (Raise e) => Raise e
      | _, _ => Raise TypeError
      end
  end.

(** [int(v)]: truncation toward zero on a finite float, [OverflowError]
    on an infinite one and [ValueError] on a NaN. *)
Definition int (v : pyval) : result Z :=
  match v with
  | VInt z => Ok z
  | VBool b => Ok (if b then 1 else 0)
  | VFloat q => Ok (Qtrunc q)
  | VInf _ => Raise OverflowError
  | VNaN => Raise ValueError
  | VStr _ => Raise ValueError
  | _ => Raise TypeError
  end.

(** The number an operand of [//] stands for: an [int] itself, a finite
    float its double. *)
Definition number_of (v : pyval) : option Q :=
  match v with
  | VFloat q => match round64 q with Fin r => Some r | _ => None end
  | _ => inject_Z <$> as_int v
  end.

(** [range(v)] *)
Definition range (v : pyval) : result (list Z) :=
  match v with
  | VInt n => Ok (Z.of_nat <$> seq 0 (Z.to_nat n))
  | VBool b => Ok (if b then [0] else [])
  | _ => Raise TypeError
  end.

(** *** Tabular data *)

(** A numeric matrix, row by row. *)
Definition matrix : Type := list (list Q).

(** What a loader hands back: a pandas [DataFrame] or a numpy array. *)
Inductive pydata : Type :=
  | DataFrame (columns : list string) (vals : matrix)
  | NDArray (vals : matrix).

(** [numpy.array(data)], [data.to_numpy()] *)
Definition to_numpy (d : pydata) : matrix :=
  match d with DataFrame _ m => m | NDArray m => m end.

(** [data.values] *)
Definition values (d : pydata) : result matrix :=
  match d with
  | DataFrame _ m => Ok m
  | NDArray _ => Raise (AttributeError "values")
  end.

(** *** Objects and dictionaries *)

(** [obj.attr] *)
Definition getattr (obj : gmap string pyval) (attr : string) : result pyval :=
  match obj !! attr with
  | Some v => Ok v
  | None => Raise (AttributeError attr)
  end.

(** [d[key]] *)
Definition getitem (d : gmap string pyval) (key : string) : result pyval :=
  match d !! key with
  | Some v => Ok v
  | None => Raise (KeyError key)
  end.

(** A free name of a function body, looked up in the module's namespace
    when the statement runs. *)
Definition load_global (g : gmap string pyval) (name : string) : result pyval :=
  match g !! name with
  | Some v => Ok v
  | None => Raise (NameError name)
  end.

(** *** Reasoning about computations *)

(** [m], run from [s], ends with a result and in a state that satisfy [Q]. *)
Definition wp {S A} (m : M S A) (Q : result A -> S -> Prop) (s : S) : Prop :=
  Q (m s).1 (m s).2.

(** Every run of [m] leaves the state related to the one it started from. *)
Definition keeps {S A} (R : S -> S -> Prop) (m : M S A) : Prop :=
  forall s, R s (m s).2.

(** No run of [m] ends with the exception [e]. *)
Definition never {S A} (e : exn) (m : M S A) : Prop :=
  forall s, (m s).1 <> Raise e.

(** No run of [m] returns. *)
Definition fails {S A} (m : M S A) : Prop :=
  forall s, is_ok (m s).1 = false.

End Py.
Import Py.
Open Scope py_scope.

(** ** training.py *)

Module Training.

(** The torch side of the training loop: tensors, the model's parameters
    and its capabilities, the optimizer, the data loaders. *)
Class Torch : Type := {
  Tensor : Type;
  Params : Type;
  Grad : Type;
  Optim : Type;
  Loader : Type;
  RNG : Type;
  (** [torch.tensor(m, dtype=torch.float64)] *)
  tensor : matrix -> Tensor;
  (** [model(inputs)], in training or in evaluation mode *)
  forward : bool -> Params -> Tensor -> result Tensor;
  (** [model.loss(model_children=, true_data=, reconstructed_data=,
      reg_param=).item()] *)
  model_loss : Params -> Tensor -> Tensor -> pyval -> result pyfloat;
  (** [loss.backward()] *)
  backward : Params -> Tensor -> Tensor -> pyval -> Grad;
  (** [torch.optim.Adam(model.parameters(), lr=)] *)
  Adam : Params -> pyval -> result Optim;
  (** [optimizer.step()] *)
  step : Optim -> Params -> Grad -> Optim * Params;
  (** [DataLoader(ds, batch_size=, shuffle=)] *)
  DataLoader : Tensor -> pyval -> bool -> result Loader;
  (** one pass over a loader: its batches, in the order drawn *)
  iterate : Loader -> RNG -> list Tensor * RNG;
  (** [len(dl)] *)
  loader_len : Loader -> nat;
}.

(** [modules/utils.py]: the two policies the loop consults. *)
Class Utils `{Torch} : Type := {
  EarlyStopping : Type;
  (** [utils.EarlyStopping(patience=, min_delta=)] *)
  new_EarlyStopping : pyval -> pyval -> EarlyStopping;
  (** [early_stopping(val_loss)] *)
  call_EarlyStopping : EarlyStopping -> pyfloat -> EarlyStopping;
  (** [early_stopping.early_stop] *)
  early_stop : EarlyStopping -> bool;
  LRScheduler : Type;
  (** [utils.LRScheduler(optimizer=, patience=)] *)
  new_LRScheduler : Optim -> pyval -> LRScheduler;
  (** [lr_scheduler(val_loss)]: may change the optimizer it holds *)
  call_LRScheduler : LRScheduler -> Optim -> pyfloat -> LRScheduler * Optim;
}.

(** What the functions print. *)
Inductive line : Type :=
  | EpochOf (k : Z) (epochs : pyval)
  | BeginningTraining
  | FinishedTraining (loss : pyfloat)
  | BeginningValidating
  | FinishedValidating (loss : pyfloat)
  | Minutes.

(** A row of [loss_data.csv]. *)
Record csv_row : Type := {
  row_train_loss : pyfloat;
  row_val_loss : pyfloat;
  row_mse_loss_fit : pyval;
  row_l1_loss_fit : pyval;
}.

Section Loop.
Context `{U : Utils}.

(** The objects [train] works on and the outside world it writes to. *)
Record tstate : Type := {
  config : gmap string pyval;
  params : Params;
  training : bool;
  rng : RNG;
  stdout : list line;
  written : list (string * list csv_row);
}.

Definition print (l : line) : M tstate unit :=
  modify (fun s => {| config := config s; params := params s;
                      training := training s; rng := rng s;
                      stdout := stdout s ++ [l]; written := written s |}).

(** [model.train()] and [model.eval()] *)
Definition set_mode (b : bool) : M tstate unit :=
  modify (fun s => {| config := config s; params := params s;
                      training := b; rng := rng s;
                      stdout := stdout s; written := written s |}).

Definition set_params (p : Params) : M tstate unit :=
  modify (fun s => {| config := config s; params := p;
                      training := training s; rng := rng s;
                      stdout := stdout s; written := written s |}).

Definition to_csv (path : string) (rows : list csv_row) : M tstate unit :=
  modify (fun s => {| config := config s; params := params s;
                      training := training s; rng := rng s;
                      stdout := stdout s;
                      written := written s ++ [(path, rows)] |}).

(** [for inputs, labels in dl] *)
Definition batches_of (dl : Loader) : M tstate (list Tensor) :=
  fun s => let (bs, r) := iterate dl (rng s) in
           (Ok bs, {| config := config s; params := params s;
                      training := training s; rng := r;
                      stdout := stdout s; written := written s |}).

(** [model(inputs)] *)
Definition call_model (inputs : Tensor) : M tstate Tensor :=
  s <- get ;; lift (forward (training s) (params s) inputs).

(** [model.loss(...)] on the model as it stands *)
Definition loss_of (inputs reconstructions : Tensor) (reg_param : pyval)
  : M tstate pyfloat :=
  s <- get ;; lift (model_loss (params s) inputs reconstructions reg_param).

(** [config[key]] *)
Definition cfg (key : string) : M tstate pyval :=
  s <- get ;; lift (getitem (config s) key).

(** The name [loss] after the loop over the batches. *)
Definition bound (name : string) (v : option pyfloat) : M tstate pyfloat :=
  match v with
  | Some x => ret x
  | None => raise (UnboundLocalError name)
  end.

(** *** fit *)

(** The body of the loop of [fit], over the batches still to come;
    [running_loss] and [loss] are the locals of that name. *)
Fixpoint fit_batches (bs : list Tensor) (regular_param : pyval)
    (optimizer : Optim) (running_loss : pyfloat) (loss : option pyfloat)
  : M tstate (Optim * pyfloat * option pyfloat) :=
  match bs with
  | [] => ret (optimizer, running_loss, loss)
  | inputs :: rest =>
      reconstructions <- call_model inputs ;;
      l <- loss_of inputs reconstructions regular_param ;;
      s <- get ;;
      let gr := backward (params s) inputs reconstructions regular_param in
      let '(optimizer', p') := step optimizer (params s) gr in
      set_params p' ;;;
      fit_batches rest regular_param optimizer' (fadd running_loss l) (Some l)
  end.

(** [fit(model, train_dl, train_ds, model_children, regular_param,
    optimizer, RHO, l1)]. The model and its children live in the state;
    [train_ds] only sizes the progress bar. *)
Definition fit (train_dl : Loader) (regular_param : pyval)
    (optimizer : Optim) (RHO l1 : pyval) : M tstate (pyfloat * Optim) :=
  print BeginningTraining ;;;
  set_mode true ;;;
  bs <- batches_of train_dl ;;
  r <- fit_batches bs regular_param optimizer (Fin 0) None ;;
  let '(optimizer', running_loss, loss) := r in
  epoch_loss <- lift (truediv running_loss (loader_len train_dl)) ;;
  l <- bound "loss" loss ;;
  print (FinishedTraining l) ;;;
  ret (epoch_loss, optimizer').

(** *** validate *)

Fixpoint validate_batches (bs : list Tensor) (reg_param : pyval)
    (running_loss : pyfloat) (loss : option pyfloat)
  : M tstate (pyfloat * option pyfloat) :=
  match bs with
  | [] => ret (running_loss, loss)
  | inputs :: rest =>
      reconstructions <- call_model inputs ;;
      l <- loss_of inputs reconstructions reg_param ;;
      validate_batches rest reg_param (fadd running_loss l) (Some l)
  end.

(** [validate(model, test_dl, test_ds, model_children, reg_param)] *)
Definition validate (test_dl : Loader) (reg_param : pyval) : M tstate pyfloat :=
  print BeginningValidating ;;;
  set_mode false ;;;
  bs <- batches_of test_dl ;;
  r <- validate_batches bs reg_param (Fin 0) None ;;
  let '(running_loss, loss) := r in
  epoch_loss <- lift (truediv running_loss (loader_len test_dl)) ;;
  l <- bound "loss" loss ;;
  print (FinishedValidating l) ;;;
  ret epoch_loss.

(** *** train *)

(** The locals of [train] that the epoch loop reads and rebinds. *)
Record locals : Type := {
  optimizer : Optim;
  early_stopping : option EarlyStopping;
  lr_scheduler : option LRScheduler;
  train_loss : list pyfloat;
  val_loss : list pyfloat;
  mse_loss_fit : list pyval;
  regularizer_loss_fit : list pyval;
}.

Definition with_optimizer (o : Optim) (l : locals) : locals :=
  {| optimizer := o; early_stopping := early_stopping l;
     lr_scheduler := lr_scheduler l; train_loss := train_loss l;
     val_loss := val_loss l; mse_loss_fit := mse_loss_fit l;
     regularizer_loss_fit := regularizer_loss_fit l |}.

Definition with_early_stopping (e : EarlyStopping) (l : locals) : locals :=
  {| optimizer := optimizer l; early_stopping := Some e;
     lr_scheduler := lr_scheduler l; train_loss := train_loss l;
     val_loss := val_loss l; mse_loss_fit := mse_loss_fit l;
     regularizer_loss_fit := regularizer_loss_fit l |}.

Definition with_lr_scheduler (sc : LRScheduler) (l : locals) : locals :=
  {| optimizer := optimizer l; early_stopping := early_stopping l;
     lr_scheduler := Some sc; train_loss := train_loss l;
     val_loss := val_loss l; mse_loss_fit := mse_loss_fit l;
     regularizer_loss_fit := regularizer_loss_fit l |}.

(** [train_loss.append(x)] and its three siblings *)
Definition append_train_loss (x : pyfloat) (l : locals) : locals :=
  {| optimizer := optimizer l; early_stopping := early_stopping l;
     lr_scheduler := lr_scheduler l; train_loss := train_loss l ++ [x];
     val_loss := val_loss l; mse_loss_fit := mse_loss_fit l;
     regularizer_loss_fit := regularizer_loss_fit l |}.

Definition append_val_loss (x : pyfloat) (l : locals) : locals :=
  {| optimizer := optimizer l; early_stopping := early_stopping l;
     lr_scheduler := lr_scheduler l; train_loss := train_loss l;
     val_loss := val_loss l ++ [x]; mse_loss_fit := mse_loss_fit l;
     regularizer_loss_fit := regularizer_loss_fit l |}.

Definition append_mse_loss_fit (x : pyval) (l : locals) : locals :=
  {| optimizer := optimizer l; early_stopping := early_stopping l;
     lr_scheduler := lr_scheduler l; train_loss := train_loss l;
     val_loss := val_loss l; mse_loss_fit := mse_loss_fit l ++ [x];
     regularizer_loss_fit := regularizer_loss_fit l |}.

Definition append_regularizer_loss_fit (x : pyval) (l : locals) : locals :=
  {| optimizer := optimizer l; early_stopping := early_stopping l;
     lr_scheduler := lr_scheduler l; train_loss := train_loss l;
     val_loss := val_loss l; mse_loss_fit := mse_loss_fit l;
     regularizer_loss_fit := regularizer_loss_fit l ++ [x] |}.

(** How an iteration of the epoch loop ends. *)
Inductive ctl : Type := Next | Break.

(** The body of [for epoch in range(epochs)]. [g] is the namespace of the
    module, where the free names of the body are looked up. *)
Definition epoch_body (g : gmap string pyval) (train_dl valid_dl : Loader)
    (reg_param RHO l1 epochs : pyval) (epoch : Z) (l : locals)
  : M tstate (ctl * locals) :=
  print (EpochOf (epoch + 1) epochs) ;;;
  r <- fit train_dl reg_param (optimizer l) RHO l1 ;;
  let '(train_epoch_loss, o) := r in
  let l := with_optimizer o l in
  let l := append_train_loss train_epoch_loss l in
  val_epoch_loss <- validate valid_dl reg_param ;;
  let l := append_val_loss val_epoch_loss l in
  mse_loss_fit1 <- lift (load_global g "mse_loss_fit1") ;;
  let l := append_mse_loss_fit mse_loss_fit1 l in
  regularizer_loss_fit1 <- lift (load_global g "regularizer_loss_fit1") ;;
  let l := append_regularizer_loss_fit regularizer_loss_fit1 l in
  sched <- cfg "lr_scheduler" ;;
  l <- (if eq_True sched then
          match lr_scheduler l with
          | Some sc =>
              let '(sc', o') := call_LRScheduler sc (optimizer l) val_epoch_loss in
              ret (with_lr_scheduler sc' (with_optimizer o' l))
          | None => raise (UnboundLocalError "lr_scheduler")
          end
        else ret l) ;;
  early <- cfg "early_stopping" ;;
  if eq_True early then
    match early_stopping l with
    | Some es =>
        let es' := call_EarlyStopping es val_epoch_loss in
        let l := with_early_stopping es' l in
        if early_stop es' then ret (Break, l) else ret (Next, l)
    | None => raise (UnboundLocalError "early_stopping")
    end
  else ret (Next, l).

(** [for epoch in range(epochs): ...], over the epochs still to come. *)
Fixpoint for_epochs (body : Z -> locals -> M tstate (ctl * locals))
    (todo : list Z) (l : locals) : M tstate locals :=
  match todo with
  | [] => ret l
  | epoch :: rest =>
      r <- body epoch l ;;
      match r with
      | (Break, l') => ret l'
      | (Next, l') => for_epochs body rest l'
      end
  end.

(** The rows of the frame written to [loss_data.csv]; pandas refuses
    columns of different lengths. *)
Fixpoint loss_frame (tl vl : list pyfloat) (ml rl : list pyval)
  : result (list csv_row) :=
  match tl, vl, ml, rl with
  | [], [], [], [] => Ok []
  | t :: tl', v :: vl', m :: ml', r :: rl' =>
      match loss_frame tl' vl' ml' rl' with
      | Ok rows => Ok ({| row_train_loss := t; row_val_loss := v;
                          row_mse_loss_fit := m; row_l1_loss_fit := r |} :: rows)
      | Raise e => Raise e
      end
  | _, _, _, _ => Raise ValueError
  end.

(** [train(model, variables, train_data, test_data, parent_path, config)];
    the model and the config are in the state. *)
Definition train (g : gmap string pyval) (variables : Z)
    (train_data test_data : pydata) (parent_path : string)
  : M tstate (Tensor * Tensor * pyval) :=
  learning_rate <- cfg "lr" ;;
  bs <- cfg "batch_size" ;;
  reg_param <- cfg "reg_param" ;;
  RHO <- cfg "RHO" ;;
  l1 <- cfg "l1" ;;
  epochs <- cfg "epochs" ;;
  latent_space_size <- cfg "latent_space_size" ;;
  train_values <- lift (values train_data) ;;
  let train_ds := tensor train_values in
  test_values <- lift (values test_data) ;;
  let valid_ds := tensor test_values in
  train_dl <- lift (DataLoader train_ds bs true) ;;
  valid_dl <- lift (DataLoader valid_ds bs false) ;;
  s <- get ;;
  opt <- lift (Adam (params s) learning_rate) ;;
  early <- cfg "early_stopping" ;;
  es <- (if eq_True early then
           patience <- cfg "patience" ;;
           min_delta <- cfg "min_delta" ;;
           ret (Some (new_EarlyStopping patience min_delta))
         else ret None) ;;
  sched <- cfg "lr_scheduler" ;;
  sc <- (if eq_True sched then
           patience <- cfg "patience" ;;
           ret (Some (new_LRScheduler opt patience))
         else ret None) ;;
  let l := {| optimizer := opt; early_stopping := es; lr_scheduler := sc;
              train_loss := []; val_loss := []; mse_loss_fit := [];
              regularizer_loss_fit := [] |} in
  todo <- lift (range epochs) ;;
  l <- for_epochs (epoch_body g train_dl valid_dl reg_param RHO l1 epochs)
         todo l ;;
  print Minutes ;;;
  rows <- lift (loss_frame (train_loss l) (val_loss l) (mse_loss_fit l)
                  (regularizer_loss_fit l)) ;;
  to_csv (parent_path +:+ "loss_data.csv") rows ;;;
  test_values <- lift (values test_data) ;;
  let data_as_tensor := tensor test_values in
  pred_as_tensor <- call_model data_as_tensor ;;
  model_from_fit <- lift (load_global g "model_from_fit") ;;
  ret (data_as_tensor, pred_as_tensor, model_from_fit).

End Loop.

(** The names bound at the top level of [training.py]: its imports and
    its three functions. *)
Definition module_globals : gmap string pyval :=
  list_to_map
    [("DataLoader", VObj "class DataLoader");
     ("TensorDataset", VObj "class TensorDataset");
     ("utils", VObj "module modules.utils");
     ("tqdm", VObj "class tqdm");
     ("pd", VObj "module pandas");
     ("sys", VObj "module sys");
     ("time", VObj "module time");
     ("torch", VObj "module torch");
     ("fit", VObj "function fit");
     ("validate", VObj "function validate");
     ("train", VObj "function train")].

End Training.

(** ** helper.py *)

Module Helper.

(** The attributes of a [Configuration()] of the [configClass.py] that
    [create_default_config] writes into a new project. *)
Definition default_config : gmap string pyval :=
  list_to_map
    [("input_path", VStr "data/first/george.pickle");
     ("compression_ratio", VFloat 2);
     ("epochs", VInt 2);
     ("early_stopping", VBool true);
     ("lr_scheduler", VBool false);
     ("patience", VInt 100);
     ("min_delta", VInt 0);
     ("model_name", VStr "george_SAE");
     ("custom_norm", VBool false);
     ("l1", VBool true);
     ("reg_param", VFloat (1 # 1000));
     ("RHO", VFloat (5 # 100));
     ("lr", VFloat (1 # 1000));
     ("batch_size", VInt 512);
     ("save_as_root", VBool true);
     ("test_size", VFloat (15 # 100))].

(** *** numpy *)


Definition ncols (m : matrix) : nat :=
  match m with
  | [] => O
  | r :: _ => length r
  end.

Definition column (m : matrix) (j : nat) : list Q :=
  (fun r => nth j r 0%Q) <$> m.

Definition columns_of (m : matrix) : list (list Q) :=
  column m <$> seq 0 (ncols m).

(** The array whose columns are [cs]. *)
Definition of_columns (cs : list (list Q)) : matrix :=
  (fun i => (fun c => nth i c 0%Q) <$> cs) <$> seq 0 (ncols cs).

Fixpoint map_result {A B} (f : A -> result B) (l : list A) : result (list B) :=
  match l with
  | [] => Ok []
  | x :: l' =>
      match f x with
      | Ok y => match map_result f l' with
                | Ok ys => Ok (y :: ys)
                | Raise e => Raise e
                end
      | Raise e => Raise e
      end
  end.

(** [numpy.apply_along_axis(f, axis=0, arr=arr)]: [f] on every column;
    numpy refuses an array without columns. *)
Definition apply_along_axis0 (f : list Q -> result (list Q)) (arr : matrix)
  : result matrix :=
  match ncols arr with
  | O => Raise ValueError
  | S _ => match map_result f (columns_of arr) with
           | Ok cs => Ok (of_columns cs)
           | Raise e => Raise e
           end
  end.

(** [data[0]]: the first row of an array; on a frame, the column
    labelled [0], which a frame with named columns does not have. *)
Definition first_row (data : pydata) : result (list Q) :=
  match data with
  | NDArray (r :: _) => Ok r
  | NDArray [] => Raise IndexError
  | DataFrame _ _ => Raise (KeyError "0")
  end.

(** *** torch: a saved model *)

(** A stored weight tensor. *)
Record weight : Type := { shape : list nat; flat : list Q }.

(** [len(t)] *)
Definition len_weight (t : weight) : result Z :=
  match shape t with
  | [] => Raise TypeError
  | n :: _ => Ok (Z.of_nat n)
  end.

(** What [torch.load] gives for a saved model: an ordered dictionary from
    the names of the layers' tensors to the tensors. *)
Definition state_dict : Type := list (string * weight).

(** [list(d.keys())[-1]] *)
Definition last_key (d : state_dict) : result string :=
  match last d.*1 with
  | Some k => Ok k
  | None => Raise IndexError
  end.

(** [d[k]] *)
Fixpoint od_getitem (d : state_dict) (k : string) : result weight :=
  match d with
  | [] => Raise (KeyError k)
  | (k', t) :: d' => if String.eqb k' k then Ok t else od_getitem d' k
  end.

(** The model side of compression: what [initialise_model] and
    [load_model] hand back, and [torch.load]. *)
Class Codec : Type := {
  ModelClass : Type;
  Model : Type;
  (** [model.encode(t)], [model.decode(t)] *)
  encode : Model -> matrix -> result matrix;
  decode : Model -> matrix -> result matrix;
  (** [torch.load(str(model_path))] *)
  torch_load : string -> result state_dict;
}.

(** [modules/data_processing.py], as [helper.py] calls it. The functions
    read the config they are handed. *)
Class DataProcessing `{Codec} : Type := {
  NormFeatures : Type;
  load_data : string -> gmap string pyval -> result pydata;
  get_columns : pydata -> result (list string);
  find_minmax : pydata -> result NormFeatures;
  (** [data_processing.normalize(column, config=config)] *)
  dp_normalize : list Q -> gmap string pyval -> result (list Q);
  numpy_to_df : matrix -> gmap string pyval -> result pydata;
  split : pydata -> pyval -> Z -> result (pydata * pydata);
  renormalize_func : pydata -> list Q -> list Q -> result pydata;
  initialise_model : gmap string pyval -> result ModelClass;
  load_model : ModelClass -> string -> Z -> Z -> result Model;
}.

(** The calls that leave [helper.py] for the model. *)
Inductive call : Type :=
  | Call_load_model (model_path : string) (n_features z_dim : Z)
  | Call_encode (data_tensor : matrix)
  | Call_decode (data_tensor : matrix).

Section Pipeline.
Context `{DP : DataProcessing}.

(** The caller's config object, and the calls made so far. *)
Record hstate : Type := {
  config : gmap string pyval;
  calls : list call;
}.

(** [config.attr] *)
Definition attr (name : string) : M hstate pyval :=
  s <- get ;; lift (getattr (config s) name).

(** [config.attr = v] *)
Definition setattr (name : string) (v : pyval) : M hstate unit :=
  modify (fun s => {| config := <[name := v]> (config s); calls := calls s |}).

Definition log (c : call) : M hstate unit :=
  modify (fun s => {| config := config s; calls := calls s ++ [c] |}).

(** [data_loader(data_path, config)] *)
Definition data_loader (data_path : string) : M hstate pydata :=
  s <- get ;; lift (load_data data_path (config s)).

(** [numpy_to_tensor(data)] *)
Definition numpy_to_tensor (data : pydata) : matrix := to_numpy data.

(** [normalize(data, config)] *)
Definition normalize (data : pydata) : M hstate pydata :=
  s <- get ;;
  data <- lift (apply_along_axis0 (fun c => dp_normalize c (config s))
                  (to_numpy data)) ;;
  lift (numpy_to_df data (config s)).

(** [process(data_path, config)] *)
Definition process (data_path : string)
  : M hstate (pydata * pydata * Z * NormFeatures) :=
  s <- get ;;
  df <- lift (load_data data_path (config s)) ;;
  cols <- lift (get_columns df) ;;
  setattr "cleared_col_names" (VStrs cols) ;;;
  normalization_features <- lift (find_minmax df) ;;
  cols <- lift (get_columns df) ;;
  setattr "cleared_col_names" (VStrs cols) ;;;
  cols <- lift (get_columns df) ;;
  let number_of_columns := Z.of_nat (length cols) in
  df <- normalize df ;;
  test_size <- attr "test_size" ;;
  sets <- lift (split df test_size 1) ;;
  let '(train_set, test_set) := sets in
  ret (train_set, test_set, number_of_columns, normalization_features).


(** [int(number_of_columns // compression_ratio)] *)
Definition latent_space_size (number_of_columns : Z) (compression_ratio : pyval)
  : result Z :=
  match floordiv (VInt number_of_columns) compression_ratio with
  | Ok q => int q
  | Raise e => Raise e
  end.

(** [compress(model_path, input_path, config)] *)
Definition compress (model_path input_path : string)
  : M hstate (matrix * matrix) :=
  data <- data_loader input_path ;;
  cols <- lift (get_columns data) ;;
  setattr "cleared_col_names" (VStrs cols) ;;;
  cols <- lift (get_columns data) ;;
  let number_of_columns := Z.of_nat (length cols) in
  ratio <- attr "compression_ratio" ;;
  z <- lift (latent_space_size number_of_columns ratio) ;;
  let data_before := to_numpy data in
  data <- normalize data ;;
  s <- get ;;
  ModelObject <- lift (initialise_model (config s)) ;;
  log (Call_load_model model_path number_of_columns z) ;;;
  model <- lift (load_model ModelObject model_path number_of_columns z) ;;
  let data_tensor := numpy_to_tensor data in
  log (Call_encode data_tensor) ;;;
  compressed <- lift (encode model data_tensor) ;;
  ret (compressed, data_before).

(** [decompress(model_path, input_path, config)] *)
Definition decompress (model_path input_path : string) : M hstate matrix :=
  data <- data_loader input_path ;;
  row <- lift (first_row data) ;;
  let z := Z.of_nat (length row) in
  modelDict <- lift (torch_load model_path) ;;
  k <- lift (last_key modelDict) ;;
  t <- lift (od_getitem modelDict k) ;;
  number_of_columns <- lift (len_weight t) ;;
  s <- get ;;
  ModelObject <- lift (initialise_model (config s)) ;;
  log (Call_load_model model_path number_of_columns z) ;;;
  model <- lift (load_model ModelObject model_path number_of_columns z) ;;
  let data_tensor := numpy_to_tensor data in
  log (Call_decode data_tensor) ;;;
  decompressed <- lift (decode model data_tensor) ;;
  ret decompressed.

End Pipeline.
End Helper.

(** ** helper.py: the command line and the ROOT export *)

Module Frontend.
Import Helper.

(** *** get_arguments *)

(** What [parser.parse_args()] gives: the two options, each a string or
    [None]. *)
Record namespace : Type := {
  mode : option string;
  project : option string;
}.

(** [not v] *)
Definition is_falsy (v : option string) : bool :=
  match v with
  | None => true
  | Some s => bool_decide (s = EmptyString)
  end.

(** [f"{v}"] *)
Definition format (v : option string) : string :=
  match v with
  | None => "None"
  | Some s => s
  end.

(** The interpreter, as far as [get_arguments] touches it: [sys.path],
    the entry of [sys.modules] for [configClass] (a module is taken for
    what its [Configuration()] gives) and the usage messages printed. *)
Record interpreter : Type := {
  sys_path : list string;
  configClass : option (gmap string pyval);
  usage_printed : nat;
}.

(** How a call of [get_arguments] ends. *)
Inductive ending (A : Type) : Type :=
  | Returned (a : A)
  | SystemExit (code : Z)
  | ModuleNotFoundError (name : string).
Arguments Returned {A} a.
Arguments SystemExit {A} code.
Arguments ModuleNotFoundError {A} name.

(** The first directory of the path that holds a [configClass.py];
    [disk] gives the module found in a directory. *)
Fixpoint find_module (disk : string -> option (gmap string pyval))
    (path : list string) : option (gmap string pyval) :=
  match path with
  | [] => None
  | d :: rest =>
      match disk d with
      | Some m => Some m
      | None => find_module disk rest
      end
  end.

(** [import configClass]: the module already imported, or else the
    first one found on [sys.path], which is then kept. *)
Definition import_configClass (disk : string -> option (gmap string pyval))
    (i : interpreter) : ending (gmap string pyval) * interpreter :=
  match configClass i with
  | Some m => (Returned m, i)
  | None =>
      match find_module disk (sys_path i) with
      | Some m => (Returned m, {| sys_path := sys_path i; configClass := Some m;
                                  usage_printed := usage_printed i |})
      | None => (ModuleNotFoundError "configClass", i)
      end
  end.

(** How [parser.parse_args()] ends: with the namespace, or with the exit
    of argparse itself. *)
Inductive parsed : Type :=
  | Parsed (args : namespace)
  | Exits (code : Z).

(** [argparse], as [get_arguments] uses it: [parse_args] of the parser
    built in lines 14 to 31 (the options [--mode] and [--project], and the
    [--help] every parser has), on the command line [sys.argv[1:]].
    argparse exits on its own, before line 34 is reached: with status [0]
    after the help it was asked for, with status [2] on a command line it
    refuses. What it writes then is its own and is not followed. *)
Class ArgumentParser : Type := {
  parse_args : list string -> parsed;
  parse_args_exits argv code :
    parse_args argv = Exits code -> code = 0 \/ code = 2;
}.

(** [get_arguments()]; [argv] is [sys.argv[1:]], and [usage_printed]
    counts the calls of [parser.print_usage()], line 35. *)
Definition get_arguments `{ArgumentParser}
    (disk : string -> option (gmap string pyval))
    (argv : list string) (i : interpreter)
  : ending (option (gmap string pyval) * option string * option string)
    * interpreter :=
  match parse_args argv with
  | Exits code => (SystemExit code, i)
  | Parsed args =>
      if is_falsy (mode args)
         || (negb (bool_decide (mode args = Some "newProject"))
             && is_falsy (project args))
      then
        (SystemExit 1, {| sys_path := sys_path i; configClass := configClass i;
                          usage_printed := S (usage_printed i) |})
      else if bool_decide (mode args = Some "newProject") then
        (Returned (None, mode args, project args), i)
      else
        let project_path := "projects/" +:+ format (project args) +:+ "/" in
        let i := {| sys_path := sys_path i ++ [project_path];
                    configClass := configClass i;
                    usage_printed := usage_printed i |} in
        match import_configClass disk i with
        | (Returned m, i') => (Returned (Some m, mode args, project args), i')
        | (SystemExit code, i') => (SystemExit code, i')
        | (ModuleNotFoundError name, i') => (ModuleNotFoundError name, i')
        end
  end.

(** *** to_root *)

(** What [to_root] may be handed as [data_path]: an object of one of the
    three classes it tests for, or anything else. *)
Inductive root_source : Type :=
  | Pickler (handle : string)
  | Data (d : pydata)
  | Other (v : pyval).

(** [data_processing.pickle_to_df] and [data_processing.df_to_root]. *)
Class RootWriter `{DataProcessing} : Type := {
  pickle_to_df : string -> gmap string pyval -> result (pydata * list string);
  df_to_root : pydata -> list string -> string -> result pyval;
}.

(** A call of [df_to_root]. *)
Record root_call : Type := {
  root_df : pydata;
  root_col_names : list string;
  root_save_path : string;
}.

Section ToRoot.
Context `{RW : RootWriter}.

(** [df.columns] *)
Definition columns_attr (d : pydata) : result (list string) :=
  match d with
  | DataFrame cols _ => Ok cols
  | NDArray _ => Raise (AttributeError "columns")
  end.

(** [df.columns()]: the attribute is an [Index], and an [Index] is not
    callable. *)
Definition call_columns (d : pydata) : result (list string) :=
  match columns_attr d with
  | Ok _ => Raise TypeError
  | Raise e => Raise e
  end.

Definition call_df_to_root (df : pydata) (col_names : list string)
    (save_path : string) : M (list root_call) pyval :=
  modify (fun cs => cs ++ [{| root_df := df; root_col_names := col_names;
                              root_save_path := save_path |}]) ;;;
  lift (df_to_root df col_names save_path).

(** [to_root(data_path, config, save_path)]; the state is the calls of
    [df_to_root] made so far. *)
Definition to_root (data_path : root_source) (config : gmap string pyval)
    (save_path : string) : M (list root_call) pyval :=
  match data_path with
  | Pickler handle =>
      r <- lift (pickle_to_df handle config) ;;
      let '(df, Names) := r in
      call_df_to_root df Names save_path
  | Data (DataFrame cols vals) =>
      col_names <- lift (call_columns (DataFrame cols vals)) ;;
      call_df_to_root (DataFrame cols vals) col_names save_path
  | Data (NDArray arr) =>
      df <- lift (numpy_to_df arr config) ;;
      df_names <- lift (columns_attr df) ;;
      call_df_to_root df df_names save_path
  | Other _ => ret VNone
  end.

End ToRoot.

End Frontend.

(** ** The collaborators, as the specification describes them *)

Module Spec.
Import Helper.

(** *** Normalizer *)

(** Modelled from the spec: [data_processing.find_minmax],
    [data_processing.normalize] and [data_processing.renormalize_func] are
    not part of the two files. The Normalizer of the specification:
    [fit] takes the minimum and the maximum of a column and fails with
    [DataError] on an empty one, the parameters of a column are
    [(true_min, range)] with [range = max - min]; [apply] maps a value to
    [(value - true_min) / range] when [range > 0] and to [0] otherwise;
    [invert] maps a value to [value * range + true_min]. *)
Definition fit_column (c : list Q) : result (Q * Q) :=
  match c with
  | [] => Raise DataError
  | x :: c' =>
      let lo := fold_left Qmin c' x in
      let hi := fold_left Qmax c' x in
      Ok (lo, hi - lo)%Q
  end.

(** [a / b] on numbers *)
Definition div (a b : Q) : result Q :=
  if Qeq_bool b 0 then Raise ZeroDivisionError else Ok (a / b)%Q.

Definition apply_value (p : Q * Q) (v : Q) : result Q :=
  if Qlt_le_dec 0 (snd p) then div (v - fst p) (snd p) else Ok 0%Q.

Definition apply_column (c : list Q) (p : Q * Q) : result (list Q) :=
  map_result (apply_value p) c.

Definition invert_value (p : Q * Q) (v : Q) : Q := (v * snd p + fst p)%Q.

Definition invert_column (c : list Q) (p : Q * Q) : list Q :=
  invert_value p <$> c.

(** The parameters of every column of a dataset. *)
Definition fit (m : matrix) : result (list (Q * Q)) :=
  map_result fit_column (columns_of m).

(** [data_processing.normalize(column, config)]: the call hands over one
    column and the config, so the parameters applied are those of that
    column. *)
Definition normalize_column (c : list Q) (config : gmap string pyval)
  : result (list Q) :=
  match fit_column c with
  | Ok p => apply_column c p
  | Raise e => Raise e
  end.

(** [data_processing.renormalize_func(data, true_min_list,
    feature_range_list)]: [invert], column by column. *)
Definition invert (m : matrix) (true_min_list feature_range_list : list Q)
  : matrix :=
  of_columns (zip_with invert_column (columns_of m)
                (zip true_min_list feature_range_list)).

(** [apply(dataset, params)]: every column with its parameters. *)
Definition apply (m : matrix) (ps : list (Q * Q)) : result matrix :=
  match map_result (fun cp => apply_column cp.1 cp.2) (zip (columns_of m) ps) with
  | Ok cs => Ok (of_columns cs)
  | Raise e => Raise e
  end.

Definition map_data (f : matrix -> matrix) (d : pydata) : pydata :=
  match d with
  | DataFrame cols m => DataFrame cols (f m)
  | NDArray m => NDArray (f m)
  end.

(** *** Splitter *)

(** Modelled from the spec: [data_processing.split] is not part of the two
    files. The Splitter keeps every row once; the test part has
    [floor (test_fraction * rows)] rows. *)
Definition split_rows (m : matrix) (test_size : Q) : matrix * matrix :=
  let n_test := Z.to_nat (Qfloor (test_size * inject_Z (Z.of_nat (length m)))) in
  (take (length m - n_test)%nat m, drop (length m - n_test)%nat m).

(** *** ModelStore and the codec *)

(** Modelled from the spec: the model classes and [data_processing]'s
    [initialise_model], [load_model] are not part of the two files. A
    persisted model is a weight blob keyed by
    [(model_name, n_features, z_dim)]; loading fails with
    [ArchitectureMismatchError] when the requested [(n_features, z_dim)]
    cannot be reconciled with what is stored. *)
Record artifact : Type := {
  model_name : string;
  n_features : Z;
  z_dim : Z;
  weights : state_dict;
}.

(** The files of a project: datasets and saved models, by path. *)
Record files : Type := {
  datasets : gmap string pydata;
  models : gmap string artifact;
}.

(** The network itself is outside the specification; this one keeps the
    first [z_dim] values of a row and fills a row up with zeros. *)
Definition resize (k : Z) (row : list Q) : list Q :=
  take (Z.to_nat k) (row ++ replicate (Z.to_nat k) 0%Q).

Section Instances.
Variable fs : files.

#[local] Instance codec : Codec := {|
  ModelClass := string;
  Model := artifact;
  encode m t := Ok (resize (z_dim m) <$> t);
  decode m t := Ok (resize (n_features m) <$> t);
  torch_load path :=
    match models fs !! path with
    | Some a => Ok (weights a)
    | None => Raise (OSError path)
    end;
|}.

Definition spec_load_model (name path : string) (n z : Z) : result artifact :=
  match models fs !! path with
  | Some a =>
      if String.eqb (model_name a) name && (n_features a =? n) && (z_dim a =? z)
      then Ok a
      else Raise ArchitectureMismatchError
  | None => Raise (OSError path)
  end.

#[local] Instance data_processing : DataProcessing := {|
  NormFeatures := list (Q * Q);
  load_data path config :=
    match datasets fs !! path with
    | Some d => Ok d
    | None => Raise (OSError path)
    end;
  get_columns d :=
    match d with
    | DataFrame cols _ => Ok cols
    | NDArray _ => Raise (AttributeError "columns")
    end;
  find_minmax d := fit (to_numpy d);
  dp_normalize := normalize_column;
  numpy_to_df m config :=
    match getattr config "cleared_col_names" with
    | Ok (VStrs cols) => Ok (DataFrame cols m)
    | Ok _ => Raise TypeError
    | Raise e => Raise e
    end;
  split d test_size random_state :=
    match as_Q test_size with
    | Some q =>
        let '(tr, te) := split_rows (to_numpy d) q in
        Ok (map_data (fun _ => tr) d, map_data (fun _ => te) d)
    | None => Raise TypeError
    end;
  renormalize_func d mins ranges :=
    Ok (map_data (fun m => invert m mins ranges) d);
  initialise_model config :=
    match getattr config "model_name" with
    | Ok (VStr name) => Ok name
    | Ok _ => Raise TypeError
    | Raise e => Raise e
    end;
  load_model := spec_load_model;
|}.

End Instances.

(** *** CompressionEngine *)

(** Modelled from the spec: the derive-time sizing of the model is done by
    the caller of [train], which is not part of the two files.
    [latent_width(n_features, compression_ratio) =
     floor(n_features / compression_ratio)]. *)
Definition latent_width (n_features : Z) (compression_ratio : Q) : Z :=
  Qfloor (inject_Z n_features / compression_ratio).

End Spec.

(** ** The policies of the training loop, as the specification describes them *)

Module Policies.

(** [a - b] on floats *)
Definition fsub (a b : pyfloat) : pyfloat :=
  match a, b with
  | NaN, _ | _, NaN => NaN
  | PInf, PInf | NInf, NInf => NaN
  | PInf, _ | _, NInf => PInf
  | NInf, _ | _, PInf => NInf
  | Fin x, Fin y => Fin (x - y)
  end.

(** [a > d] on floats *)
Definition fgt (a : pyfloat) (d : Q) : bool :=
  match a with
  | Fin x => negb (Qle_bool x d)
  | PInf => true
  | NInf | NaN => false
  end.

Definition number (v : pyval) : Q := default 0%Q (as_Q v).

(** Modelled from the spec: [utils.EarlyStopping] is not part of the two
    files. The StoppingPolicy: [best_loss = +infinity], [counter = 0]; on
    each observed [val_loss], if [best_loss - val_loss > min_delta] then
    [best_loss = val_loss] and [counter = 0], else [counter += 1] and, if
    [counter >= patience], signal stop; stopped is terminal. *)
Record stopping : Type := {
  patience : Q;
  min_delta : Q;
  best_loss : pyfloat;
  counter : Z;
  stopped : bool;
}.

Definition new_stopping (patience min_delta : pyval) : stopping :=
  {| patience := number patience; min_delta := number min_delta;
     best_loss := PInf; counter := 0; stopped := false |}.

Definition observe (st : stopping) (val_loss : pyfloat) : stopping :=
  if stopped st then st
  else if fgt (fsub (best_loss st) val_loss) (min_delta st) then
    {| patience := patience st; min_delta := min_delta st;
       best_loss := val_loss; counter := 0; stopped := false |}
  else
    {| patience := patience st; min_delta := min_delta st;
       best_loss := best_loss st; counter := counter st + 1;
       stopped := Qle_bool (patience st) (inject_Z (counter st + 1)) |}.

(** Modelled from the spec: [utils.LRScheduler] is not part of the two
    files. The RatePolicy tracks the same plateau signal with a
    [best_loss] and a [counter] of its own; when the counter reaches its
    patience the learning rate is multiplied by a fixed decay factor and
    the counter resets. *)
Record rate : Type := {
  rate_patience : Q;
  rate_min_delta : Q;
  rate_factor : Q;
  rate_best_loss : pyfloat;
  rate_counter : Z;
}.

Definition new_rate (min_delta factor : Q) (patience : pyval) : rate :=
  {| rate_patience := number patience; rate_min_delta := min_delta;
     rate_factor := factor; rate_best_loss := PInf; rate_counter := 0 |}.

(** The policy after an observation, and whether the rate decays. *)
Definition observe_rate (st : rate) (val_loss : pyfloat) : rate * bool :=
  if fgt (fsub (rate_best_loss st) val_loss) (rate_min_delta st) then
    ({| rate_patience := rate_patience st; rate_min_delta := rate_min_delta st;
        rate_factor := rate_factor st; rate_best_loss := val_loss;
        rate_counter := 0 |}, false)
  else if Qle_bool (rate_patience st) (inject_Z (rate_counter st + 1)) then
    ({| rate_patience := rate_patience st; rate_min_delta := rate_min_delta st;
        rate_factor := rate_factor st; rate_best_loss := rate_best_loss st;
        rate_counter := 0 |}, true)
  else
    ({| rate_patience := rate_patience st; rate_min_delta := rate_min_delta st;
        rate_factor := rate_factor st; rate_best_loss := rate_best_loss st;
        rate_counter := rate_counter st + 1 |}, false).

End Policies.

(** ** A network to run the loop on *)

(** The architecture is outside the pipeline. This one has a single
    weight [w] and reconstructs [x] as [w * x]; its loss is the mean
    squared error plus [reg_param * |w|], and the mean over a batch
    without elements is not a number. Its optimizer takes plain gradient
    steps and its loaders cut the rows into batches in order. *)
Module Linear.
Import Training.

Definition scale (w : Q) (t : matrix) : matrix := map (map (Qmult w)) t.

Definition numel (t : matrix) : nat := length (concat t).

Definition total (l : list Q) : Q := foldr Qplus 0%Q l.

Definition squared_error (x y : matrix) : Q :=
  total (zip_with (fun a b => (b - a) * (b - a))%Q (concat x) (concat y)).

Definition mse (x y : matrix) : pyfloat :=
  match numel x with
  | O => NaN
  | S _ => Fin (Qred (squared_error x y / inject_Z (Z.of_nat (numel x))))
  end.

Definition loss (w : Q) (x y : matrix) (reg_param : pyval) : result pyfloat :=
  match as_Q reg_param with
  | Some r => Ok (fadd (mse x y) (Fin (Qred (r * Qabs w))))
  | None => Raise TypeError
  end.

Definition gradient (w : Q) (x y : matrix) (reg_param : pyval) : Q :=
  Qred (total (zip_with (fun a b => 2 * (b - a) * a)%Q (concat x) (concat y))).

(** The rows, [b] at a time; [cur] holds the batch being filled, last row
    first. *)
Fixpoint chunks (b : nat) (cur rows : matrix) : list matrix :=
  match rows with
  | [] => match cur with [] => [] | _ => [rev cur] end
  | r :: rows' =>
      if (length cur + 1 =? b)%nat then rev (r :: cur) :: chunks b [] rows'
      else chunks b (r :: cur) rows'
  end.

#[export] Instance torch : Torch := {|
  Tensor := matrix;
  Params := Q;
  Grad := Q;
  Optim := Q;
  Loader := list matrix;
  RNG := unit;
  tensor m := m;
  forward mode w x := Ok (scale w x);
  model_loss := loss;
  backward := gradient;
  Adam w lr :=
    match as_Q lr with
    | Some q => Ok q
    | None => Raise TypeError
    end;
  step lr w g := (lr, Qred (w - lr * g));
  DataLoader ds bs shuffle :=
    match bs with
    | VInt b => if 0 <? b then Ok (chunks (Z.to_nat b) [] ds) else Raise ValueError
    | _ => Raise ValueError
    end;
  iterate dl r := (dl, r);
  loader_len dl := length dl;
|}.

#[export] Instance utils : Utils := {|
  EarlyStopping := Policies.stopping;
  new_EarlyStopping := Policies.new_stopping;
  call_EarlyStopping := Policies.observe;
  early_stop := Policies.stopped;
  LRScheduler := Policies.rate;
  new_LRScheduler opt patience := Policies.new_rate 0 (1 # 10) patience;
  call_LRScheduler sc opt val_loss :=
    let '(sc', decay) := Policies.observe_rate sc val_loss in
    (sc', if decay then Qred (opt * Policies.rate_factor sc) else opt);
|}.

End Linear.

(** ** A small project *)

(** A project to run the pipeline on: a dataset to derive from, a dataset
    to compress, two latent files, a saved model for two features and one
    latent value, and the default config. *)
Module Project.
Import Helper Spec.

Definition derive_data : pydata :=
  DataFrame ["a"; "b"] [[0; 0]; [10; 1]]%Q.

Definition input_data : pydata :=
  DataFrame ["a"; "b"] [[2; 0]; [4; 1]]%Q.

Definition latent_data : pydata := NDArray [[0]; [1]]%Q.

Definition wide_latent_data : pydata := NDArray [[1; 2; 3]]%Q.

Definition saved_weights : state_dict :=
  [("en.weight", {| shape := [1; 2]%nat; flat := [1; 0]%Q |});
   ("de.weight", {| shape := [2; 1]%nat; flat := [1; 0]%Q |});
   ("de.bias", {| shape := [2]%nat; flat := [0; 0]%Q |})].

Definition saved_model : artifact :=
  {| model_name := "george_SAE"; n_features := 2; z_dim := 1;
     weights := saved_weights |}.

(** The same model, saved with one more tensor after the decoder's bias. *)
Definition scaled_model : artifact :=
  {| model_name := "george_SAE"; n_features := 2; z_dim := 1;
     weights := saved_weights ++ [("de.scale", {| shape := [1]%nat; flat := [1]%Q |})] |}.

Definition fs : files :=
  {| datasets :=
       list_to_map [("derive.csv", derive_data); ("input.csv", input_data);
                    ("latent.pickle", latent_data);
                    ("wide.pickle", wide_latent_data)];
     models :=
       list_to_map [("model.pt", saved_model); ("scaled.pt", scaled_model)] |}.

Definition start : hstate := {| config := default_config; calls := [] |}.


(** The pipeline on this project. *)
Definition process := @Helper.process (codec fs) (data_processing fs).
Definition compress := @Helper.compress (codec fs) (data_processing fs).
Definition decompress := @Helper.decompress (codec fs) (data_processing fs).

(** A training run: a model that reconstructs its input as it is, so that
    the validation loss stays where it is and a policy with patience [1]
    signals stop after the second epoch of five. *)
Definition train_config : gmap string pyval :=
  <["batch_size" := VInt 2]>
    (<["latent_space_size" := VInt 1]>
       (<["patience" := VInt 1]> (<["epochs" := VInt 5]> default_config))).

Definition train_data : pydata :=
  DataFrame ["a"; "b"] [[0; 1]; [1; 0]; [1 # 2; 1 # 2]]%Q.

Definition test_data : pydata := DataFrame ["a"; "b"] [[0; 1]; [1; 1]]%Q.

Definition train_start : @Training.tstate Linear.torch :=
  @Training.Build_tstate Linear.torch train_config 1%Q false tt [] [].

(** The namespace of [training.py] with the three names it lacks. *)
Definition patched_globals : gmap string pyval :=
  <["mse_loss_fit1" := VFloat 0]>
    (<["regularizer_loss_fit1" := VFloat 0]>
       (<["model_from_fit" := VObj "model"]> Training.module_globals)).

Definition train_dl : list matrix := [[[0; 1]; [1; 0]]; [[1 # 2; 1 # 2]]]%Q.
Definition valid_dl : list matrix := [[[0; 1]; [1; 1]]]%Q.

Abbreviation epoch g :=
  (@Training.epoch_body Linear.torch Linear.utils g train_dl valid_dl
     (VFloat (1 # 1000)) (VFloat (5 # 100)) (VBool true) (VInt 5)).

Definition locals0 : @Training.locals Linear.torch Linear.utils :=
  @Training.Build_locals Linear.torch Linear.utils (1 # 1000)%Q
    (Some (Policies.new_stopping (VInt 1) (VInt 0))) None [] [] [] [].

(** The locals a run of the loop ended with. *)
Abbreviation locals_of r :=
  (match fst r with
   | Ok l => l
   | Raise _ => locals0
   end).

Abbreviation after_first :=
  (Training.for_epochs (epoch patched_globals) (Z.of_nat <$> seq 0 1) locals0
     train_start).

Abbreviation after_second :=
  (epoch patched_globals (Z.of_nat 1) (locals_of after_first) (snd after_first)).


End Project.

(** ** The project, at its edges *)

Module ProjectEdges.
Import Helper Spec Project Frontend.

(** The project as [create_default_config] leaves it: the config has no
    [latent_space_size]. *)
Definition default_start : @Training.tstate Linear.torch :=
  @Training.Build_tstate Linear.torch default_config 1%Q false tt [] [].

(** The run of the project with early stopping switched off. *)
Definition free_start : @Training.tstate Linear.torch :=
  @Training.Build_tstate Linear.torch
    (<["early_stopping" := VBool false]> Project.train_config) 1%Q false tt [] [].


(** The run of the project with [epochs = 0]. *)
Definition idle_start : @Training.tstate Linear.torch :=
  @Training.Build_tstate Linear.torch (<["epochs" := VInt 0]> Project.train_config)
    1%Q false tt [] [].

(** The project with a compression ratio of zero. *)
Definition flat : hstate :=
  {| config := <["compression_ratio" := VInt 0]> default_config; calls := [] |}.

(** A disk with one project, [demo], and an interpreter that has
    imported nothing. *)
Definition disk (dir : string) : option (gmap string pyval) :=
  if String.eqb dir "projects/demo/" then Some default_config else None.

(** A parser for the command lines of the examples: each of the two
    options followed by its value, in any order; [--help] ends with
    status [0], any other command line with status [2]. *)
Fixpoint demo_parse (argv : list string) (ns : namespace) : parsed :=
  match argv with
  | [] => Parsed ns
  | opt :: rest =>
      if String.eqb opt "--help" then Exits 0 else
        match rest with
        | [] => Exits 2
        | v :: rest' =>
            if String.eqb opt "--mode" then
              demo_parse rest' {| mode := Some v; project := project ns |}
            else if String.eqb opt "--project" then
              demo_parse rest' {| mode := mode ns; project := Some v |}
            else Exits 2
        end
  end.

Lemma demo_parse_exits (n : nat) :
  forall argv ns code,
    (length argv <= n)%nat ->
    demo_parse argv ns = Exits code -> code = 0 \/ code = 2.
Proof.
  induction n as [|n IH]; intros argv ns code Hlen.
  - destruct argv; [discriminate | simpl in Hlen; lia].
  - destruct argv as [|opt [|v rest]]; simpl; [discriminate| |].
    + destruct (String.eqb opt "--help"); intros [= <-]; auto.
    + simpl in Hlen.
      destruct (String.eqb opt "--help"); [intros [= <-]; auto|].
      destruct (String.eqb opt "--mode"); [apply IH; lia|].
      destruct (String.eqb opt "--project"); [apply IH; lia|].
      intros [= <-]. auto.
Qed.

#[global] Instance demo_parser : ArgumentParser :=
  {| parse_args := fun argv => demo_parse argv {| mode := None; project := None |};
     parse_args_exits := fun argv code =>
       demo_parse_exits (length argv) argv _ code (Nat.le_refl _) |}.

Definition fresh : interpreter :=
  {| sys_path := ["."]; configClass := None; usage_printed := 0 |}.

Definition imported : interpreter :=
  {| sys_path := ["."; "projects/demo/"]; configClass := Some default_config;
     usage_printed := 0 |}.

End ProjectEdges.

(** * Properties *)

(** ** Rules for computations *)

Module Rules.

Lemma wp_bind {S A B} (m : M S A) (k : A -> M S B) Q s :
  wp m (fun r s' => match r with
                    | Ok a => wp (k a) Q s'
                    | Raise e => Q (Raise e) s'
                    end) s ->
  wp (bind m k) Q s.
Proof. unfold wp, bind. destruct (m s) as [[a|e] s']; auto. Qed.

Lemma bind_Ok {S A B} (m : M S A) (k : A -> M S B) s a s' :
  m s = (Ok a, s') -> bind m k s = k a s'.
Proof. unfold bind. intros ->. reflexivity. Qed.

Lemma bind_Raise {S A B} (m : M S A) (k : A -> M S B) s e s' :
  m s = (Raise e, s') -> bind m k s = (Raise e, s').
Proof. unfold bind. intros ->. reflexivity. Qed.

Lemma bind_get {S B} (k : S -> M S B) s : bind get k s = k s s.
Proof. reflexivity. Qed.

Lemma bind_modify {S B} (f : S -> S) (k : unit -> M S B) s :
  bind (modify f) k s = k tt (f s).
Proof. reflexivity. Qed.

Lemma bind_lift_Ok {S A B} (r : result A) a (k : A -> M S B) s :
  r = Ok a -> bind (lift r) k s = k a s.
Proof. intros ->. reflexivity. Qed.

Lemma bind_lift_Raise {S A B} (r : result A) e (k : A -> M S B) s :
  r = Raise e -> bind (lift r) k s = (Raise e, s).
Proof. intros ->. reflexivity. Qed.

Lemma bind_inv_Ok {S A B} (m : M S A) (k : A -> M S B) s b s' :
  bind m k s = (Ok b, s') ->
  exists a s1, m s = (Ok a, s1) /\ k a s1 = (Ok b, s').
Proof.
  unfold bind. destruct (m s) as [[a|e] s1]; intros E.
  - exists a, s1. auto.
  - discriminate.
Qed.

Lemma bind_ext {S A B} (m : M S A) (k k' : A -> M S B) s :
  (forall a s', k a s' = k' a s') -> bind m k s = bind m k' s.
Proof. intros Hk. unfold bind. destruct (m s) as [[a|e] s']; auto. Qed.

(** Case analysis on the first step of a computation. *)
Lemma bind_cases {S A B} (m : M S A) (k : A -> M S B) s
    (P : result B * S -> Prop) :
  (forall e s', m s = (Raise e, s') -> P (Raise e, s')) ->
  (forall a s', m s = (Ok a, s') -> P (k a s')) ->
  P (bind m k s).
Proof. intros He Ha. unfold bind. destruct (m s) as [[a|e] s']; auto. Qed.

Lemma run_eq {S A} (r : result A * S) a s :
  r.1 = a -> r.2 = s -> r = (a, s).
Proof. destruct r. simpl. intros -> ->. reflexivity. Qed.

Lemma lift_inv_Ok {S A} (r : result A) (s : S) a s' :
  lift r s = (Ok a, s') -> r = Ok a /\ s' = s.
Proof. unfold lift. intros [= -> ->]. auto. Qed.

Section Rules.
Context {S : Type}.

Section Keeps.
Context (R : S -> S -> Prop) `{!PreOrder R}.

Lemma keeps_ret {A} (a : A) : keeps R (ret a).
Proof. intros s. reflexivity. Qed.

Lemma keeps_raise {A} e : keeps R (@raise S A e).
Proof. intros s. reflexivity. Qed.

Lemma keeps_lift {A} (r : result A) : keeps R (lift r).
Proof. intros s. reflexivity. Qed.

Lemma keeps_get : keeps R get.
Proof. intros s. reflexivity. Qed.

Lemma keeps_modify (f : S -> S) : (forall s, R s (f s)) -> keeps R (modify f).
Proof. intros H s. apply H. Qed.

Lemma keeps_bind {A B} (m : M S A) (k : A -> M S B) :
  keeps R m -> (forall a, keeps R (k a)) -> keeps R (bind m k).
Proof.
  intros Hm Hk s. unfold bind. specialize (Hm s).
  destruct (m s) as [[a|e] s']; simpl in *; [|done].
  etransitivity; [exact Hm | apply Hk].
Qed.

End Keeps.

Section Never.
Context (e : exn).

Lemma never_ret {A} (a : A) : never e (@ret S A a).
Proof. intros s. discriminate. Qed.

Lemma never_raise {A} e' : e' <> e -> never e (@raise S A e').
Proof. intros H s. simpl. congruence. Qed.

Lemma never_lift {A} (r : result A) : r <> Raise e -> never e (@lift S A r).
Proof. intros H s. exact H. Qed.

Lemma never_get : never e (@get S).
Proof. intros s. discriminate. Qed.

Lemma never_modify (f : S -> S) : never e (modify f).
Proof. intros s. discriminate. Qed.

Lemma never_bind {A B} (m : M S A) (k : A -> M S B) :
  never e m -> (forall a, never e (k a)) -> never e (bind m k).
Proof.
  intros Hm Hk s. unfold bind. specialize (Hm s).
  destruct (m s) as [[a|e'] s']; simpl in *; [apply Hk | congruence].
Qed.

End Never.

Lemma fails_bind_l {A B} (m : M S A) (k : A -> M S B) :
  fails m -> fails (bind m k).
Proof.
  intros Hm s. unfold bind. specialize (Hm s).
  destruct (m s) as [[a|e'] s']; simpl in *; [discriminate | reflexivity].
Qed.

Lemma fails_bind_r {A B} (m : M S A) (k : A -> M S B) :
  (forall a, fails (k a)) -> fails (bind m k).
Proof.
  intros Hk s. unfold bind.
  destruct (m s) as [[a|e'] s']; simpl; [apply Hk | done].
Qed.

Lemma fails_lift {A} (r : result A) : is_ok r = false -> fails (@lift S A r).
Proof. intros H s. exact H. Qed.

End Rules.

(** One step through the structure of a computation, for a goal
    [keeps R m] or [never e m]. *)
Ltac step_into :=
  match goal with
  | |- keeps _ (bind _ _) =>
      apply keeps_bind; [typeclasses eauto | try done | intros ?]
  | |- never _ (bind _ _) => apply never_bind; [| intros ?]
  | |- keeps _ (ret _) => apply keeps_ret; typeclasses eauto
  | |- never _ (ret _) => apply never_ret
  | |- keeps _ (raise _) => apply keeps_raise; typeclasses eauto
  | |- never _ (raise _) => apply never_raise; discriminate
  | |- keeps _ (lift _) => apply keeps_lift; typeclasses eauto
  | |- keeps _ get => apply keeps_get; typeclasses eauto
  | |- never _ get => apply never_get
  | |- never _ (modify _) => apply never_modify
  | |- keeps _ (match ?x with _ => _ end) => destruct x
  | |- never _ (match ?x with _ => _ end) => destruct x
  end.

End Rules.
Import Rules.

(** ** binary64 *)

Module FloatFacts.

Local Open Scope Q_scope.

Lemma two_pos e : 0 < 2 ^ e.
Proof. apply Qpower_0_lt. reflexivity. Qed.

Lemma two_plus a b : 2 ^ (a + b) == 2 ^ a * 2 ^ b.
Proof. apply Qpower_plus. discriminate. Qed.

Lemma two_le a b : (a <= b)%Z -> 2 ^ a <= 2 ^ b.
Proof. intros H. apply Qpower_le_compat_l; [exact H | discriminate]. Qed.

Lemma two_lt_inv a b : 2 ^ a < 2 ^ b -> (a < b)%Z.
Proof. intros H. apply (Qpower_lt_compat_l_inv 2); [exact H | reflexivity]. Qed.

Lemma two_inject e : (0 <= e)%Z -> inject_Z (2 ^ e) == 2 ^ e.
Proof. intros H. apply (Zpower_Qpower 2 e H). Qed.

Lemma two_succ e : 2 ^ (e + 1) == 2 * 2 ^ e.
Proof. rewrite two_plus. change (2 ^ 1) with 2. ring. Qed.

Lemma two_pred e : 2 ^ (e - 1) == 2 ^ e / 2.
Proof.
  replace (e - 1)%Z with (e + -1)%Z by lia. rewrite two_plus.
  change (2 ^ (-1)) with (/ 2). field.
Qed.

(** [Z.log2] brackets a positive integer between two powers of two. *)
Lemma log2_bracket (n : Z) :
  (0 < n)%Z -> 2 ^ Z.log2 n <= inject_Z n /\ inject_Z n < 2 ^ (Z.log2 n + 1).
Proof.
  intros Hn. destruct (Z.log2_spec n Hn) as [Hlo Hhi].
  pose proof (Z.log2_nonneg n) as H0.
  split.
  - rewrite <- two_inject by exact H0. rewrite <- Zle_Qle. exact Hlo.
  - rewrite <- two_inject by lia. rewrite <- Zlt_Qlt.
    replace (Z.log2 n + 1)%Z with (Z.succ (Z.log2 n)) by lia. exact Hhi.
Qed.

(** [Qlog2] is the exponent of the binade of a positive rational. *)
Lemma Qlog2_spec (a : Q) :
  0 < a -> 2 ^ Qlog2 a <= a /\ a < 2 ^ (Qlog2 a + 1).
Proof.
  intros Ha. destruct a as [n d].
  assert (Hn : (0 < n)%Z).
  { unfold Qlt in Ha. simpl in Ha. lia. }
  destruct (log2_bracket n Hn) as [Hn1 Hn2].
  destruct (log2_bracket (Zpos d) eq_refl) as [Hd1 Hd2].
  unfold Qlog2. simpl Qnum. simpl Qden.
  set (i := Z.log2 n) in *. set (j := Z.log2 (Zpos d)) in *.
  assert (Hq : n # d == inject_Z n / inject_Z (Zpos d)) by apply Qmake_Qdiv.
  assert (Hdpos : 0 < inject_Z (Zpos d)) by reflexivity.
  pose proof (two_pos j) as Hj. pose proof (two_pos i) as Hi.
  assert (Hsplit : 2 ^ (i - j + 1) == 2 * 2 ^ i / 2 ^ j).
  { replace (i - j + 1)%Z with ((i + 1) + - j)%Z by lia.
    rewrite two_plus, two_succ, Qpower_opp. field. lra. }
  assert (Hsplit0 : 2 ^ (i - j) == 2 ^ i / 2 ^ j).
  { replace (i - j)%Z with (i + - j)%Z by lia.
    rewrite two_plus, Qpower_opp. field. lra. }
  rewrite two_succ in Hn2, Hd2.
  assert (Hup : n # d < 2 ^ (i - j + 1)).
  { rewrite Hq, Hsplit. apply Qlt_shift_div_r; [exact Hdpos|].
    assert (2 * 2 ^ i / 2 ^ j * inject_Z (Zpos d)
            == 2 * 2 ^ i * (inject_Z (Zpos d) / 2 ^ j)) as -> by (field; lra).
    assert (1 <= inject_Z (Zpos d) / 2 ^ j)
      by (apply Qle_shift_div_l; [exact Hj | lra]).
    nra. }
  assert (Hlow : 2 ^ (i - j - 1) <= n # d).
  { rewrite two_pred, Hsplit0, Hq. apply Qle_shift_div_l; [exact Hdpos|].
    assert (2 ^ i / 2 ^ j / 2 * inject_Z (Zpos d)
            == 2 ^ i * (inject_Z (Zpos d) / (2 * 2 ^ j))) as -> by (field; lra).
    assert (inject_Z (Zpos d) / (2 * 2 ^ j) <= 1)
      by (apply Qle_shift_div_r; lra).
    nra. }
  destruct (Qle_bool (2 ^ (i - j)) (n # d)) eqn:Hcmp.
  - apply Qle_bool_iff in Hcmp. split; assumption.
  - assert (Hlt : n # d < 2 ^ (i - j)).
    { apply Qnot_le_lt. intros Hle. apply Qle_bool_iff in Hle. congruence. }
    split; [exact Hlow|].
    replace (i - j - 1 + 1)%Z with (i - j)%Z by lia. exact Hlt.
Qed.

(** [round_even] is within a half of its argument, and leaves an integer
    as it is. *)
Lemma round_even_near (x : Q) : Qabs (inject_Z (round_even x) - x) <= 1 # 2.
Proof.
  pose proof (Qfloor_le x) as Hlo. pose proof (Qlt_floor x) as Hhi.
  rewrite inject_Z_plus in Hhi. change (inject_Z 1) with 1 in Hhi.
  unfold round_even.
  destruct (Qcompare (x - inject_Z (Qfloor x)) (1 # 2)) eqn:Hc.
  - apply Qeq_alt in Hc.
    destruct (Z.even (Qfloor x)); [|rewrite inject_Z_plus; change (inject_Z 1) with 1];
      apply Qabs_Qle_condition; split; lra.
  - apply Qlt_alt in Hc. apply Qabs_Qle_condition; split; lra.
  - apply Qgt_alt in Hc. rewrite inject_Z_plus. change (inject_Z 1) with 1.
    apply Qabs_Qle_condition; split; lra.
Qed.

Lemma round_even_Z (x : Q) (z : Z) : x == inject_Z z -> round_even x = z.
Proof.
  intros Hx. unfold round_even.
  assert (Hf : Qfloor x = z) by (rewrite Hx; apply Qfloor_Z).
  rewrite Hf.
  assert (Hc : Qcompare (x - inject_Z z) (1 # 2) = Lt).
  { apply Qlt_alt. rewrite Hx. unfold Qminus. rewrite Qplus_opp_r. reflexivity. }
  rewrite Hc. reflexivity.
Qed.


Lemma Qabs_of_pos (x : Q) : 0 < x -> Qabs x = x.
Proof.
  destruct x as [n d]. unfold Qlt. simpl. intros Hn.
  rewrite Z.abs_eq by lia. reflexivity.
Qed.

(** [round64] on a positive rational. *)
Lemma round64_pos (x : Q) :
  0 < x ->
  round64 x
  = let v := inject_Z (round_even (x / ulp x)) * ulp x in
    if Qle_bool (2 ^ 1024) v then PInf else Fin (Qred v).
Proof.
  intros Hx. unfold round64.
  destruct (Qeq_bool x 0) eqn:Hzero.
  { apply Qeq_bool_eq in Hzero. lra. }
  rewrite (Qabs_of_pos x Hx).
  assert (Hsign : Qle_bool 0 x = true) by (apply Qle_bool_iff; lra).
  rewrite Hsign. reflexivity.
Qed.

(** The two constants of binary64: half the relative spacing of the
    doubles, and half the least positive double. *)
Definition eps : Q := 2 ^ (-53).
Definition tiny : Q := 2 ^ (-1075).

(** Rounding moves a positive rational, well below the largest double,
    by at most half a unit in the last place. *)
Lemma round64_near (x : Q) :
  0 < x -> x <= 2 ^ 1000 ->
  exists y, round64 x = Fin y /\ Qabs (y - x) <= x * eps + tiny.
Proof.
  intros Hx Hbig. rewrite (round64_pos x Hx). cbv zeta.
  destruct (Qlog2_spec x Hx) as [Hlo _].
  unfold ulp. set (e := Qlog2 x) in *.
  set (p := Z.max (e - 52) (-1074)).
  pose proof (two_pos p) as Hu.
  assert (Hhalf : (1 # 2) * 2 ^ p <= x * eps + tiny).
  { unfold p, eps, tiny.
    pose proof (two_pos (-1075)) as Ht. pose proof (two_pos (-53)) as He.
    destruct (Z.max_spec (e - 52) (-1074)) as [[_ ->]|[_ ->]].
    - change ((1 # 2) * 2 ^ (-1074)) with (2 ^ (-1075)).
      set (E := 2 ^ (-53)) in *. set (T := 2 ^ (-1075)) in *.
      clearbody E T. nra.
    - replace (e - 52)%Z with (e + -53 + 1)%Z by lia.
      rewrite two_succ, two_plus.
      set (P := 2 ^ e) in *. set (E := 2 ^ (-53)) in *. set (T := 2 ^ (-1075)) in *.
      clearbody P E T. nra. }
  set (u := 2 ^ p) in *.
  pose proof (round_even_near (x / u)) as Hnear.
  set (k := inject_Z (round_even (x / u))) in *.
  clearbody u k.
  assert (Hdist : Qabs (k * u - x) <= (1 # 2) * u).
  { assert (k * u - x == (k - x / u) * u) as -> by (field; lra).
    rewrite Qabs_Qmult, (Qabs_pos u) by lra.
    set (d := Qabs (k - x / u)) in *. clearbody d. nra. }
  apply Qabs_Qle_condition in Hdist as [Hd1 Hd2].
  assert (Hnum : 2 ^ 1000 + (2 ^ 1000 * eps + tiny) < 2 ^ 1024)
    by (vm_compute; reflexivity).
  assert (Hmono : x * eps <= 2 ^ 1000 * eps).
  { assert (He : 0 < eps) by apply two_pos.
    set (B := 2 ^ 1000) in *. set (E := eps) in *. clearbody B E. nra. }
  set (B := 2 ^ 1000) in *. set (C := 2 ^ 1024) in *.
  set (xe := x * eps) in *. set (Be := B * eps) in *.
  set (T := tiny) in *. clearbody B C xe Be T.
  destruct (Qle_bool C (k * u)) eqn:Hover.
  { apply Qle_bool_iff in Hover. lra. }
  exists (Qred (k * u)). split; [reflexivity|].
  rewrite Qred_correct. apply Qabs_Qle_condition. split; lra.
Qed.

(** An integer below [2^53] is a double. *)
Lemma round64_Z (x : Q) (k : Z) :
  x == inject_Z k -> (0 <= k < 2 ^ 53)%Z ->
  exists y, round64 x = Fin y /\ y == inject_Z k.
Proof.
  intros Hx [Hk0 Hk]. destruct (Z.eq_dec k 0%Z) as [->|Hne].
  { exists 0. split; [|reflexivity]. unfold round64.
    rewrite (Qeq_eq_bool x 0) by exact Hx. reflexivity. }
  assert (Hpos : 0 < x).
  { rewrite Hx. change 0 with (inject_Z 0). rewrite <- Zlt_Qlt. lia. }
  rewrite (round64_pos x Hpos). cbv zeta.
  destruct (Qlog2_spec x Hpos) as [Hlo Hhi].
  unfold ulp. set (e := Qlog2 x) in *.
  assert (He : (0 <= e <= 52)%Z).
  { split.
    - assert (H : 2 ^ 0 < 2 ^ (e + 1)).
      { eapply Qle_lt_trans; [|exact Hhi]. rewrite Hx.
        change (2 ^ 0) with (inject_Z 1). rewrite <- Zle_Qle. lia. }
      apply two_lt_inv in H. lia.
    - assert (H : 2 ^ e < 2 ^ 53).
      { eapply Qle_lt_trans; [exact Hlo|]. rewrite Hx.
        rewrite <- (two_inject 53) by lia. rewrite <- Zlt_Qlt. exact Hk. }
      apply two_lt_inv in H. lia. }
  rewrite Z.max_l by lia.
  set (j := (52 - e)%Z). replace (e - 52)%Z with (- j)%Z by lia.
  assert (Hj : (0 <= j)%Z) by lia.
  pose proof (two_pos j) as Hjpos.
  assert (Hm : x / 2 ^ (- j) == inject_Z (k * 2 ^ j)).
  { rewrite inject_Z_mult, (two_inject j Hj), Hx, Qpower_opp. field. lra. }
  rewrite (round_even_Z _ _ Hm).
  assert (Hv : inject_Z (k * 2 ^ j) * 2 ^ (- j) == inject_Z k).
  { rewrite inject_Z_mult, (two_inject j Hj), Qpower_opp. field. lra. }
  destruct (Qle_bool _ _) eqn:Hover.
  { apply Qle_bool_iff in Hover. rewrite Hv in Hover.
    assert (Hlt : inject_Z k < 2 ^ 1024).
    { eapply Qlt_le_trans; [|apply (two_le 53 1024); lia].
      rewrite <- (two_inject 53) by lia. rewrite <- Zlt_Qlt. exact Hk. }
    lra. }
  eexists. split; [reflexivity|]. rewrite Qred_correct. exact Hv.
Qed.


Lemma Qtrunc_nonneg (x : Q) : 0 <= x -> Qtrunc x = Qfloor x.
Proof.
  destruct x as [n d]. unfold Qle, Qtrunc, Qfloor. simpl. intros H.
  apply Z.quot_div_nonneg; lia.
Qed.

Lemma Qtrunc_Z (y : Q) (t : Z) : y == inject_Z t -> Qtrunc y = t.
Proof.
  destruct y as [n d]. unfold Qeq, Qtrunc. simpl. intros H.
  assert (n = t * Zpos d)%Z as -> by lia. apply Z.quot_mul. discriminate.
Qed.

Lemma eps_small : eps <= 1 # 64.
Proof. vm_compute. discriminate. Qed.

Lemma tiny_small : tiny * 2 ^ 51 <= 1 # 64 /\ 0 < tiny.
Proof. split; [vm_compute; discriminate | apply two_pos]. Qed.

Lemma eps_quotient : 2 ^ 50 * eps == 1 # 8.
Proof. reflexivity. Qed.

(** The floor division of the doubles of a count [n] and of a positive
    [r]: as long as the quotient stays below [2^50], what CPython computes
    is the floor of the exact quotient. *)
Lemma float_floor_div_floor (n : Z) (a r : Q) :
  (0 <= n < 2 ^ 53)%Z -> a == inject_Z n -> 0 < r ->
  inject_Z n / r < 2 ^ 50 ->
  exists y,
    float_floor_div (Fin a) (Fin r) = Fin y /\
    y == inject_Z (Qfloor (inject_Z n / r)).
Proof.
  intros [Hn0 Hn] Ha Hr Hq.
  assert (HN0 : 0 <= inject_Z n)
    by (change 0 with (inject_Z 0); rewrite <- Zle_Qle; exact Hn0).
  assert (HN53 : inject_Z n <= 2 ^ 1000).
  { apply Qle_trans with (2 ^ 53); [|apply two_le; lia].
    rewrite <- (two_inject 53) by lia. rewrite <- Zle_Qle. lia. }
  assert (Hquot : inject_Z n == inject_Z n / r * r) by (field; lra).
  assert (Hq0 : 0 <= inject_Z n / r).
  { apply Qle_shift_div_l; [exact Hr | lra]. }
  pose proof (Qfloor_le (inject_Z n / r)) as Hlo.
  pose proof (Qlt_floor (inject_Z n / r)) as Hhi.
  rewrite inject_Z_plus in Hhi. change (inject_Z 1) with 1 in Hhi.
  set (t := Qfloor (inject_Z n / r)) in *.
  assert (Ht0 : (0 <= t)%Z).
  { change 0%Z with (Qfloor 0). apply Qfloor_resp_le. exact Hq0. }
  assert (HT0 : 0 <= inject_Z t)
    by (change 0 with (inject_Z 0); rewrite <- Zle_Qle; exact Ht0).
  assert (Htrunc : Qtrunc (a / r) = t).
  { rewrite Qtrunc_nonneg by (rewrite Ha; exact Hq0).
    unfold t. apply Qfloor_comp. rewrite Ha. reflexivity. }
  (* the remainder *)
  unfold float_floor_div. cbn [fmod]. rewrite Htrunc. cbv zeta.
  set (m := a - r * inject_Z t).
  assert (Hm : m == inject_Z n - r * inject_Z t) by (unfold m; rewrite Ha; reflexivity).
  assert (Hm0 : 0 <= m /\ m < r).
  { rewrite Hm. set (Qv := inject_Z n / r) in *. set (N := inject_Z n) in *.
    set (T := inject_Z t) in *. clearbody Qv N T. split; nra. }
  destruct Hm0 as [Hm0 Hmr].
  assert (Hsign : is_nonzero (Fin m)
                  && negb (eqb (is_negative (Fin r)) (is_negative (Fin m))) = false).
  { cbn [is_negative].
    rewrite (proj2 (Qle_bool_iff 0 r)) by lra.
    rewrite (proj2 (Qle_bool_iff 0 m)) by exact Hm0.
    apply andb_false_r. }
  rewrite Hsign. cbn [sub64].
  assert (Hx1 : a - m == r * inject_Z t) by (unfold m; ring).
  destruct (Z.eq_dec t 0%Z) as [Hzero|Hpos].
  { (* the quotient is below one *)
    assert (H0 : a - m == 0) by (rewrite Hx1, Hzero; ring).
    assert (Hr1 : round64 (a - m) = Fin 0).
    { unfold round64. rewrite (Qeq_eq_bool _ _ H0). reflexivity. }
    rewrite Hr1. cbn [div64].
    assert (Hr2 : round64 (0 / r) = Fin 0).
    { unfold round64. rewrite (Qeq_eq_bool (0 / r) 0); [reflexivity|].
      unfold Qdiv. ring. }
    rewrite Hr2. exists 0. split; [reflexivity|]. rewrite Hzero. reflexivity. }
  assert (HT1 : 1 <= inject_Z t)
    by (change 1 with (inject_Z 1); rewrite <- Zle_Qle; lia).
  assert (HT50 : inject_Z t <= 2 ^ 50) by lra.
  pose proof eps_small as Heps. pose proof tiny_small as [Htiny Htiny0].
  pose proof eps_quotient as HKe.
  assert (Heps0 : 0 < eps) by apply two_pos.
  assert (Hr51 : 1 <= r * 2 ^ 51).
  { assert (H1 : 1 <= inject_Z n).
    { change 1 with (inject_Z 1). rewrite <- Zle_Qle.
      assert (0 < inject_Z n) as Hlt.
      { set (Qv := inject_Z n / r) in *. set (N := inject_Z n) in *.
        set (T := inject_Z t) in *. clearbody Qv N T. nra. }
      change 0 with (inject_Z 0) in Hlt. rewrite <- Zlt_Qlt in Hlt. lia. }
    assert (H51 : 2 ^ 51 == 2 * 2 ^ 50) by reflexivity.
    rewrite H51.
    set (Qv := inject_Z n / r) in *. set (N := inject_Z n) in *.
    set (T := inject_Z t) in *. set (K := 2 ^ 50) in *.
    clearbody Qv N T K. nra. }
  (* the subtraction *)
  assert (Hx1pos : 0 < a - m).
  { rewrite Hx1. set (T := inject_Z t) in *. clearbody T. nra. }
  assert (Hx1big : a - m <= 2 ^ 1000).
  { rewrite Hx1. apply Qle_trans with (inject_Z n); [|exact HN53].
    set (Qv := inject_Z n / r) in *. set (N := inject_Z n) in *.
    set (T := inject_Z t) in *. clearbody Qv N T. nra. }
  destruct (round64_near (a - m) Hx1pos Hx1big) as (y1 & Hr1 & Hy1).
  rewrite Hr1. cbn [div64].
  apply Qabs_Qle_condition in Hy1 as [Hy1a Hy1b]. rewrite Hx1 in Hy1a, Hy1b.
  (* the division *)
  set (T := inject_Z t) in *. set (K := 2 ^ 50) in *. set (K1 := 2 ^ 51) in *.
  assert (Hx2 : y1 == y1 / r * r) by (field; lra).
  set (x2 := y1 / r) in *.
  assert (Hx2lo : T - (T * eps + tiny * K1) <= x2).
  { clearbody T K K1 x2. clear - Hx2 Hy1a Hr Hr51 Htiny0 Heps0 HT1.
    assert (0 <= r * (x2 - T + T * eps + tiny * K1)) by nra. nra. }
  assert (Hx2hi : x2 <= T + (T * eps + tiny * K1)).
  { clearbody T K K1 x2. clear - Hx2 Hy1b Hr Hr51 Htiny0 Heps0 HT1.
    assert (r * (x2 - T - T * eps - tiny * K1) <= 0) by nra. nra. }
  assert (HTe : T * eps <= 1 # 8).
  { clearbody T K. clear - HT50 HKe Heps0. nra. }
  assert (Hx2pos : 0 < x2) by (clearbody T K K1 x2; lra).
  assert (Hx2big : x2 <= 2 ^ 1000).
  { apply Qle_trans with (K + 1); [clearbody T K K1 x2; lra|].
    unfold K. vm_compute. discriminate. }
  destruct (round64_near x2 Hx2pos Hx2big) as (y2 & Hr2 & Hy2).
  rewrite Hr2.
  apply Qabs_Qle_condition in Hy2 as [Hy2a Hy2b].
  assert (Hx2e : x2 * eps <= (1 # 8) + (1 # 64)).
  { clearbody T K K1 x2. clear - Hx2hi HTe Htiny Heps Heps0 Hx2pos.
    assert (x2 <= T + 1) by lra. nra. }
  assert (Htiny1 : tiny <= 1 # 64).
  { unfold tiny. vm_compute. discriminate. }
  assert (Hy2lo : T - (3 # 8) <= y2) by (clearbody T K K1 x2; lra).
  assert (Hy2hi : y2 <= T + (3 # 8)) by (clearbody T K K1 x2; lra).
  assert (Hnz : is_nonzero (Fin y2) = true).
  { cbn. destruct (Qeq_bool y2 0) eqn:Hz; [|reflexivity].
    apply Qeq_bool_eq in Hz. clearbody T. lra. }
  rewrite Hnz. cbn [floor64 sub64].
  (* the snap to the nearest integer *)
  pose proof (Qfloor_le y2) as Hf1. pose proof (Qlt_floor y2) as Hf2.
  rewrite inject_Z_plus in Hf2. change (inject_Z 1) with 1 in Hf2.
  set (f := Qfloor y2) in *. clearbody f.
  assert (Hf : f = t \/ f = (t - 1)%Z).
  { assert (Hfa : inject_Z f < inject_Z (t + 1)).
    { rewrite inject_Z_plus. change (inject_Z 1) with 1. fold T.
      clearbody T. lra. }
    assert (Hfb : inject_Z (t - 2) < inject_Z f).
    { unfold Z.sub. rewrite inject_Z_plus. change (inject_Z (- (2))) with (-2).
      fold T. clearbody T. lra. }
    rewrite <- Zlt_Qlt in Hfa, Hfb. lia. }
  destruct Hf as [Hf|Hf].
  - (* [floor(div)] is the quotient *)
    assert (HfT : inject_Z f == T) by (rewrite Hf; reflexivity).
    assert (Hfrac : 0 <= y2 - inject_Z f /\ y2 - inject_Z f <= 3 # 8).
    { clearbody T. split; lra. }
    destruct Hfrac as [Hfr0 Hfr1].
    assert (Hhalf : above_half (round64 (y2 - inject_Z f)) = false).
    { destruct (Qeq_dec (y2 - inject_Z f) 0) as [Hz|Hnzf].
      - unfold round64. rewrite (Qeq_eq_bool _ _ Hz). reflexivity.
      - assert (Hfrpos : 0 < y2 - inject_Z f) by lra.
        assert (Hfrbig : y2 - inject_Z f <= 2 ^ 1000).
        { apply Qle_trans with 1; [lra | vm_compute; discriminate]. }
        destruct (round64_near _ Hfrpos Hfrbig) as (y3 & Hr3 & Hy3).
        rewrite Hr3. cbn.
        apply Qabs_Qle_condition in Hy3 as [_ Hy3].
        assert (Hfe : (y2 - inject_Z f) * eps <= 1 # 64).
        { set (fr := y2 - inject_Z f) in *. clearbody fr.
          clear - Hfr0 Hfr1 Heps Heps0. nra. }
        rewrite (proj2 (Qle_bool_iff y3 (1 # 2))); [reflexivity|].
        set (fr := y2 - inject_Z f) in *. set (fe := fr * eps) in *.
        clearbody fr fe. lra. }
    rewrite Hhalf. exists (inject_Z f). rewrite Hf. split; reflexivity.
  - (* [floor(div)] is one below the quotient *)
    assert (HfT : inject_Z f == T - 1).
    { rewrite Hf. unfold Z.sub. rewrite inject_Z_plus. reflexivity. }
    assert (Hfrac : 5 # 8 <= y2 - inject_Z f /\ y2 - inject_Z f <= 1).
    { clearbody T. split; lra. }
    destruct Hfrac as [Hfr0 Hfr1].
    assert (Hfrpos : 0 < y2 - inject_Z f) by lra.
    assert (Hfrbig : y2 - inject_Z f <= 2 ^ 1000).
    { apply Qle_trans with 1; [lra | vm_compute; discriminate]. }
    destruct (round64_near _ Hfrpos Hfrbig) as (y3 & Hr3 & Hy3).
    rewrite Hr3.
    apply Qabs_Qle_condition in Hy3 as [Hy3 _].
    assert (Hfe : (y2 - inject_Z f) * eps <= 1 # 64).
    { set (fr := y2 - inject_Z f) in *. clearbody fr.
      clear - Hfr0 Hfr1 Heps Heps0. nra. }
    assert (Hhalf : above_half (Fin y3) = true).
    { cbn. destruct (Qle_bool y3 (1 # 2)) eqn:Hle; [|reflexivity].
      apply Qle_bool_iff in Hle.
      set (fr := y2 - inject_Z f) in *. set (fe := fr * eps) in *.
      clearbody fr fe. lra. }
    rewrite Hhalf. cbn [add64].
    assert (Hsum : inject_Z f + 1 == inject_Z t).
    { fold T. clearbody T. lra. }
    assert (Ht53 : (0 <= t < 2 ^ 53)%Z).
    { split; [exact Ht0|].
      assert (Hlt : inject_Z t < inject_Z (2 ^ 53)).
      { apply Qle_lt_trans with K; [exact HT50 | unfold K; reflexivity]. }
      rewrite <- Zlt_Qlt in Hlt. exact Hlt. }
    destruct (round64_Z _ _ Hsum Ht53) as (y & Hy & Hyt).
    exists y. split; [exact Hy | exact Hyt].
Qed.

End FloatFacts.

(** ** The training loop *)

Module TrainingFacts.
Import Training.

(** Two states that agree on a component. *)
Definition same {S X} (f : S -> X) : S -> S -> Prop := fun s s' => f s' = f s.

#[export] Instance same_preorder {S X} (f : S -> X) : PreOrder (same f).
Proof.
  split.
  - intros s. reflexivity.
  - intros s1 s2 s3 H12 H23. unfold same in *. congruence.
Qed.

Section Frame.
Context `{U : Utils}.

(** What the primitives leave alone. *)
Lemma print_config l : keeps (same config) (print l).
Proof. intros s. reflexivity. Qed.
Lemma print_params l : keeps (same params) (print l).
Proof. intros s. reflexivity. Qed.
Lemma set_mode_config b : keeps (same config) (set_mode b).
Proof. intros s. reflexivity. Qed.
Lemma set_mode_params b : keeps (same params) (set_mode b).
Proof. intros s. reflexivity. Qed.
Lemma set_params_config p : keeps (same config) (set_params p).
Proof. intros s. reflexivity. Qed.
Lemma to_csv_config path rows : keeps (same config) (to_csv path rows).
Proof. intros s. reflexivity. Qed.
Lemma batches_of_config dl : keeps (same config) (batches_of dl).
Proof. intros s. unfold batches_of. destruct (iterate dl (rng s)). reflexivity. Qed.
Lemma batches_of_params dl : keeps (same params) (batches_of dl).
Proof. intros s. unfold batches_of. destruct (iterate dl (rng s)). reflexivity. Qed.

Lemma call_model_same {X} (f : tstate -> X) x : keeps (same f) (call_model x).
Proof. unfold call_model. repeat step_into. Qed.
Lemma loss_of_same {X} (f : tstate -> X) x y r : keeps (same f) (loss_of x y r).
Proof. unfold loss_of. repeat step_into. Qed.
Lemma cfg_same {X} (f : tstate -> X) key : keeps (same f) (cfg key).
Proof. unfold cfg. repeat step_into. Qed.
Lemma bound_same {X} (f : tstate -> X) name v : keeps (same f) (bound name v).
Proof. unfold bound. repeat step_into. Qed.

Create HintDb frame.
Hint Resolve print_config print_params set_mode_config set_mode_params
  set_params_config to_csv_config batches_of_config batches_of_params
  call_model_same loss_of_same cfg_same bound_same : frame.

Ltac frame := repeat (first [ step_into | solve [ auto with frame ] ]).

Lemma fit_batches_config bs reg o rl l :
  keeps (same config) (fit_batches bs reg o rl l).
Proof.
  revert o rl l. induction bs as [|x bs IH]; intros o rl l; simpl.
  - frame.
  - frame.
Qed.

Lemma fit_config dl reg o RHO l1 : keeps (same config) (fit dl reg o RHO l1).
Proof.
  pose proof fit_batches_config. unfold fit. frame.
Qed.

Lemma validate_batches_same {X} (f : tstate -> X) bs reg rl l :
  keeps (same f) (validate_batches bs reg rl l).
Proof.
  revert rl l. induction bs as [|x bs IH]; intros rl l; simpl; frame.
Qed.

Lemma validate_config dl reg : keeps (same config) (validate dl reg).
Proof.
  pose proof (validate_batches_same config). unfold validate. frame.
Qed.

Lemma validate_params dl reg : keeps (same params) (validate dl reg).
Proof.
  pose proof (validate_batches_same params). unfold validate. frame.
Qed.

Lemma epoch_body_config g tdl vdl reg RHO l1 epochs epoch l :
  keeps (same config) (epoch_body g tdl vdl reg RHO l1 epochs epoch l).
Proof.
  pose proof fit_config. pose proof validate_config.
  unfold epoch_body. frame.
Qed.

Lemma for_epochs_config body todo l :
  (forall epoch l, keeps (same config) (body epoch l)) ->
  keeps (same config) (for_epochs body todo l).
Proof.
  intros Hb. revert l. induction todo as [|e todo IH]; intros l; simpl; frame.
Qed.

Lemma train_config g variables train_data test_data parent_path :
  keeps (same config) (train g variables train_data test_data parent_path).
Proof.
  pose proof epoch_body_config. pose proof for_epochs_config.
  unfold train. frame.
Qed.

End Frame.

(** *** What a batch costs *)

Section Batches.
Context `{U : Utils}.

(** The loss of one batch, as both phases compute it: the model's
    reconstruction of the batch, then [model.loss] with the batch, the
    reconstruction and the regularization weight. *)
Definition batch_loss (mode : bool) (p : Params) (reg_param : pyval)
    (inputs : Tensor) : result pyfloat :=
  match forward mode p inputs with
  | Ok reconstructions => model_loss p inputs reconstructions reg_param
  | Raise e => Raise e
  end.

Definition with_params (p : Params) (s : tstate) : tstate :=
  {| config := config s; params := p; training := training s; rng := rng s;
     stdout := stdout s; written := written s |}.




(** One batch of [validate]. *)
Lemma validate_batches_cons x rest reg rl l s y :
  batch_loss (training s) (params s) reg x = Ok y ->
  validate_batches (x :: rest) reg rl l s
  = validate_batches rest reg (fadd rl y) (Some y) s.
Proof.
  unfold batch_loss. intros Hy. simpl.
  unfold call_model, loss_of, bind, get, lift.
  destruct (forward _ _ x) as [rec|e]; [|discriminate].
  rewrite Hy. reflexivity.
Qed.

(** One batch of [fit]. *)
Lemma fit_batches_cons x rest reg o rl l s rec y :
  forward (training s) (params s) x = Ok rec ->
  model_loss (params s) x rec reg = Ok y ->
  fit_batches (x :: rest) reg o rl l s
  = let os := step o (params s) (backward (params s) x rec reg) in
    fit_batches rest reg os.1 (fadd rl y) (Some y) (with_params os.2 s).
Proof.
  intros Hrec Hy. simpl.
  unfold call_model, loss_of, bind, get, lift, set_params, modify.
  rewrite Hrec, Hy. destruct (step _ _ _) as [o' p']. reflexivity.
Qed.

(** [validate_batches] reads the state and writes nothing; when it
    returns, every batch had a loss and the sum of the losses was added
    to [running_loss]. *)
Lemma validate_batches_inv bs reg rl l s rl' l' s' :
  validate_batches bs reg rl l s = (Ok (rl', l'), s') ->
  s' = s /\
  exists ls,
    Forall2 (fun x y => batch_loss (training s) (params s) reg x = Ok y) bs ls /\
    rl' = fold_left fadd ls rl.
Proof.
  revert rl l. induction bs as [|x bs IH]; intros rl l; simpl.
  - intros [= <- <- <-]. split; [done|]. exists []. split; [constructor | done].
  - intros Hrun.
    apply bind_inv_Ok in Hrun as (rec & s1 & Hrec & Hrun).
    apply bind_inv_Ok in Hrec as (s0 & s2 & Hget & Hrec).
    injection Hget as <- <-. apply lift_inv_Ok in Hrec as [Hrec ->].
    apply bind_inv_Ok in Hrun as (y & s1 & Hy & Hrun).
    apply bind_inv_Ok in Hy as (s0 & s2 & Hget & Hy).
    injection Hget as <- <-. apply lift_inv_Ok in Hy as [Hy ->].
    apply IH in Hrun as (-> & ls & Hls & ->).
    split; [done|]. exists (y :: ls). split; [|done].
    constructor; [|done]. unfold batch_loss. rewrite Hrec. exact Hy.
Qed.



(** [validate] once the lines are printed, the mode is set and the
    batches are drawn. *)
Definition drawn (dl : Loader) (ln : line) (mode : bool) (s : tstate) : tstate :=
  {| config := config s; params := params s; training := mode;
     rng := (iterate dl (rng s)).2; stdout := stdout s ++ [ln];
     written := written s |}.

Lemma validate_run dl reg s :
  validate dl reg s
  = bind (validate_batches (iterate dl (rng s)).1 reg (Fin 0) None)
      (fun r =>
         epoch_loss <- lift (truediv r.1 (loader_len dl)) ;;
         l <- bound "loss" r.2 ;;
         print (FinishedValidating l) ;;;
         ret epoch_loss)
      (drawn dl BeginningValidating false s).
Proof.
  unfold validate, print, set_mode, batches_of, drawn. rewrite !bind_modify.
  unfold bind at 1. simpl. destruct (iterate dl (rng s)) as [bs r]. simpl.
  apply bind_ext. intros [rl l] s'. reflexivity.
Qed.

(** The run of [validate_batches] over batches that all have a loss. *)
Lemma validate_batches_run bs reg rl l s ls :
  Forall2 (fun x y => batch_loss (training s) (params s) reg x = Ok y) bs ls ->
  validate_batches bs reg rl l s
  = (Ok (fold_left fadd ls rl,
         match last ls with Some y => Some y | None => l end), s).
Proof.
  intros Hls. revert rl l.
  induction Hls as [|x y bs ls Hy Hls IH]; intros rl l; [reflexivity|].
  rewrite (validate_batches_cons x bs reg rl l s y Hy), IH.
  rewrite last_cons. simpl. destruct (last ls); reflexivity.
Qed.

(** The run of [validate_batches] up to a batch without a loss. *)
Lemma validate_batches_raise pre x rest reg rl l s ls e :
  Forall2 (fun x y => batch_loss (training s) (params s) reg x = Ok y) pre ls ->
  batch_loss (training s) (params s) reg x = Raise e ->
  validate_batches (pre ++ x :: rest) reg rl l s = (Raise e, s).
Proof.
  intros Hls Hx. revert rl l.
  induction Hls as [|x0 y pre ls Hy Hls IH]; intros rl l.
  - simpl. unfold batch_loss in Hx.
    unfold call_model, loss_of, bind, get, lift.
    destruct (forward _ _ x) as [rec|e0]; [|congruence].
    rewrite Hx. reflexivity.
  - simpl app. rewrite (validate_batches_cons x0 _ reg rl l s y Hy). apply IH.
Qed.

(** C7: [validate] performs no model-parameter update: the parameters
    after a validation pass are the parameters before it, whatever its
    outcome. Its loss is that of [fit]: a batch costs both loops
    [batch_loss], the model's loss function (regularization weight
    included) on the batch and its reconstruction, which [validate] adds
    to its running sum as [fit] does; the pass returns the mean of these
    losses over the batches when every batch has one, and raises what the
    first batch without a loss raises. *)
Theorem validate_updates_no_parameter test_dl reg_param s :
  let run := validate test_dl reg_param s in
  params run.2 = params s /\
  (forall v, run.1 = Ok v ->
     exists ls,
       Forall2 (fun x y => batch_loss false (params s) reg_param x = Ok y)
         (iterate test_dl (rng s)).1 ls /\
       truediv (fold_left fadd ls (Fin 0)) (loader_len test_dl) = Ok v) /\
  (forall x rest o rl l s0 y,
     batch_loss (training s0) (params s0) reg_param x = Ok y ->
     exists o' p',
       fit_batches (x :: rest) reg_param o rl l s0
       = fit_batches rest reg_param o' (fadd rl y) (Some y) (with_params p' s0)) /\
  (forall x rest rl l s0 y,
     batch_loss (training s0) (params s0) reg_param x = Ok y ->
     validate_batches (x :: rest) reg_param rl l s0
     = validate_batches rest reg_param (fadd rl y) (Some y) s0) /\
  (forall ls,
     Forall2 (fun x y => batch_loss false (params s) reg_param x = Ok y)
       (iterate test_dl (rng s)).1 ls ->
     ls <> [] ->
     run.1 = truediv (fold_left fadd ls (Fin 0)) (loader_len test_dl)) /\
  (forall pre x rest ls e,
     (iterate test_dl (rng s)).1 = pre ++ x :: rest ->
     Forall2 (fun x y => batch_loss false (params s) reg_param x = Ok y) pre ls ->
     batch_loss false (params s) reg_param x = Raise e ->
     run.1 = Raise e).
Proof.
  cbv zeta. split; [apply validate_params|]. split; [|split; [|split; [|split]]].
  - intros v Hv.
    destruct (validate test_dl reg_param s) as [r s'] eqn:Hrun.
    simpl in Hv. subst r. unfold validate in Hrun.
    apply bind_inv_Ok in Hrun as ([] & s1 & Hprint & Hrun).
    injection Hprint as <-.
    apply bind_inv_Ok in Hrun as ([] & s2 & Hmode & Hrun).
    injection Hmode as <-.
    apply bind_inv_Ok in Hrun as (bs & s3 & Hbs & Hrun).
    unfold batches_of in Hbs. simpl in Hbs.
    destruct (iterate test_dl (rng s)) as [bs0 r0] eqn:Hit.
    injection Hbs as <- <-.
    apply bind_inv_Ok in Hrun as ([rl' l'] & s4 & Hloop & Hrun).
    apply validate_batches_inv in Hloop as (-> & ls & Hls & ->).
    apply bind_inv_Ok in Hrun as (el & s5 & Hdiv & Hrun).
    apply lift_inv_Ok in Hdiv as [Hdiv ->].
    apply bind_inv_Ok in Hrun as (lv & s6 & _ & Hrun).
    apply bind_inv_Ok in Hrun as ([] & s7 & _ & Hrun).
    injection Hrun as <- _.
    exists ls. split; [exact Hls | exact Hdiv].
  - intros x rest o rl l s0 y Hy. unfold batch_loss in Hy.
    destruct (forward (training s0) (params s0) x) as [rec|e] eqn:Hrec;
      [|discriminate].
    rewrite (fit_batches_cons x rest reg_param o rl l s0 rec y Hrec Hy).
    eexists _, _. reflexivity.
  - intros x rest rl l s0 y. apply validate_batches_cons.
  - intros ls Hls Hne. rewrite validate_run.
    rewrite (bind_Ok _ _ _ _ _
               (validate_batches_run _ reg_param (Fin 0) None
                  (drawn test_dl BeginningValidating false s) ls Hls)).
    cbn [fst snd].
    destruct (last ls) as [y|] eqn:Hlast.
    2:{ apply last_None in Hlast. contradiction. }
    unfold bind, lift.
    destruct (truediv _ (loader_len test_dl)); reflexivity.
  - intros pre x rest ls e Hbs Hls Hx. rewrite validate_run, Hbs.
    rewrite (bind_Raise _ _ _ _ _
               (validate_batches_raise pre x rest reg_param (Fin 0) None
                  (drawn test_dl BeginningValidating false s) ls e Hls Hx)).
    reflexivity.
Qed.



End Batches.

(** *** The epoch loop *)

Section Epochs.
Context `{U : Utils}.

(** The numbers [k] of the lines [Epoch k of n] printed so far. *)
Definition epochs_printed (s : tstate) : list Z :=
  omap (fun ln => match ln with EpochOf k _ => Some k | _ => None end) (stdout s).

(** The stopping policy of the run has signalled stop. *)
Definition flagged (l : locals) : bool :=
  match early_stopping l with
  | Some es => early_stop es
  | None => false
  end.

Lemma print_epochs ln :
  match ln with EpochOf _ _ => False | _ => True end ->
  keeps (same epochs_printed) (print ln).
Proof.
  intros Hln s. unfold same, epochs_printed, print, modify. simpl.
  rewrite omap_app. destruct ln; simpl; try done; apply app_nil_r.
Qed.

Lemma batches_of_epochs dl : keeps (same epochs_printed) (batches_of dl).
Proof. intros s. unfold batches_of. destruct (iterate dl (rng s)). reflexivity. Qed.

Lemma set_mode_epochs b : keeps (same epochs_printed) (set_mode b).
Proof. intros s. reflexivity. Qed.

Lemma set_params_epochs p : keeps (same epochs_printed) (set_params p).
Proof. intros s. reflexivity. Qed.

Ltac quiet :=
  repeat first
    [ step_into
    | apply bound_same | apply cfg_same | apply call_model_same
    | apply loss_of_same | apply batches_of_epochs | apply set_mode_epochs
    | apply set_params_epochs | apply validate_batches_same
    | (apply print_epochs; exact I)
    | assumption ].

Lemma fit_batches_epochs bs reg o rl l :
  keeps (same epochs_printed) (fit_batches bs reg o rl l).
Proof.
  revert o rl l. induction bs as [|x bs IH]; intros o rl l; simpl; quiet.
  apply IH.
Qed.

Lemma fit_epochs dl reg o RHO l1 : keeps (same epochs_printed) (fit dl reg o RHO l1).
Proof. unfold fit. quiet. apply fit_batches_epochs. Qed.

Lemma validate_epochs dl reg : keeps (same epochs_printed) (validate dl reg).
Proof. unfold validate. quiet. Qed.

(** An epoch prints its own line [Epoch k+1 of n], and no other such line,
    however it ends. *)
Lemma epoch_body_prints g tdl vdl reg RHO l1 epochs epoch l s :
  epochs_printed (epoch_body g tdl vdl reg RHO l1 epochs epoch l s).2
  = epochs_printed s ++ [epoch + 1].
Proof.
  unfold epoch_body. unfold bind at 1. simpl.
  match goal with |- epochs_printed (?m ?s1).2 = _ =>
    assert (Hk : keeps (same epochs_printed) m) end.
  { quiet; first [ apply fit_epochs | apply validate_epochs ]. }
  rewrite (Hk _). unfold epochs_printed. simpl. rewrite omap_app. reflexivity.
Qed.

Ltac inv_bind H :=
  let a := fresh "a" in
  let s := fresh "s" in
  let E := fresh "E" in
  apply bind_inv_Ok in H as (a & s & E & H).

Lemma cfg_inv key s v s' :
  cfg key s = (Ok v, s') -> s' = s /\ config s !! key = Some v.
Proof.
  unfold cfg, bind, get, lift, getitem.
  destruct (config s !! key); intros [= <- <-]; done.
Qed.

(** How an epoch that completes ends: with [break] only when the policy
    has signalled stop, and always with [break] once it has. *)
Lemma epoch_body_inv g tdl vdl reg RHO l1 epochs epoch l s c l' s' :
  epoch_body g tdl vdl reg RHO l1 epochs epoch l s = (Ok (c, l'), s') ->
  (c = Break -> flagged l' = true) /\
  (flagged l' = true -> flagged l = false ->
   c = Break /\
   exists v, config s' !! "early_stopping" = Some v /\ eq_True v = true).
Proof.
  unfold epoch_body. intros Hrun.
  inv_bind Hrun. inv_bind Hrun. destruct a0 as [tl o].
  inv_bind Hrun. inv_bind Hrun. inv_bind Hrun. inv_bind Hrun. inv_bind Hrun.
  inv_bind Hrun.
  assert (Hes : early_stopping a4 = early_stopping l).
  { destruct (eq_True a3).
    - destruct (lr_scheduler _); [|discriminate].
      destruct (call_LRScheduler _ _ _). injection E5 as <- _. reflexivity.
    - injection E5 as <- _. reflexivity. }
  apply cfg_inv in E6 as [-> Hcfg].
  unfold flagged. destruct (eq_True a5) eqn:Hon.
  - destruct (early_stopping a4) as [es|]; [|discriminate].
    destruct (early_stop (call_EarlyStopping es a0)) eqn:Hstop;
      injection Hrun as <- <- <-; simpl; rewrite Hstop.
    + split; [done|]. intros _ _. split; [done|]. eauto.
    + split; done.
  - injection Hrun as <- <- <-. rewrite Hes. split; [done|]. congruence.
Qed.

(** The epochs before the one that stops the run: when the loop has gone
    through [pre] and the policy has not signalled stop, each epoch of
    [pre] printed its line and the loop goes on. *)
Lemma for_epochs_running body pre rest l0 s0 l s :
  (forall epoch l s l' s', body epoch l s = (Ok (Break, l'), s') -> flagged l' = true) ->
  for_epochs body pre l0 s0 = (Ok l, s) ->
  flagged l = false ->
  for_epochs body (pre ++ rest) l0 s0 = for_epochs body rest l s.
Proof.
  intros Hbreak. revert l0 s0.
  induction pre as [|e pre IH]; intros l0 s0 Hrun Hl; simpl in *.
  - injection Hrun as <- <-. reflexivity.
  - unfold bind in *. destruct (body e l0 s0) as [[[[] l1]|err] s1] eqn:Hbody;
      [| |discriminate].
    + apply IH; assumption.
    + injection Hrun as <- <-. apply Hbreak in Hbody. congruence.
Qed.

Lemma for_epochs_printed g tdl vdl reg RHO l1 epochs pre l0 s0 l s :
  for_epochs (epoch_body g tdl vdl reg RHO l1 epochs) pre l0 s0 = (Ok l, s) ->
  flagged l = false ->
  epochs_printed s = epochs_printed s0 ++ ((fun e => e + 1) <$> pre).
Proof.
  revert l0 s0. induction pre as [|e pre IH]; intros l0 s0 Hrun Hl; simpl in *.
  - injection Hrun as <- <-. rewrite app_nil_r. reflexivity.
  - pose proof (epoch_body_prints g tdl vdl reg RHO l1 epochs e l0 s0) as Hp.
    unfold bind in Hrun.
    destruct (epoch_body _ _ _ _ _ _ _ e l0 s0) as [[[[] l2]|err] s2] eqn:Hbody;
      [| |discriminate]; simpl in Hp.
    + rewrite (IH _ _ Hrun Hl), Hp, <- app_assoc. reflexivity.
    + injection Hrun as <- <-.
      apply epoch_body_inv in Hbody as [Hb _]. rewrite Hb in Hl; done.
Qed.

(** Lines 137 to 140, in a namespace [g] where an epoch gets to them:
    when the stopping policy, not stopped until then, signals stop after
    the validation loss of epoch [k] (with [k] below the configured epoch
    count [n]), early stopping is enabled in the config, the loop over
    [range(n)] ends with that epoch, in the state and with the locals
    epoch [k] left, and the epochs whose line was printed are [1] to
    [k + 1]: none after [k] was started. *)
Lemma early_stop_ends_the_run g tdl vdl reg RHO l1 epochs
    (k n : nat) l0 s0 l s c l' s' :
  let body := epoch_body g tdl vdl reg RHO l1 epochs in
  (k < n)%nat ->
  for_epochs body (Z.of_nat <$> seq 0 k) l0 s0 = (Ok l, s) ->
  flagged l = false ->
  body (Z.of_nat k) l s = (Ok (c, l'), s') ->
  flagged l' = true ->
  (exists v, config s' !! "early_stopping" = Some v /\ eq_True v = true) /\
  for_epochs body (Z.of_nat <$> seq 0 n) l0 s0 = (Ok l', s') /\
  flagged l' = true /\
  epochs_printed s'
  = epochs_printed s0 ++ ((fun j => Z.of_nat j + 1) <$> seq 0 (S k)).
Proof.
  intros body Hk Hpre Hl Hbody Hl'.
  destruct (epoch_body_inv _ _ _ _ _ _ _ _ _ _ _ _ _ Hbody) as [_ Hstop].
  destruct (Hstop Hl' Hl) as [-> Hon].
  split; [exact Hon|]. split; [|split; [exact Hl'|]].
  - replace n with (k + S (n - S k))%nat by lia.
    rewrite seq_app, fmap_app. simpl.
    rewrite (for_epochs_running body _ _ l0 s0 l s); [| |exact Hpre|exact Hl].
    + simpl. unfold bind. fold body. rewrite Hbody. reflexivity.
    + intros e la sa lb sb Hb.
      apply epoch_body_inv in Hb as [Hb _]. apply Hb. reflexivity.
  - pose proof (epoch_body_prints g tdl vdl reg RHO l1 epochs (Z.of_nat k) l s) as Hp.
    fold body in Hp. rewrite Hbody in Hp. simpl in Hp.
    rewrite Hp, (for_epochs_printed _ _ _ _ _ _ _ _ _ _ _ _ Hpre Hl).
    rewrite seq_S, fmap_app, <- app_assoc, <- list_fmap_compose. reflexivity.
Qed.

(** The names the epoch loop and the [return] of [train] look up are not
    names of the module. *)
Lemma module_globals_lacks :
  load_global module_globals "mse_loss_fit1" = Raise (NameError "mse_loss_fit1") /\
  load_global module_globals "regularizer_loss_fit1"
  = Raise (NameError "regularizer_loss_fit1") /\
  load_global module_globals "model_from_fit" = Raise (NameError "model_from_fit").
Proof. repeat split; vm_compute; reflexivity. Qed.

(** An epoch in the namespace of [training.py]: the line, [fit],
    [validate], and [NameError] at line 133. *)
Lemma epoch_body_run tdl vdl reg RHO l1 epochs epoch l s :
  epoch_body module_globals tdl vdl reg RHO l1 epochs epoch l s
  = match fit tdl reg (optimizer l) RHO l1
            (print (EpochOf (epoch + 1) epochs) s).2 with
    | (Ok _, s1) =>
        match validate vdl reg s1 with
        | (Ok _, s2) => (Raise (NameError "mse_loss_fit1"), s2)
        | (Raise e, s2) => (Raise e, s2)
        end
    | (Raise e, s1) => (Raise e, s1)
    end.
Proof.
  destruct module_globals_lacks as (Hmse & _ & _).
  unfold epoch_body. unfold print at 1. rewrite bind_modify.
  change (print (EpochOf (epoch + 1) epochs) s).2
    with {| config := config s; params := params s; training := training s;
            rng := rng s; stdout := stdout s ++ [EpochOf (epoch + 1) epochs];
            written := written s |}.
  unfold bind at 1.
  destruct (fit tdl reg (optimizer l) RHO l1 _) as [[[tl o]|e] s1];
    [|reflexivity].
  unfold bind at 1. destruct (validate vdl reg s1) as [[vl|e] s2]; [|reflexivity].
  unfold bind at 1, lift. rewrite Hmse. reflexivity.
Qed.

Lemma epoch_body_fails tdl vdl reg RHO l1 epochs epoch l :
  fails (epoch_body module_globals tdl vdl reg RHO l1 epochs epoch l).
Proof.
  intros s. rewrite epoch_body_run.
  destruct (fit _ _ _ _ _ _) as [[[tl o]|e] s1]; [|reflexivity].
  destruct (validate _ _ _) as [[vl|e] s2]; reflexivity.
Qed.

Lemma train_fails variables train_data test_data parent_path :
  fails (train module_globals variables train_data test_data parent_path).
Proof.
  destruct module_globals_lacks as (_ & _ & Hlast).
  unfold train.
  repeat first
    [ solve [ apply fails_bind_l, fails_lift; rewrite Hlast; reflexivity ]
    | apply fails_bind_r; intros ? ].
Qed.

(** C5 (where the code departs from it): in the namespace of
    [training.py], [train] returns for no input; an epoch whose [fit] and
    [validate] return ends, after the two losses were appended, with
    [NameError] for [mse_loss_fit1], before the loss log is written. *)
Theorem train_never_returns variables train_data test_data parent_path s :
  is_ok (train module_globals variables train_data test_data parent_path s).1
  = false /\
  (forall tdl vdl reg RHO l1 epochs epoch l tl o s1 vl s2,
     fit tdl reg (optimizer l) RHO l1 (print (EpochOf (epoch + 1) epochs) s).2
     = (Ok (tl, o), s1) ->
     validate vdl reg s1 = (Ok vl, s2) ->
     epoch_body module_globals tdl vdl reg RHO l1 epochs epoch l s
     = (Raise (NameError "mse_loss_fit1"), s2)).
Proof.
  split; [apply train_fails|].
  intros tdl vdl reg RHO l1 epochs epoch l tl o s1 vl s2 Hfit Hval.
  destruct module_globals_lacks as (Hmse & _ & _).
  unfold epoch_body. unfold bind at 1. simpl in *.
  unfold bind at 1. rewrite Hfit.
  unfold bind at 1. rewrite Hval.
  unfold bind at 1. unfold lift. rewrite Hmse. reflexivity.
Qed.


End Epochs.
End TrainingFacts.

(** ** The pipeline *)

Module HelperFacts.
Import Helper TrainingFacts.

Section Pipeline.
Context `{DP : DataProcessing}.

(** The config apart from the attribute the pipeline attaches. *)
Definition caller_fields (s : hstate) : gmap string pyval :=
  delete "cleared_col_names" (config s).

Lemma setattr_fields v : keeps (same caller_fields) (setattr "cleared_col_names" v).
Proof.
  intros s. unfold same, caller_fields, setattr, modify. simpl.
  apply delete_insert_eq.
Qed.

Lemma log_same {X} (f : gmap string pyval -> X) c :
  keeps (same (fun s => f (config s))) (log c).
Proof. intros s. reflexivity. Qed.

Lemma attr_same {X} (f : hstate -> X) name : keeps (same f) (attr name).
Proof. unfold attr. repeat step_into. Qed.

Lemma data_loader_same {X} (f : hstate -> X) path : keeps (same f) (data_loader path).
Proof. unfold data_loader. repeat step_into. Qed.

Lemma normalize_same {X} (f : hstate -> X) data : keeps (same f) (normalize data).
Proof. unfold normalize. repeat step_into. Qed.

Ltac frame :=
  repeat first
    [ step_into
    | apply setattr_fields | apply attr_same | apply data_loader_same
    | apply normalize_same
    | apply (log_same (delete "cleared_col_names"))
    | apply (log_same id) ].

Lemma process_fields data_path : keeps (same caller_fields) (process data_path).
Proof. unfold process. frame. Qed.

Lemma compress_fields model_path input_path :
  keeps (same caller_fields) (compress model_path input_path).
Proof. unfold compress. frame. Qed.

Lemma decompress_config model_path input_path :
  keeps (same config) (decompress model_path input_path).
Proof. unfold decompress. frame. Qed.

(** What [process] and [compress] leave in the config once the data is
    loaded and its columns are known: the column list, attached as
    [cleared_col_names]. *)
Lemma process_attaches data_path st df cols :
  load_data data_path (config st) = Ok df ->
  get_columns df = Ok cols ->
  config (process data_path st).2
  = <["cleared_col_names" := VStrs cols]> (config st).
Proof.
  intros Hload Hcols. unfold process, setattr.
  rewrite bind_get, (bind_lift_Ok _ _ _ _ Hload), (bind_lift_Ok _ _ _ _ Hcols).
  rewrite bind_modify.
  destruct (find_minmax df) as [nf|e] eqn:Hnf.
  2:{ rewrite (bind_lift_Raise _ e) by reflexivity. reflexivity. }
  rewrite (bind_lift_Ok _ nf) by reflexivity.
  rewrite (bind_lift_Ok _ _ _ _ Hcols), bind_modify.
  rewrite (bind_lift_Ok _ _ _ _ Hcols).
  match goal with |- config (?m ?s1).2 = _ =>
    assert (Hk : keeps (same config) m) by frame;
    rewrite (Hk s1) end.
  simpl. apply insert_insert_eq.
Qed.

Lemma data_loader_run path st :
  data_loader path st = (load_data path (config st), st).
Proof. reflexivity. Qed.

Lemma compress_attaches model_path input_path st data cols :
  load_data input_path (config st) = Ok data ->
  get_columns data = Ok cols ->
  config (compress model_path input_path st).2
  = <["cleared_col_names" := VStrs cols]> (config st).
Proof.
  intros Hload Hcols. unfold compress, setattr.
  rewrite (bind_Ok _ _ st data st) by (rewrite data_loader_run, Hload; reflexivity).
  rewrite (bind_lift_Ok _ _ _ _ Hcols), bind_modify.
  match goal with |- config (?m ?s1).2 = _ =>
    assert (Hk : keeps (same config) m) by frame;
    rewrite (Hk s1) end.
  reflexivity.
Qed.

(** C8 (as the code has it): [process] and [compress] assign one attribute
    of the caller's config object, [cleared_col_names], the column list of
    the data they loaded, and leave every other attribute as it was;
    [decompress] and [train] assign none. *)
Theorem pipeline_attaches_columns_to_config `{U : Training.Utils}
    data_path model_path input_path (st : hstate)
    g variables train_data test_data parent_path (ts : Training.tstate) :
  (forall key, key <> "cleared_col_names" ->
     config (process data_path st).2 !! key = config st !! key /\
     config (compress model_path input_path st).2 !! key = config st !! key) /\
  (forall df cols,
     load_data data_path (config st) = Ok df -> get_columns df = Ok cols ->
     config (process data_path st).2 !! "cleared_col_names" = Some (VStrs cols)) /\
  (forall data cols,
     load_data input_path (config st) = Ok data -> get_columns data = Ok cols ->
     config (compress model_path input_path st).2 !! "cleared_col_names"
     = Some (VStrs cols)) /\
  config (decompress model_path input_path st).2 = config st /\
  Training.config
    (Training.train g variables train_data test_data parent_path ts).2
  = Training.config ts.
Proof.
  split; [|split; [|split; [|split]]].
  - intros key Hkey.
    pose proof (process_fields data_path st) as Hp.
    pose proof (compress_fields model_path input_path st) as Hc.
    unfold same, caller_fields in Hp, Hc.
    rewrite <- (lookup_delete_ne (config (process data_path st).2)
                  "cleared_col_names" key) by congruence.
    rewrite <- (lookup_delete_ne (config (compress model_path input_path st).2)
                  "cleared_col_names" key) by congruence.
    rewrite Hp, Hc, lookup_delete_ne by congruence. done.
  - intros df cols Hload Hcols.
    rewrite (process_attaches _ _ _ _ Hload Hcols). apply lookup_insert_eq.
  - intros data cols Hload Hcols.
    rewrite (compress_attaches _ _ _ _ _ Hload Hcols). apply lookup_insert_eq.
  - apply decompress_config.
  - apply train_config.
Qed.

(** *** The runs of [compress] and [decompress], step by step *)

Definition logged (cs : list call) (s : hstate) : hstate :=
  {| config := config s; calls := calls s ++ cs |}.

Definition attached (cols : list string) (s : hstate) : hstate :=
  {| config := <["cleared_col_names" := VStrs cols]> (config s); calls := calls s |}.

Lemma attr_run name st : attr name st = (getattr (config st) name, st).
Proof. reflexivity. Qed.

Lemma normalize_run data st :
  normalize data st
  = (match apply_along_axis0 (fun c => dp_normalize c (config st)) (to_numpy data) with
     | Ok arr => numpy_to_df arr (config st)
     | Raise e => Raise e
     end, st).
Proof.
  unfold normalize. rewrite bind_get. unfold bind, lift.
  destruct (apply_along_axis0 _ _); reflexivity.
Qed.


(** The last key of a saved model's dictionary, and the tensor under it. *)
Lemma last_entry (d : state_dict) k t :
  NoDup (d ++ [(k, t)]).*1 ->
  last_key (d ++ [(k, t)]) = Ok k /\ od_getitem (d ++ [(k, t)]) k = Ok t.
Proof.
  intros Hnodup. split.
  - unfold last_key. rewrite fmap_app. simpl. rewrite last_snoc. reflexivity.
  - induction d as [|[k' t'] d IH]; simpl in *.
    + rewrite String.eqb_refl. reflexivity.
    + apply NoDup_cons in Hnodup as [Hk' Hnodup].
      destruct (String.eqb k' k) eqn:Heq; [|apply IH, Hnodup].
      apply String.eqb_eq in Heq. subst k'. exfalso. apply Hk'.
      rewrite fmap_app. simpl. apply elem_of_app. right. apply list_elem_of_here.
Qed.

(** [decompress] once the latent matrix and the saved dictionary are
    loaded. *)
Lemma decompress_run model_path input_path st row rows d k t n sh :
  load_data input_path (config st) = Ok (NDArray (row :: rows)) ->
  torch_load model_path = Ok (d ++ [(k, t)]) ->
  NoDup (d ++ [(k, t)]).*1 ->
  shape t = n :: sh ->
  let z := Z.of_nat (length row) in
  let nf := Z.of_nat n in
  decompress model_path input_path st =
  match initialise_model (config st) with
  | Raise e => (Raise e, st)
  | Ok ModelObject =>
    match load_model ModelObject model_path nf z with
    | Raise e => (Raise e, logged [Call_load_model model_path nf z] st)
    | Ok model =>
      let s2 := logged [Call_load_model model_path nf z;
                        Call_decode (row :: rows)] st in
      match decode model (row :: rows) with
      | Raise e => (Raise e, s2)
      | Ok decompressed => (Ok decompressed, s2)
      end
    end
  end.
Proof.
  intros Hload Hdict Hnodup Hshape z nf. unfold decompress, log.
  destruct (last_entry d k t Hnodup) as [Hkey Hitem].
  rewrite (bind_Ok _ _ st (NDArray (row :: rows)) st)
    by (rewrite data_loader_run, Hload; reflexivity).
  rewrite (bind_lift_Ok _ row) by reflexivity.
  rewrite (bind_lift_Ok _ _ _ _ Hdict), (bind_lift_Ok _ _ _ _ Hkey).
  rewrite (bind_lift_Ok _ _ _ _ Hitem).
  rewrite (bind_lift_Ok _ nf) by (unfold len_weight; rewrite Hshape; reflexivity).
  rewrite bind_get. fold z.
  destruct (initialise_model (config st)) as [MO|e].
  2:{ rewrite (bind_lift_Raise _ e) by reflexivity. reflexivity. }
  rewrite (bind_lift_Ok _ MO) by reflexivity. rewrite bind_modify.
  destruct (load_model MO model_path nf z) as [model|e].
  2:{ rewrite (bind_lift_Raise _ e) by reflexivity. reflexivity. }
  rewrite (bind_lift_Ok _ model) by reflexivity. rewrite bind_modify.
  unfold numpy_to_tensor, logged. simpl. rewrite <- app_assoc. simpl.
  destruct (decode model (row :: rows)) as [out|e].
  2:{ rewrite (bind_lift_Raise _ e) by reflexivity. reflexivity. }
  rewrite (bind_lift_Ok _ out) by reflexivity. reflexivity.
Qed.

(** C10: [decompress] asks for a model whose latent width is the length
    of the first row of the data it loaded and whose feature count is the
    length of the last entry of the dictionary loaded from the model
    file. The config reaches the run through the data loader and the
    choice of the model class only: a config that gives the same two, with
    whatever [compression_ratio], gives the same run. *)
Theorem decompress_sizes_from_its_inputs model_path input_path st
    row rows d k t n sh :
  load_data input_path (config st) = Ok (NDArray (row :: rows)) ->
  torch_load model_path = Ok (d ++ [(k, t)]) ->
  NoDup (d ++ [(k, t)]).*1 ->
  shape t = n :: sh ->
  let z := Z.of_nat (length row) in
  let nf := Z.of_nat n in
  (forall ModelObject,
     initialise_model (config st) = Ok ModelObject ->
     (decompress model_path input_path st).1
     = match load_model ModelObject model_path nf z with
       | Ok model => decode model (row :: rows)
       | Raise e => Raise e
       end /\
     exists tail,
       calls (decompress model_path input_path st).2
       = calls st ++ Call_load_model model_path nf z :: tail) /\
  (forall st2,
     load_data input_path (config st2) = load_data input_path (config st) ->
     initialise_model (config st2) = initialise_model (config st) ->
     (decompress model_path input_path st2).1
     = (decompress model_path input_path st).1).
Proof.
  intros Hload Hdict Hnodup Hshape z nf. split.
  - intros MO HMO.
    rewrite (decompress_run _ _ _ _ _ _ _ _ _ _ Hload Hdict Hnodup Hshape).
    rewrite HMO. fold z nf.
    destruct (load_model MO model_path nf z) as [model|e]; simpl.
    + destruct (decode model (row :: rows)); simpl; eauto.
    + eauto.
  - intros st2 Hload2 HMO2. rewrite Hload in Hload2.
    rewrite (decompress_run _ _ _ _ _ _ _ _ _ _ Hload Hdict Hnodup Hshape).
    rewrite (decompress_run _ _ _ _ _ _ _ _ _ _ Hload2 Hdict Hnodup Hshape).
    rewrite HMO2. fold z nf.
    destruct (initialise_model (config st)) as [MO|e]; [|reflexivity].
    destruct (load_model MO model_path nf z) as [model|e]; [|reflexivity].
    destruct (decode model (row :: rows)); reflexivity.
Qed.

(** C9 (as the code has it): [decompress] compares no width and raises no
    [ShapeError] of its own; whatever the width of the latent matrix, a
    [ShapeError] can only be one of a function it calls. What it does with
    a latent matrix and a saved dictionary: it asks [load_model] for a
    model whose latent width is the length of the first row of the matrix
    and whose feature count is the length of the last entry of the
    dictionary, and returns [model.decode] of the matrix. *)
Theorem decompress_checks_no_shape model_path input_path :
  (forall path config, load_data path config <> Raise ShapeError) ->
  (forall path, torch_load path <> Raise ShapeError) ->
  (forall config, initialise_model config <> Raise ShapeError) ->
  (forall ModelObject path nf z,
     load_model ModelObject path nf z <> Raise ShapeError) ->
  (forall model data, decode model data <> Raise ShapeError) ->
  never ShapeError (decompress model_path input_path) /\
  (forall st row rows d k t n sh,
     load_data input_path (config st) = Ok (NDArray (row :: rows)) ->
     torch_load model_path = Ok (d ++ [(k, t)]) ->
     NoDup (d ++ [(k, t)]).*1 ->
     shape t = n :: sh ->
     let z := Z.of_nat (length row) in
     let nf := Z.of_nat n in
     decompress model_path input_path st =
     match initialise_model (config st) with
     | Raise e => (Raise e, st)
     | Ok ModelObject =>
       match load_model ModelObject model_path nf z with
       | Raise e => (Raise e, logged [Call_load_model model_path nf z] st)
       | Ok model =>
         let s2 := logged [Call_load_model model_path nf z;
                           Call_decode (row :: rows)] st in
         match decode model (row :: rows) with
         | Raise e => (Raise e, s2)
         | Ok decompressed => (Ok decompressed, s2)
         end
       end
     end).
Proof.
  intros Hload Hdict Hinit Hmodel Hdecode.
  split; [|intros st row rows d k t n sh; apply decompress_run].
  unfold decompress, data_loader, log.
  repeat first [ step_into | apply never_lift ]; try done.
  - unfold first_row. destruct a as [|[|]]; discriminate.
  - unfold last_key. destruct (last _); discriminate.
  - induction a1 as [|[k' t'] d IH]; simpl; [discriminate|].
    destruct (String.eqb k' a2); [discriminate | exact IH].
  - unfold len_weight. destruct (shape a3); discriminate.
Qed.

(** *** Where the normalization comes from *)



(** *** Sizing the model *)

Lemma Qtrunc_inject_Z z : Qtrunc (inject_Z z) = z.
Proof. unfold Qtrunc. simpl. apply Z.quot_1_r. Qed.

(** The width for an [int] ratio: the quotient of the two integers. *)
Lemma latent_space_size_int n ratio z :
  as_int ratio = Some z -> z <> 0 ->
  latent_space_size n ratio = Ok (Qfloor (inject_Z n / inject_Z z)).
Proof.
  intros Hratio Hz. unfold latent_space_size, floordiv.
  cbn [as_int]. rewrite Hratio.
  rewrite (proj2 (Z.eqb_neq z 0) Hz). cbn [int].
  rewrite Zdiv_Qdiv. reflexivity.
Qed.

(** The width for a float ratio: the quotient of the doubles, which is
    the floor of the exact quotient as long as that stays below [2^50]. *)
Lemma latent_space_size_float n q r :
  round64 q = Fin r -> (0 < r)%Q ->
  0 <= n < 2 ^ 53 -> (inject_Z n / r < 2 ^ 50)%Q ->
  latent_space_size n (VFloat q) = Ok (Qfloor (inject_Z n / r)).
Proof.
  intros Hq Hr Hn Hquot. unfold latent_space_size, floordiv.
  cbn [as_int as_double]. rewrite Hq.
  destruct (FloatFacts.round64_Z (inject_Z n) n (Qeq_refl _) Hn) as (a & Ha & Han).
  rewrite Ha.
  assert (Hnz : is_nonzero (Fin r) = true).
  { cbn. destruct (Qeq_bool r 0) eqn:Hz; [|reflexivity].
    apply Qeq_bool_eq in Hz. rewrite Hz in Hr. inversion Hr. }
  rewrite Hnz.
  destruct (FloatFacts.float_floor_div_floor n a r Hn Han Hr Hquot)
    as (y & Hy & Hyt).
  rewrite Hy. cbn [of_double int].
  rewrite (FloatFacts.Qtrunc_Z _ _ Hyt). reflexivity.
Qed.

Lemma latent_space_size_floor n ratio r :
  number_of ratio = Some r -> (0 < r)%Q ->
  (as_int ratio = None -> 0 <= n < 2 ^ 53 /\ (inject_Z n / r < 2 ^ 50)%Q) ->
  latent_space_size n ratio = Ok (Qfloor (inject_Z n / r)).
Proof.
  intros Hratio Hr Hfloat.
  destruct (as_int ratio) as [z|] eqn:Hint.
  - assert (Hrz : r = inject_Z z).
    { destruct ratio; try discriminate; simpl in *; congruence. }
    subst r. apply latent_space_size_int; [exact Hint|].
    intros ->. inversion Hr.
  - destruct (Hfloat eq_refl) as [Hn Hquot].
    destruct ratio; try discriminate. cbn [number_of] in Hratio.
    destruct (round64 q) as [r'| | |] eqn:Hq; try discriminate.
    injection Hratio as ->.
    apply latent_space_size_float; assumption.
Qed.

(** C2 (as the code has it): for a positive number of features and a
    positive compression ratio, the latent width [compress] computes,
    [int(number_of_columns // compression_ratio)], is
    [floor(n_features / compression_ratio)], the value the specification's
    [latent_width] gives for the same two numbers at derive-time: for
    every [int] ratio, and for a float ratio (taken as the double it is)
    as long as the number of features is below [2^53] and the quotient
    below [2^50]; being a function of the two numbers, it is the same
    every time. *)
Theorem latent_space_size_is_floor (n_features : Z) (ratio : pyval) (r : Q) :
  0 < n_features ->
  number_of ratio = Some r ->
  (0 < r)%Q ->
  (as_int ratio = None ->
   n_features < 2 ^ 53 /\ (inject_Z n_features / r < 2 ^ 50)%Q) ->
  latent_space_size n_features ratio = Ok (Spec.latent_width n_features r).
Proof.
  intros Hn Hratio Hr Hfloat. unfold Spec.latent_width.
  apply latent_space_size_floor; [exact Hratio | exact Hr |].
  intros Hnone. destruct (Hfloat Hnone) as [Hn53 Hquot].
  split; [lia | exact Hquot].
Qed.

End Pipeline.
End HelperFacts.

(** ** The Normalizer *)

Module NormalizerFacts.
Import Helper Spec.

(** *** Columns of an array *)


Lemma map_result_inv {A B} (f : A -> result B) (l : list A) (k : list B) :
  map_result f l = Ok k -> Forall2 (fun x y => f x = Ok y) l k.
Proof.
  revert k. induction l as [|x l IH]; simpl; intros k.
  - intros [= <-]. constructor.
  - destruct (f x) as [y|] eqn:Hy; [|discriminate].
    destruct (map_result f l) as [ys|]; [|discriminate].
    intros [= <-]. constructor; [exact Hy | apply IH; reflexivity].
Qed.







(** *** One value, one column *)













(** *** A dataset *)

Section RoundTrip.
Variable fs : files.











End RoundTrip.

End NormalizerFacts.

(** ** The model store *)

Module StoreFacts.
Import Helper Spec.

Section Store.
Variable fs : files.

(** None of the collaborators, as the specification describes them,
    raises [ShapeError]. *)
Lemma load_data_no_shape path config :
  load_data (DataProcessing := data_processing fs) path config <> Raise ShapeError.
Proof. simpl. destruct (datasets fs !! path); discriminate. Qed.

Lemma torch_load_no_shape path :
  torch_load (Codec := codec fs) path <> Raise ShapeError.
Proof. simpl. destruct (models fs !! path); discriminate. Qed.

Lemma initialise_model_no_shape config :
  initialise_model (DataProcessing := data_processing fs) config
  <> Raise ShapeError.
Proof.
  simpl. unfold getattr.
  destruct (config !! "model_name") as [[]|]; discriminate.
Qed.

Lemma load_model_no_shape ModelObject path nf z :
  load_model (DataProcessing := data_processing fs) ModelObject path nf z
  <> Raise ShapeError.
Proof.
  simpl. unfold spec_load_model.
  destruct (models fs !! path); [|discriminate].
  destruct (_ && _); discriminate.
Qed.

Lemma decode_no_shape model data :
  decode (Codec := codec fs) model data <> Raise ShapeError.
Proof. discriminate. Qed.

End Store.
End StoreFacts.

(** ** The properties on the small project *)

Module Examples.
Import Helper Spec Project.
Import TrainingFacts HelperFacts NormalizerFacts.

(** *** Normalization parameters (C1) *)



(** *** The latent width (C2) *)

Lemma latent_space_size_of_ten_columns :
  0 < 10 /\ number_of (VFloat 2) = Some 2%Q /\ (0 < 2)%Q /\
  (10 < 2 ^ 53 /\ (inject_Z 10 / 2 < 2 ^ 50)%Q) /\
  latent_space_size 10 (VFloat 2) = Ok 5.
Proof.
  assert (H1 : 0 < 10) by lia.
  assert (H3 : (0 < 2)%Q) by reflexivity.
  assert (H4 : 10 < 2 ^ 53 /\ (inject_Z 10 / 2 < 2 ^ 50)%Q)
    by (split; reflexivity).
  split; [exact H1|]. split; [reflexivity|]. split; [exact H3|].
  split; [exact H4|].
  exact (latent_space_size_is_floor 10 (VFloat 2) 2%Q H1 eq_refl H3
           (fun _ => H4)).
Defined.

(** C2 does not hold as stated, for every ratio above zero. The least
    positive double, [5e-324]: the quotient of the doubles is infinite and
    [int] raises [OverflowError]. The double nearest to [1e-17]: the
    quotient of the doubles is [999999999999999872], the floor of the
    exact quotient is [999999999999999928]. *)
Lemma latent_space_size_is_not_the_floor :
  number_of (VFloat (1 # 2 ^ 1074)) = Some (1 # 2 ^ 1074)%Q /\
  (0 < 1 # 2 ^ 1074)%Q /\
  latent_space_size 10 (VFloat (1 # 2 ^ 1074)) = Raise OverflowError /\
  exists r17,
    number_of (VFloat (1 # 10 ^ 17)) = Some r17 /\ (0 < r17)%Q /\
    latent_space_size 10 (VFloat (1 # 10 ^ 17)) = Ok 999999999999999872 /\
    Spec.latent_width 10 r17 = 999999999999999928.
Proof.
  split; [vm_compute; reflexivity|]. split; [reflexivity|].
  split; [vm_compute; reflexivity|].
  exists (6490371073168535 # 649037107316853453566312041152512)%Q.
  repeat apply conj; vm_compute; reflexivity.
Qed.

(** The ratio [0.1] is the double [3602879701896397 / 2^55], a little
    above a tenth: for ten columns [int(10 // 0.1)] is [99], the floor of
    the quotient by that double. *)
Example latent_space_size_for_a_tenth :
  round64 (1 # 10) = Fin (3602879701896397 # 36028797018963968) /\
  latent_space_size 10 (VFloat (1 # 10)) = Ok 99 /\
  Spec.latent_width 10 (3602879701896397 # 36028797018963968) = 99.
Proof. repeat apply conj; vm_compute; reflexivity. Qed.

(** *** Non-finite losses (C3) *)



(** *** The validation pass (C7) *)

(** A validation pass over the two batches of the project's training
    data: the parameter is as it was, the value returned is the mean of
    the two losses, regularization term included; with a weight that is no
    number the pass ends with the [TypeError] of the first batch. *)
Lemma validate_on_the_project :
  Forall2 (fun x y => batch_loss (H := Linear.torch) false 1%Q
                        (VFloat (1 # 1000)) x = Ok y)
    train_dl [Fin (1 # 1000); Fin (1 # 1000)] /\
  batch_loss (H := Linear.torch) false 1%Q (VStr "x") [[0; 1]; [1; 0]]%Q
  = Raise TypeError /\
  Training.params
    (Training.validate (H := Linear.torch) train_dl (VFloat (1 # 1000))
       train_start).2 = 1%Q /\
  (Training.validate (H := Linear.torch) train_dl (VFloat (1 # 1000))
     train_start).1
  = truediv (fold_left fadd [Fin (1 # 1000); Fin (1 # 1000)] (Fin 0)) 2 /\
  (Training.validate (H := Linear.torch) train_dl (VStr "x") train_start).1
  = Raise TypeError.
Proof.
  assert (H1 : Forall2 (fun x y => batch_loss (H := Linear.torch) false 1%Q
                                     (VFloat (1 # 1000)) x = Ok y)
                 train_dl [Fin (1 # 1000); Fin (1 # 1000)]).
  { constructor; [vm_compute; reflexivity|].
    constructor; [vm_compute; reflexivity|]. constructor. }
  assert (H2 : batch_loss (H := Linear.torch) false 1%Q (VStr "x")
                 [[0; 1]; [1; 0]]%Q = Raise TypeError) by reflexivity.
  destruct (@validate_updates_no_parameter Linear.torch train_dl
              (VFloat (1 # 1000)) train_start)
    as (Hparams & _ & _ & _ & Hmean & _).
  destruct (@validate_updates_no_parameter Linear.torch train_dl
              (VStr "x") train_start)
    as (_ & _ & _ & _ & _ & Hraise).
  split; [exact H1|]. split; [exact H2|]. split; [exact Hparams|].
  split.
  - apply (Hmean [Fin (1 # 1000); Fin (1 # 1000)] H1). discriminate.
  - exact (Hraise [] [[0; 1]; [1; 0]]%Q [[[1 # 2; 1 # 2]]]%Q [] TypeError
             eq_refl (List.Forall2_nil _) H2).
Defined.

(** *** The round trip (C4) *)


(** *** The training loop (C5, C6) *)

(** [train] as it stands, on the project: the first epoch ends with
    [NameError], one line [Epoch 1 of 5] was printed and no loss log was
    written. *)
Example train_raises_NameError :
  let run := @Training.train Linear.torch Linear.utils Training.module_globals
               2 train_data test_data "project/" train_start in
  run.1 = Raise (NameError "mse_loss_fit1") /\
  epochs_printed run.2 = [1] /\
  Training.written run.2 = [].
Proof. repeat apply conj; vm_compute; reflexivity. Qed.

(** With the three names bound, the run on the project: the policy
    signals stop after the second epoch of five, the loop ends there and
    the loss log has two rows. *)
Example train_with_the_names_bound :
  let run := @Training.train Linear.torch Linear.utils patched_globals
               2 train_data test_data "project/" train_start in
  is_ok run.1 = true /\
  epochs_printed run.2 = [1; 2] /\
  (length <$> (snd <$> Training.written run.2)) = [2%nat].
Proof. repeat apply conj; vm_compute; reflexivity. Qed.


Lemma early_stop_ends_the_run_on_the_project :
  exists l s l' s',
    (1 < 5)%nat /\
    Training.for_epochs (epoch patched_globals) (Z.of_nat <$> seq 0 1) locals0
      train_start = (Ok l, s) /\
    flagged l = false /\
    epoch patched_globals (Z.of_nat 1) l s = (Ok (Training.Break, l'), s') /\
    flagged l' = true /\
    Training.for_epochs (epoch patched_globals) (Z.of_nat <$> seq 0 5) locals0
      train_start = (Ok l', s') /\
    epochs_printed s' = [1; 2].
Proof.
  assert (H1 : (1 < 5)%nat) by lia.
  assert (F1 : is_ok after_first.1 = true) by (vm_compute; reflexivity).
  assert (F2 : flagged (locals_of after_first) = false)
    by (vm_compute; reflexivity).
  assert (F3 : match after_second.1 with
               | Ok (Training.Break, l') => flagged l'
               | _ => false
               end = true) by (vm_compute; reflexivity).
  assert (F4 : epochs_printed train_start = []) by reflexivity.
  destruct (Training.for_epochs _ _ locals0 train_start) as [[l|e] s] eqn:E1;
    [|discriminate].
  cbn [fst snd] in F2, F3.
  destruct (Training.epoch_body _ _ _ _ _ _ _ _ l s) as [[[[] l']|e] s'] eqn:E2;
    try discriminate.
  cbn [fst snd] in F3.
  destruct (@early_stop_ends_the_run Linear.torch Linear.utils patched_globals
              train_dl valid_dl (VFloat (1 # 1000)) (VFloat (5 # 100))
              (VBool true) (VInt 5) 1 5 locals0 train_start
              l s Training.Break l' s' H1 E1 F2 E2 F3)
    as (_ & Hloop & _ & Hprinted).
  exists l, s, l', s'.
  split; [exact H1|]. split; [reflexivity|]. split; [exact F2|].
  split; [exact E2|]. split; [exact F3|]. split; [exact Hloop|].
  rewrite Hprinted, F4. reflexivity.
Defined.

(** *** The config (C8) *)

(** C8 does not hold as stated: [process] leaves the caller's config with
    an attribute it did not have. *)
Lemma process_changes_the_config :
  config start !! "cleared_col_names" = None /\
  config (process "derive.csv" start).2 !! "cleared_col_names"
  = Some (VStrs ["a"; "b"]) /\
  config (process "derive.csv" start).2 <> config start.
Proof.
  split; [vm_compute; reflexivity|]. split; [vm_compute; reflexivity|].
  intros Heq. apply (f_equal (fun c => c !! "cleared_col_names")) in Heq.
  vm_compute in Heq. discriminate.
Qed.

(** *** Decompression (C9, C10) *)

(** C9 does not hold as stated. A latent matrix three values wide, for a
    model saved with latent width [1]: [decompress] asks for a model of
    latent width [3], and the run ends in the model store, not with
    [ShapeError]. A latent matrix of the right width, for a model saved
    with a tensor of length [1] after the decoder's bias: [decompress] asks
    for a model of one feature, though the model was saved with two. *)
Lemma decompress_sizes_by_guessing :
  first_row wide_latent_data = Ok [1; 2; 3]%Q /\
  z_dim saved_model = 1 /\
  (decompress "model.pt" "wide.pickle" start).1 = Raise ArchitectureMismatchError /\
  calls (decompress "model.pt" "wide.pickle" start).2
  = [Call_load_model "model.pt" 2 3] /\
  first_row latent_data = Ok [0]%Q /\
  z_dim scaled_model = 1 /\ n_features scaled_model = 2 /\
  (decompress "scaled.pt" "latent.pickle" start).1
  = Raise ArchitectureMismatchError /\
  calls (decompress "scaled.pt" "latent.pickle" start).2
  = [Call_load_model "scaled.pt" 1 1].
Proof. repeat apply conj; vm_compute; reflexivity. Qed.

Lemma decompress_checks_no_shape_on_the_project :
  (forall path config,
     load_data (DataProcessing := data_processing fs) path config
     <> Raise ShapeError) /\
  (forall path, torch_load (Codec := codec fs) path <> Raise ShapeError) /\
  (forall config,
     initialise_model (DataProcessing := data_processing fs) config
     <> Raise ShapeError) /\
  (forall ModelObject path nf z,
     load_model (DataProcessing := data_processing fs) ModelObject path nf z
     <> Raise ShapeError) /\
  (forall model data, decode (Codec := codec fs) model data <> Raise ShapeError) /\
  (decompress "model.pt" "wide.pickle" start).1 <> Raise ShapeError.
Proof.
  pose proof (StoreFacts.load_data_no_shape fs) as H1.
  pose proof (StoreFacts.torch_load_no_shape fs) as H2.
  pose proof (StoreFacts.initialise_model_no_shape fs) as H3.
  pose proof (StoreFacts.load_model_no_shape fs) as H4.
  pose proof (StoreFacts.decode_no_shape fs) as H5.
  do 5 (split; [assumption|]).
  exact (proj1 (@decompress_checks_no_shape (codec fs) (data_processing fs)
                  "model.pt" "wide.pickle" H1 H2 H3 H4 H5) start).
Defined.

Lemma decompress_sizes_from_its_inputs_on_the_project :
  load_data (DataProcessing := data_processing fs) "latent.pickle" (config start)
  = Ok (NDArray ([0]%Q :: [[1]%Q])) /\
  torch_load (Codec := codec fs) "model.pt"
  = Ok (take 2 saved_weights
        ++ [("de.bias", {| shape := [2]%nat; flat := [0; 0]%Q |})]) /\
  NoDup (take 2 saved_weights
         ++ [("de.bias", {| shape := [2]%nat; flat := [0; 0]%Q |})]).*1 /\
  (decompress "model.pt" "latent.pickle" start).1
  = match load_model (DataProcessing := data_processing fs)
            "george_SAE" "model.pt" 2 1 with
    | Ok model => decode (Codec := codec fs) model [[0]; [1]]%Q
    | Raise e => Raise e
    end /\
  (decompress "model.pt" "latent.pickle"
     {| config := <["compression_ratio" := VFloat 7]> default_config;
        calls := [] |}).1
  = (decompress "model.pt" "latent.pickle" start).1.
Proof.
  assert (Hnodup : NoDup (take 2 saved_weights
             ++ [("de.bias", {| shape := [2]%nat; flat := [0; 0]%Q |})]).*1).
  { apply NoDup_ListNoDup. simpl.
    repeat (constructor; [simpl; intuition discriminate|]). constructor. }
  destruct (@decompress_sizes_from_its_inputs (codec fs) (data_processing fs)
              "model.pt" "latent.pickle" start [0]%Q [[1]%Q]
              (take 2 saved_weights) "de.bias"
              {| shape := [2]%nat; flat := [0; 0]%Q |} 2%nat []
              eq_refl eq_refl Hnodup eq_refl) as [Hsize Hconfig].
  split; [reflexivity|]. split; [reflexivity|]. split; [exact Hnodup|].
  split.
  - exact (proj1 (Hsize "george_SAE" eq_refl)).
  - apply Hconfig; reflexivity.
Defined.

End Examples.

(** * More of the two files *)

(** ** The set-up and the edges of the training loop *)

Module TrainingEdges.
Import Training TrainingFacts.

Section Edges.
Context `{U : Utils}.

(** The keys [train] reads before anything else, in the order it reads
    them. *)
Definition setup_keys : list string :=
  ["lr"; "batch_size"; "reg_param"; "RHO"; "l1"; "epochs"; "latent_space_size"].

Lemma cfg_Some key s v : config s !! key = Some v -> cfg key s = (Ok v, s).
Proof. intros Hv. unfold cfg, bind, get, lift, getitem. rewrite Hv. reflexivity. Qed.

Lemma cfg_None key s :
  config s !! key = None -> cfg key s = (Raise (KeyError key), s).
Proof. intros Hv. unfold cfg, bind, get, lift, getitem. rewrite Hv. reflexivity. Qed.

Ltac read_key :=
  match goal with
  | Hk : config ?s !! ?k = Some ?v |- context [cfg ?k] =>
      rewrite (bind_Ok (cfg k) _ s v s (cfg_Some k s v Hk))
  | Hk : config ?s !! ?k = None |- context [cfg ?k] =>
      rewrite (bind_Raise (cfg k) _ s (KeyError k) s (cfg_None k s Hk))
  end.

(** X1: A config that lacks one of the seven keys: [train] raises [KeyError]
    for the first one missing and has touched nothing by then, neither the
    model nor the output nor a file. *)
Theorem train_needs_its_keys g variables train_data test_data parent_path s
    before key after :
  setup_keys = before ++ key :: after ->
  Forall (fun k => is_Some (config s !! k)) before ->
  config s !! key = None ->
  train g variables train_data test_data parent_path s
  = (Raise (KeyError key), s).
Proof.
  intros Hkeys Hbefore Hkey. unfold setup_keys in Hkeys. unfold train.
  repeat (destruct before as [|k0 before]; simpl in Hkeys;
          [ injection Hkeys as <- <-; repeat read_key; reflexivity
          | injection Hkeys as <- Hkeys;
            apply Forall_cons in Hbefore as [[? ?] Hbefore] ]);
    destruct before; simpl in Hkeys; discriminate Hkeys.
Qed.

(** *** A loader without batches *)

Lemma batches_of_run dl s :
  batches_of dl s
  = (Ok (iterate dl (rng s)).1,
     {| config := config s; params := params s; training := training s;
        rng := (iterate dl (rng s)).2; stdout := stdout s;
        written := written s |}).
Proof. unfold batches_of. destruct (iterate dl (rng s)). reflexivity. Qed.

(** X2: A loader of length zero, over which there is no batch to draw: [fit]
    and [validate] end in the division of the running loss by the length,
    with [ZeroDivisionError]; the parameters are as they were. *)
Theorem empty_loader_divides_by_zero dl reg o RHO l1 s :
  loader_len dl = 0%nat ->
  (iterate dl (rng s)).1 = [] ->
  (fit dl reg o RHO l1 s).1 = Raise ZeroDivisionError /\
  params (fit dl reg o RHO l1 s).2 = params s /\
  (validate dl reg s).1 = Raise ZeroDivisionError /\
  params (validate dl reg s).2 = params s.
Proof.
  intros Hlen Hnone.
  unfold fit, validate, print, set_mode. rewrite !bind_modify. simpl.
  set (drawn := fun s1 : tstate =>
         {| config := config s1; params := params s1; training := training s1;
            rng := (iterate dl (rng s)).2; stdout := stdout s1;
            written := written s1 |}).
  assert (Hdraw : forall s1, rng s1 = rng s ->
            batches_of dl s1 = (Ok [], drawn s1)).
  { intros s1 Hrng. rewrite batches_of_run, Hrng, Hnone. reflexivity. }
  repeat match goal with
         | |- context [bind (batches_of dl) ?k ?s1] =>
             rewrite (bind_Ok (batches_of dl) k s1 [] (drawn s1) (Hdraw s1 eq_refl))
         end.
  simpl. unfold bind, ret, lift. rewrite Hlen. simpl. done.
Qed.

(** *** The mode of the model *)

Lemma print_training l : keeps (same training) (print l).
Proof. intros s. reflexivity. Qed.

Lemma set_params_training p : keeps (same training) (set_params p).
Proof. intros s. reflexivity. Qed.

Lemma batches_of_training dl : keeps (same training) (batches_of dl).
Proof. intros s. rewrite batches_of_run. reflexivity. Qed.

Ltac still :=
  repeat first
    [ step_into
    | apply bound_same | apply cfg_same | apply call_model_same
    | apply loss_of_same | apply batches_of_training | apply print_training
    | apply set_params_training | apply validate_batches_same
    | assumption ].

Lemma fit_batches_training bs reg o rl l :
  keeps (same training) (fit_batches bs reg o rl l).
Proof.
  revert o rl l. induction bs as [|x bs IH]; intros o rl l; simpl; still.
  apply IH.
Qed.

(** X3: [fit] leaves the model in training mode and [validate] leaves it in
    evaluation mode, whether they return or raise; so an epoch that
    completes leaves the model in evaluation mode. *)
Theorem phases_set_the_mode g tdl vdl reg RHO l1 epochs epoch l o s :
  training (fit tdl reg o RHO l1 s).2 = true /\
  training (validate vdl reg s).2 = false /\
  (forall r s',
     epoch_body g tdl vdl reg RHO l1 epochs epoch l s = (Ok r, s') ->
     training s' = false).
Proof.
  assert (Hfit : forall dl o s, training (fit dl reg o RHO l1 s).2 = true).
  { intros dl o0 s0. unfold fit, print, set_mode. rewrite !bind_modify.
    match goal with |- training (?m ?s1).2 = _ =>
      assert (Hk : keeps (same training) m)
        by (still; apply fit_batches_training);
      rewrite (Hk s1) end.
    reflexivity. }
  assert (Hval : forall dl s, training (validate dl reg s).2 = false).
  { intros dl s0. unfold validate, print, set_mode. rewrite !bind_modify.
    match goal with |- training (?m ?s1).2 = _ =>
      assert (Hk : keeps (same training) m) by still;
      rewrite (Hk s1) end.
    reflexivity. }
  split; [apply Hfit|]. split; [apply Hval|].
  intros r s' Hrun. unfold epoch_body in Hrun.
  apply bind_inv_Ok in Hrun as ([] & s1 & _ & Hrun).
  apply bind_inv_Ok in Hrun as ([tl o1] & s2 & _ & Hrun).
  apply bind_inv_Ok in Hrun as (vl & s3 & Hvl & Hrun).
  pose proof (Hval vdl s2) as Hmode. rewrite Hvl in Hmode. simpl in Hmode.
  match type of Hrun with ?m s3 = _ =>
    assert (Hk : keeps (same training) m) end.
  { still; destruct (call_LRScheduler _ _ _); still. }
  pose proof (Hk s3) as Hs. rewrite Hrun in Hs. unfold same in Hs. simpl in Hs.
  congruence.
Qed.

(** *** The epochs that run *)

Ltac inv_bind H :=
  let a := fresh "a" in
  let s := fresh "s" in
  let E := fresh "E" in
  apply bind_inv_Ok in H as (a & s & E & H).

(** What an epoch that completes did: it appended one value to each of
    the four lists, and it ends with [break] only under an enabled early
    stopping. *)
Lemma epoch_body_completes g tdl vdl reg RHO l1 epochs epoch l s c l' s' :
  epoch_body g tdl vdl reg RHO l1 epochs epoch l s = (Ok (c, l'), s') ->
  length (train_loss l') = S (length (train_loss l)) /\
  length (val_loss l') = S (length (val_loss l)) /\
  length (mse_loss_fit l') = S (length (mse_loss_fit l)) /\
  length (regularizer_loss_fit l') = S (length (regularizer_loss_fit l)) /\
  (c = Break ->
   exists v, config s' !! "early_stopping" = Some v /\ eq_True v = true).
Proof.
  unfold epoch_body. intros Hrun.
  inv_bind Hrun. inv_bind Hrun. destruct a0 as [tl o].
  inv_bind Hrun. inv_bind Hrun. inv_bind Hrun. inv_bind Hrun. inv_bind Hrun.
  inv_bind Hrun.
  apply cfg_inv in E6 as [-> Hcfg].
  assert (Hlists : train_loss a4 = train_loss l ++ [tl] /\
                   val_loss a4 = val_loss l ++ [a0] /\
                   mse_loss_fit a4 = mse_loss_fit l ++ [a1] /\
                   regularizer_loss_fit a4 = regularizer_loss_fit l ++ [a2]).
  { destruct (eq_True a3).
    - destruct (lr_scheduler _); [|discriminate].
      destruct (call_LRScheduler _ _ _). injection E5 as <- _. done.
    - injection E5 as <- _. done. }
  destruct Hlists as (Ht & Hv & Hm & Hr).
  assert (Hsame : train_loss l' = train_loss a4 /\ val_loss l' = val_loss a4 /\
                  mse_loss_fit l' = mse_loss_fit a4 /\
                  regularizer_loss_fit l' = regularizer_loss_fit a4 /\
                  (c = Break -> eq_True a5 = true) /\ s' = s6).
  { destruct (eq_True a5).
    - destruct (early_stopping a4) as [es|]; [|discriminate].
      destruct (early_stop _); injection Hrun as <- <- <-; done.
    - injection Hrun as <- <- <-. done. }
  destruct Hsame as (-> & -> & -> & -> & Hbreak & ->).
  rewrite Ht, Hv, Hm, Hr, !length_app. simpl.
  repeat split; try lia. intros Hc. exists a5. split; [exact Hcfg | auto].
Qed.

(** *** The loss log *)

Lemma loss_frame_rows tl vl ml rl n :
  length tl = n -> length vl = n -> length ml = n -> length rl = n ->
  exists rows, loss_frame tl vl ml rl = Ok rows /\ length rows = n.
Proof.
  revert vl ml rl n. induction tl as [|t tl IH]; intros vl ml rl n Ht Hv Hm Hr.
  - subst n. destruct vl, ml, rl; try discriminate. exists []. done.
  - destruct n as [|n]; [discriminate|].
    destruct vl as [|v vl], ml as [|m ml], rl as [|r rl]; try discriminate.
    simpl in *.
    destruct (IH vl ml rl n) as (rows & -> & Hrows); try lia.
    eexists. split; [reflexivity|]. simpl. lia.
Qed.

(** The four lists grow together, by one entry for every epoch started. *)
Lemma for_epochs_rows g tdl vdl reg RHO l1 epochs todo l0 s0 l s n :
  for_epochs (epoch_body g tdl vdl reg RHO l1 epochs) todo l0 s0 = (Ok l, s) ->
  length (train_loss l0) = n -> length (val_loss l0) = n ->
  length (mse_loss_fit l0) = n -> length (regularizer_loss_fit l0) = n ->
  exists k,
    length (epochs_printed s) = (length (epochs_printed s0) + k)%nat /\
    length (train_loss l) = (n + k)%nat /\ length (val_loss l) = (n + k)%nat /\
    length (mse_loss_fit l) = (n + k)%nat /\
    length (regularizer_loss_fit l) = (n + k)%nat.
Proof.
  revert l0 s0 n. induction todo as [|e todo IH]; intros l0 s0 n Hrun Ht Hv Hm Hr;
    simpl in *.
  - injection Hrun as <- <-. exists 0%nat. repeat split; lia.
  - pose proof (epoch_body_prints g tdl vdl reg RHO l1 epochs e l0 s0) as Hp.
    unfold bind in Hrun.
    destruct (epoch_body _ _ _ _ _ _ _ e l0 s0) as [[[c l2]|err] s2] eqn:Hbody;
      [|discriminate].
    simpl in Hp.
    apply epoch_body_completes in Hbody as (Ht2 & Hv2 & Hm2 & Hr2 & _).
    assert (Hp2 : length (epochs_printed s2) = S (length (epochs_printed s0)))
      by (rewrite Hp, length_app; simpl; lia).
    destruct c.
    + destruct (IH l2 s2 (S n) Hrun) as (k & Hk & Hkt & Hkv & Hkm & Hkr);
        try lia.
      exists (S k). repeat split; lia.
    + injection Hrun as <- <-. exists 1%nat. repeat split; lia.
Qed.

(** Nothing in the loop writes a file. *)
Lemma print_written l : keeps (same written) (print l).
Proof. intros s. reflexivity. Qed.

Lemma set_mode_written b : keeps (same written) (set_mode b).
Proof. intros s. reflexivity. Qed.

Lemma set_params_written p : keeps (same written) (set_params p).
Proof. intros s. reflexivity. Qed.

Lemma batches_of_written dl : keeps (same written) (batches_of dl).
Proof. intros s. rewrite batches_of_run. reflexivity. Qed.

Ltac quiet :=
  repeat first
    [ step_into
    | apply bound_same | apply cfg_same | apply call_model_same
    | apply loss_of_same | apply batches_of_written | apply print_written
    | apply set_mode_written | apply set_params_written
    | apply validate_batches_same
    | assumption ].

Lemma fit_batches_written bs reg o rl l :
  keeps (same written) (fit_batches bs reg o rl l).
Proof.
  revert o rl l. induction bs as [|x bs IH]; intros o rl l; simpl; quiet.
  apply IH.
Qed.

Lemma epoch_body_written g tdl vdl reg RHO l1 epochs epoch l :
  keeps (same written) (epoch_body g tdl vdl reg RHO l1 epochs epoch l).
Proof.
  unfold epoch_body, fit, validate. quiet; try apply fit_batches_written.
  all: destruct (call_LRScheduler _ _ _); quiet.
Qed.

Lemma for_epochs_written g tdl vdl reg RHO l1 epochs todo l :
  keeps (same written)
    (for_epochs (epoch_body g tdl vdl reg RHO l1 epochs) todo l).
Proof.
  revert l. induction todo as [|e todo IH]; intros l; simpl; quiet.
  - apply epoch_body_written.
  - apply IH.
Qed.

Lemma unchanged {A} (m : M tstate A) s a s' :
  keeps (same (fun s => s)) m -> m s = (Ok a, s') -> s' = s.
Proof. intros Hk Hrun. specialize (Hk s). rewrite Hrun in Hk. exact Hk. Qed.

Ltac rest_unchanged E :=
  apply unchanged in E;
  [ subst
  | repeat first [ step_into | apply cfg_same | apply call_model_same ] ].

(** *** The shape of a run *)

(** The end of [train]: the prediction on the test data and the
    [return]. *)
Definition prediction (g : gmap string pyval) (test_data : pydata)
  : M tstate (Tensor * Tensor * pyval) :=
  test_values <- lift (values test_data) ;;
  let data_as_tensor := tensor test_values in
  pred_as_tensor <- call_model data_as_tensor ;;
  model_from_fit <- lift (load_global g "model_from_fit") ;;
  ret (data_as_tensor, pred_as_tensor, model_from_fit).

(** [train] from the loop over the epochs on. *)
Definition epochs_and_after (g : gmap string pyval) (test_data : pydata)
    (parent_path : string) (tdl vdl : Loader) (reg RHO l1 epochs : pyval)
    (todo : list Z) (l0 : locals) : M tstate (Tensor * Tensor * pyval) :=
  l <- for_epochs (epoch_body g tdl vdl reg RHO l1 epochs) todo l0 ;;
  print Minutes ;;;
  rows <- lift (loss_frame (train_loss l) (val_loss l) (mse_loss_fit l)
                  (regularizer_loss_fit l)) ;;
  to_csv (parent_path +:+ "loss_data.csv") rows ;;;
  prediction g test_data.

(** The locals of [train] when the loop begins. *)
Definition no_losses (o : Optim) (es : option EarlyStopping)
    (sc : option LRScheduler) : locals :=
  {| optimizer := o; early_stopping := es; lr_scheduler := sc;
     train_loss := []; val_loss := []; mse_loss_fit := [];
     regularizer_loss_fit := [] |}.

(** The state once the minutes are printed and the loss log is written. *)
Definition logged (parent_path : string) (rows : list csv_row) (s : tstate)
  : tstate :=
  {| config := config s; params := params s; training := training s;
     rng := rng s; stdout := stdout s ++ [Minutes];
     written := written s ++ [(parent_path +:+ "loss_data.csv", rows)] |}.

Lemma prediction_run g test_data s :
  prediction g test_data s
  = (match values test_data with
     | Ok m =>
         match forward (training s) (params s) (tensor m) with
         | Ok pred =>
             match load_global g "model_from_fit" with
             | Ok f => Ok (tensor m, pred, f)
             | Raise e => Raise e
             end
         | Raise e => Raise e
         end
     | Raise e => Raise e
     end, s).
Proof.
  unfold prediction, call_model, bind, lift, get, ret.
  destruct (values test_data); [|reflexivity].
  destruct (forward _ _ _); [|reflexivity].
  destruct (load_global _ _); reflexivity.
Qed.

(** A step that leaves the state as it is: it raises there, or the run
    goes on from there. *)
Lemma bind_pure {A B} (m : M tstate A) (k : A -> M tstate B) s :
  keeps (same (fun s => s)) m ->
  (exists e, bind m k s = (Raise e, s)) \/
  (exists a, m s = (Ok a, s) /\ bind m k s = k a s).
Proof.
  intros Hk. specialize (Hk s). unfold same, bind in *.
  destruct (m s) as [[a|e] s']; simpl in Hk; subst; eauto.
Qed.

Ltac set_up :=
  match goal with
  | |- (exists e, bind ?m ?k ?s = _) \/ _ =>
      let a := fresh "a" in
      let E := fresh "E" in
      destruct (bind_pure m k s) as [[? ->] | (a & E & ->)];
      [ repeat first [ step_into | apply cfg_same | apply call_model_same ]
      | left; eauto
      | cbv beta ]
  end.

(** [train] raises in its set-up, with everything as it was, or gets to
    the loop over [range(epochs)] with its four lists empty. *)
Lemma train_shape g variables train_data test_data parent_path s :
  (exists e,
     train g variables train_data test_data parent_path s = (Raise e, s)) \/
  (exists tdl vdl reg RHO l1 epochs todo o es sc,
     config s !! "epochs" = Some epochs /\ range epochs = Ok todo /\
     train g variables train_data test_data parent_path s
     = epochs_and_after g test_data parent_path tdl vdl reg RHO l1 epochs todo
         (no_losses o es sc) s).
Proof.
  unfold train. do 18 set_up.
  match goal with
  | Hepochs : cfg "epochs" s = _, Hrange : lift (range _) s = _ |- _ =>
      apply cfg_inv in Hepochs as [_ Hepochs];
      apply lift_inv_Ok in Hrange as [Hrange _];
      right; do 10 eexists;
      split; [exact Hepochs|]; split; [exact Hrange|]
  end.
  reflexivity.
Qed.

(** The first epoch of a range is epoch [0]. *)
Lemma range_first v e rest : range v = Ok (e :: rest) -> e = 0.
Proof.
  destruct v; try discriminate; simpl;
    match goal with
    | |- context [Z.to_nat ?n] => destruct (Z.to_nat n); simpl
    | |- context [if ?b then _ else _] => destruct b
    end;
    try discriminate; intros [= <- _]; reflexivity.
Qed.

Lemma logged_epochs parent_path rows s :
  epochs_printed (logged parent_path rows s) = epochs_printed s.
Proof.
  unfold epochs_printed, logged. simpl. rewrite omap_app. apply app_nil_r.
Qed.

(** The run from the loop on, when the loop returns. *)
Lemma epochs_and_after_run g test_data parent_path tdl vdl reg RHO l1 epochs
    todo l0 s l s1 :
  for_epochs (epoch_body g tdl vdl reg RHO l1 epochs) todo l0 s = (Ok l, s1) ->
  epochs_and_after g test_data parent_path tdl vdl reg RHO l1 epochs todo l0 s
  = match loss_frame (train_loss l) (val_loss l) (mse_loss_fit l)
            (regularizer_loss_fit l) with
    | Ok rows => prediction g test_data (logged parent_path rows s1)
    | Raise e =>
        (Raise e,
         {| config := config s1; params := params s1; training := training s1;
            rng := rng s1; stdout := stdout s1 ++ [Minutes];
            written := written s1 |})
    end.
Proof.
  intros Hloop. unfold epochs_and_after.
  rewrite (bind_Ok _ _ _ _ _ Hloop). unfold print, to_csv.
  rewrite bind_modify. unfold bind at 1, lift.
  destruct (loss_frame _ _ _ _); reflexivity.
Qed.

(** X4: In the namespace of [training.py] no run of [train] starts a
    second epoch, whatever the config says of [epochs] and of early
    stopping: the lines [Epoch k of n] of a run are none, or the one of
    epoch [1]; no run returns, and a run that started an epoch has written
    no file. *)
Theorem no_second_epoch_is_started variables train_data test_data parent_path s :
  let run := train module_globals variables train_data test_data parent_path s in
  is_ok run.1 = false /\
  (epochs_printed run.2 = epochs_printed s \/
   epochs_printed run.2 = epochs_printed s ++ [1] /\
   written run.2 = written s).
Proof.
  cbv zeta. split; [apply train_fails|].
  destruct (train_shape module_globals variables train_data test_data
              parent_path s)
    as [[e ->] | (tdl & vdl & reg & RHO & l1 & epochs & todo & o & es & sc
                  & _ & Hrange & ->)]; [left; reflexivity|].
  destruct todo as [|e todo].
  - left.
    rewrite (epochs_and_after_run module_globals test_data parent_path tdl vdl
               reg RHO l1 epochs [] (no_losses o es sc) s (no_losses o es sc) s
               eq_refl).
    simpl loss_frame. cbv iota. rewrite prediction_run. apply logged_epochs.
  - right. apply range_first in Hrange as ->.
    pose proof (epoch_body_fails tdl vdl reg RHO l1 epochs 0 (no_losses o es sc) s)
      as Hfail.
    pose proof (epoch_body_prints module_globals tdl vdl reg RHO l1 epochs 0
                  (no_losses o es sc) s) as Hp.
    pose proof (epoch_body_written module_globals tdl vdl reg RHO l1 epochs 0
                  (no_losses o es sc) s) as Hw.
    unfold epochs_and_after. simpl for_epochs. unfold bind.
    destruct (epoch_body module_globals tdl vdl reg RHO l1 epochs 0 _ s)
      as [[r|e] s1]; [discriminate|].
    simpl in *. auto.
Qed.

(** X5: However [train] ends, it has written no file, or one file,
    [loss_data.csv] under [parent_path], with one row for every epoch
    that was started; a run that returns has written it. *)
Theorem loss_log_has_a_row_per_epoch g variables train_data test_data
    parent_path s :
  let run := train g variables train_data test_data parent_path s in
  (written run.2 = written s \/
   exists rows,
     written run.2 = written s ++ [(parent_path +:+ "loss_data.csv", rows)] /\
     length (epochs_printed run.2)
     = (length (epochs_printed s) + length rows)%nat) /\
  (is_ok run.1 = true -> written run.2 <> written s).
Proof.
  cbv zeta.
  destruct (train_shape g variables train_data test_data parent_path s)
    as [[e ->] | (tdl & vdl & reg & RHO & l1 & epochs & todo & o & es & sc
                  & _ & _ & ->)].
  { split; [left; reflexivity | discriminate]. }
  destruct (for_epochs (epoch_body g tdl vdl reg RHO l1 epochs) todo
              (no_losses o es sc) s) as [[l|e] s1] eqn:Hloop.
  - pose proof (for_epochs_written g tdl vdl reg RHO l1 epochs todo
                  (no_losses o es sc) s) as Hw.
    rewrite Hloop in Hw. unfold same in Hw. simpl in Hw.
    destruct (for_epochs_rows _ _ _ _ _ _ _ _ _ _ _ _ 0%nat Hloop)
      as (k & Hk & Hkt & Hkv & Hkm & Hkr); try reflexivity.
    destruct (loss_frame_rows _ _ _ _ k Hkt Hkv Hkm Hkr)
      as (rows & Hrows & Hlen).
    rewrite (epochs_and_after_run _ _ _ _ _ _ _ _ _ _ _ _ _ _ Hloop), Hrows.
    rewrite prediction_run. cbn [fst snd]. split.
    + right. exists rows. split; [simpl; rewrite Hw; reflexivity|].
      rewrite logged_epochs. lia.
    + intros _ Heq. simpl in Heq. rewrite Hw in Heq.
      apply (f_equal length) in Heq. rewrite length_app in Heq. simpl in Heq.
      lia.
  - pose proof (for_epochs_written g tdl vdl reg RHO l1 epochs todo
                  (no_losses o es sc) s) as Hw.
    rewrite Hloop in Hw. unfold same in Hw. simpl in Hw.
    unfold epochs_and_after. rewrite (bind_Raise _ _ _ _ _ Hloop).
    split; [left; exact Hw | discriminate].
Qed.

(** *** What a phase prints *)

(** [validate_batches], with the name [loss] followed: after the loop it
    holds the loss of the last batch, or what it held before when there
    was no batch. *)
Lemma validate_batches_last bs reg rl l s rl' l' s' :
  validate_batches bs reg rl l s = (Ok (rl', l'), s') ->
  exists ls,
    Forall2 (fun x y => batch_loss (training s) (params s) reg x = Ok y) bs ls /\
    rl' = fold_left fadd ls rl /\
    l' = match last ls with Some y => Some y | None => l end.
Proof.
  revert rl l. induction bs as [|x bs IH]; intros rl l; simpl.
  - intros [= <- <- <-]. exists []. split; [constructor | done].
  - intros Hrun.
    apply bind_inv_Ok in Hrun as (rec & s1 & Hrec & Hrun).
    apply bind_inv_Ok in Hrec as (s0 & s2 & Hget & Hrec).
    injection Hget as <- <-. apply lift_inv_Ok in Hrec as [Hrec ->].
    apply bind_inv_Ok in Hrun as (y & s1 & Hy & Hrun).
    apply bind_inv_Ok in Hy as (s0 & s2 & Hget & Hy).
    injection Hget as <- <-. apply lift_inv_Ok in Hy as [Hy ->].
    apply IH in Hrun as (ls & Hls & -> & ->).
    exists (y :: ls). split; [|split; [done|]].
    + constructor; [|done]. unfold batch_loss. rewrite Hrec. exact Hy.
    + rewrite last_cons. destruct (last ls); reflexivity.
Qed.

(** X6: The value [validate] returns is the mean of the losses of the
    batches; the loss on its closing line is that of the last batch. *)
Theorem finished_line_shows_the_last_batch dl reg s v s' :
  validate dl reg s = (Ok v, s') ->
  exists ls y,
    Forall2 (fun x y => batch_loss false (params s) reg x = Ok y)
      (iterate dl (rng s)).1 ls /\
    truediv (fold_left fadd ls (Fin 0)) (loader_len dl) = Ok v /\
    last ls = Some y /\
    stdout s' = stdout s ++ [BeginningValidating; FinishedValidating y].
Proof.
  unfold validate, print, set_mode. rewrite !bind_modify. intros Hrun.
  apply bind_inv_Ok in Hrun as (bs & s1 & Hbs & Hrun).
  rewrite batches_of_run in Hbs. injection Hbs as <- <-. simpl in Hrun.
  apply bind_inv_Ok in Hrun as ([rl' l'] & s2 & Hloop & Hrun).
  pose proof Hloop as Hsame. apply validate_batches_inv in Hsame as [-> _].
  apply validate_batches_last in Hloop as (ls & Hls & -> & ->).
  apply bind_inv_Ok in Hrun as (el & s3 & Hdiv & Hrun).
  apply lift_inv_Ok in Hdiv as [Hdiv ->].
  apply bind_inv_Ok in Hrun as (y & s4 & Hy & Hrun).
  destruct (last ls) as [y'|] eqn:Hlast; [|discriminate].
  injection Hy as <- <-.
  rewrite bind_modify in Hrun. injection Hrun as <- <-.
  exists ls, y'. simpl. rewrite <- app_assoc. done.
Qed.

(** *** An untrained run *)

(** X7: [range(n)] for [n <= 0] is empty. With such an [epochs], a run
    of [train] raises in its set-up and leaves everything as it was, or it
    goes through no epoch: it prints the minutes and nothing else, writes
    a loss log without rows, leaves the parameters and the mode of the
    model untouched and ends as the prediction of that model on the test
    data and the look-up of [model_from_fit] end. *)
Theorem no_epochs_trains_nothing g variables train_data test_data parent_path
    s n :
  config s !! "epochs" = Some (VInt n) ->
  n <= 0 ->
  let run := train g variables train_data test_data parent_path s in
  (is_ok run.1 = false /\ run.2 = s) \/
  (run.2 = {| config := config s; params := params s; training := training s;
              rng := rng s; stdout := stdout s ++ [Minutes];
              written := written s ++ [(parent_path +:+ "loss_data.csv", [])] |} /\
   run.1 = match values test_data with
           | Ok m =>
               match forward (training s) (params s) (tensor m) with
               | Ok pred =>
                   match load_global g "model_from_fit" with
                   | Ok f => Ok (tensor m, pred, f)
                   | Raise e => Raise e
                   end
               | Raise e => Raise e
               end
           | Raise e => Raise e
           end).
Proof.
  intros Hepochs Hn. cbv zeta.
  destruct (train_shape g variables train_data test_data parent_path s)
    as [[e ->] | (tdl & vdl & reg & RHO & l1 & epochs & todo & o & es & sc
                  & Hep & Hrange & ->)]; [left; split; reflexivity|].
  right. rewrite Hepochs in Hep. injection Hep as <-.
  simpl in Hrange. replace (Z.to_nat n) with 0%nat in Hrange by lia.
  injection Hrange as <-.
  rewrite (epochs_and_after_run g test_data parent_path tdl vdl reg RHO l1
             (VInt n) [] (no_losses o es sc) s (no_losses o es sc) s eq_refl).
  simpl loss_frame. cbv iota. rewrite prediction_run. split; reflexivity.
Qed.

(** *** The two policies *)

(** [early_stopping] and [lr_scheduler] are bound by [train] only under
    the config flag of their name, and the loop uses each under the same
    flag. The locals are armed for a config when each policy the config
    enables is bound. *)
Definition armed (c : gmap string pyval) (l : locals) : Prop :=
  (forall v, c !! "early_stopping" = Some v -> eq_True v = true ->
     is_Some (early_stopping l)) /\
  (forall v, c !! "lr_scheduler" = Some v -> eq_True v = true ->
     is_Some (lr_scheduler l)).

Lemma avoids_bind {S A B} (m : M S A) (k : A -> M S B) e s :
  (m s).1 <> Raise e ->
  (forall a s', m s = (Ok a, s') -> (k a s').1 <> Raise e) ->
  (bind m k s).1 <> Raise e.
Proof.
  unfold bind. destruct (m s) as [[a|e'] s']; simpl; intros Hm Hk.
  - apply Hk. reflexivity.
  - intros [= ->]. apply Hm. reflexivity.
Qed.

Lemma epoch_body_keeps_policies g tdl vdl reg RHO l1 epochs epoch l s c l' s' :
  epoch_body g tdl vdl reg RHO l1 epochs epoch l s = (Ok (c, l'), s') ->
  (is_Some (early_stopping l) -> is_Some (early_stopping l')) /\
  (is_Some (lr_scheduler l) -> is_Some (lr_scheduler l')).
Proof.
  unfold epoch_body. intros Hrun.
  inv_bind Hrun. inv_bind Hrun. destruct a0 as [tl o].
  inv_bind Hrun. inv_bind Hrun. inv_bind Hrun. inv_bind Hrun. inv_bind Hrun.
  inv_bind Hrun.
  assert (Hmid : early_stopping a4 = early_stopping l /\
                 (is_Some (lr_scheduler l) -> is_Some (lr_scheduler a4))).
  { destruct (eq_True a3).
    - destruct (lr_scheduler _); [|discriminate].
      destruct (call_LRScheduler _ _ _). injection E5 as <- _. simpl. eauto.
    - injection E5 as <- _. done. }
  destruct Hmid as [Hes Hsc]. rewrite <- Hes.
  destruct (eq_True a5).
  - destruct (early_stopping a4) as [es|]; [|discriminate].
    destruct (early_stop _); injection Hrun as _ <- _; simpl; eauto.
  - injection Hrun as _ <- _. done.
Qed.

Section Bound.
Variable name : string.
Hypothesis not_loss : name <> "loss".
Hypothesis forward_raises :
  forall mode p x, forward mode p x <> Raise (UnboundLocalError name).
Hypothesis model_loss_raises :
  forall p x y r, model_loss p x y r <> Raise (UnboundLocalError name).
Hypothesis Adam_raises :
  forall p lr, Adam p lr <> Raise (UnboundLocalError name).
Hypothesis DataLoader_raises :
  forall ds bs shuffle, DataLoader ds bs shuffle <> Raise (UnboundLocalError name).

Lemma lift_out {A} (r : result A) e (s : tstate) :
  r <> Raise e -> (lift r s).1 <> Raise e.
Proof. intros Hr. exact Hr. Qed.

Lemma call_model_out x : never (UnboundLocalError name) (call_model x).
Proof.
  unfold call_model. apply never_bind; [apply never_get | intros s].
  apply never_lift, forward_raises.
Qed.

Lemma loss_of_out x y r : never (UnboundLocalError name) (loss_of x y r).
Proof.
  unfold loss_of. apply never_bind; [apply never_get | intros s].
  apply never_lift, model_loss_raises.
Qed.

Lemma cfg_out key : never (UnboundLocalError name) (cfg key).
Proof.
  unfold cfg. apply never_bind; [apply never_get | intros s].
  apply never_lift. unfold getitem. destruct (_ !! _); discriminate.
Qed.

Lemma bound_out v : never (UnboundLocalError name) (bound "loss" v).
Proof.
  destruct v; simpl; [apply never_ret|].
  apply never_raise. intros [= Heq]. apply not_loss. symmetry. exact Heq.
Qed.

Lemma batches_of_out dl : never (UnboundLocalError name) (batches_of dl).
Proof. intros s. rewrite batches_of_run. discriminate. Qed.

Lemma truediv_out a n : truediv a n <> Raise (UnboundLocalError name).
Proof. destruct n; discriminate. Qed.

Lemma load_global_out g x : load_global g x <> Raise (UnboundLocalError name).
Proof. unfold load_global. destruct (_ !! _); discriminate. Qed.

Lemma values_out d : values d <> Raise (UnboundLocalError name).
Proof. destruct d; discriminate. Qed.

Lemma range_out v : range v <> Raise (UnboundLocalError name).
Proof. destruct v; discriminate. Qed.

Lemma loss_frame_out tl vl ml rl :
  loss_frame tl vl ml rl <> Raise (UnboundLocalError name).
Proof.
  revert vl ml rl. induction tl as [|t tl IH]; intros vl ml rl;
    destruct vl as [|v vl], ml as [|m ml], rl as [|r rl]; simpl; try discriminate.
  specialize (IH vl ml rl). destruct (loss_frame tl vl ml rl); [discriminate|].
  congruence.
Qed.

Ltac out :=
  repeat first
    [ step_into
    | apply call_model_out | apply loss_of_out | apply cfg_out | apply bound_out
    | apply batches_of_out
    | (apply never_lift; apply truediv_out)
    | assumption ].

Lemma fit_batches_out bs reg o rl l :
  never (UnboundLocalError name) (fit_batches bs reg o rl l).
Proof.
  revert o rl l. induction bs as [|x bs IH]; intros o rl l; simpl; out.
  unfold set_params. out. apply IH.
Qed.

Lemma validate_batches_out bs reg rl l :
  never (UnboundLocalError name) (validate_batches bs reg rl l).
Proof.
  revert rl l. induction bs as [|x bs IH]; intros rl l; simpl; out. apply IH.
Qed.

Lemma fit_out dl reg o RHO l1 : never (UnboundLocalError name) (fit dl reg o RHO l1).
Proof. unfold fit, print, set_mode. out. apply fit_batches_out. Qed.

Lemma validate_out dl reg : never (UnboundLocalError name) (validate dl reg).
Proof. unfold validate, print, set_mode. out. apply validate_batches_out. Qed.

(** The config a run left behind, from the run. *)
Ltac config_of H lemma :=
  match type of H with
  | ?m ?s = _ =>
      let K := fresh "K" in
      pose proof (lemma s) as K; rewrite H in K; unfold same in K; simpl in K
  end.

Lemma epoch_body_out g tdl vdl reg RHO l1 epochs epoch l s :
  armed (config s) l ->
  (epoch_body g tdl vdl reg RHO l1 epochs epoch l s).1
  <> Raise (UnboundLocalError name).
Proof.
  intros [Hes Hsc]. unfold epoch_body.
  apply avoids_bind; [discriminate | intros [] s1 H1].
  injection H1 as <-.
  apply avoids_bind; [apply fit_out | intros [tl o] s2 H2].
  config_of H2 (fit_config tdl reg (optimizer l) RHO l1).
  apply avoids_bind; [apply validate_out | intros vl s3 H3].
  config_of H3 (validate_config vdl reg).
  apply avoids_bind; [apply lift_out, load_global_out | intros m1 s4 H4].
  apply lift_inv_Ok in H4 as [_ ->].
  apply avoids_bind; [apply lift_out, load_global_out | intros m2 s4 H4].
  apply lift_inv_Ok in H4 as [_ ->].
  apply avoids_bind; [apply cfg_out | intros sched s4 H4].
  apply cfg_inv in H4 as [-> Hsched]. rewrite K0, K in Hsched.
  apply avoids_bind.
  - destruct (eq_True sched) eqn:Hon; [|discriminate].
    destruct (Hsc sched Hsched Hon) as [sc Hsc']. simpl. rewrite Hsc'.
    destruct (call_LRScheduler _ _ _). discriminate.
  - intros l2 s4 H4.
    assert (Hl2 : early_stopping l2 = early_stopping l).
    { destruct (eq_True sched).
      - simpl in H4. destruct (lr_scheduler l); [|discriminate].
        destruct (call_LRScheduler _ _ _). injection H4 as <- _. reflexivity.
      - injection H4 as <- _. reflexivity. }
    assert (Hs4 : config s4 = config s3).
    { destruct (eq_True sched).
      - simpl in H4. destruct (lr_scheduler l); [|discriminate].
        destruct (call_LRScheduler _ _ _). injection H4 as _ <-. reflexivity.
      - injection H4 as _ <-. reflexivity. }
    apply avoids_bind; [apply cfg_out | intros early s5 H5].
    apply cfg_inv in H5 as [-> Hearly]. rewrite Hs4, K0, K in Hearly.
    destruct (eq_True early) eqn:Hon; [|discriminate].
    destruct (Hes early Hearly Hon) as [es Hes']. rewrite Hl2, Hes'.
    destruct (early_stop _); discriminate.
Qed.

Lemma for_epochs_out g tdl vdl reg RHO l1 epochs todo l s :
  armed (config s) l ->
  (for_epochs (epoch_body g tdl vdl reg RHO l1 epochs) todo l s).1
  <> Raise (UnboundLocalError name).
Proof.
  revert l s. induction todo as [|e todo IH]; intros l s Harmed; simpl;
    [discriminate|].
  apply avoids_bind; [apply epoch_body_out, Harmed | intros [c l'] s' Hbody].
  destruct c; [|discriminate].
  apply IH.
  config_of Hbody (epoch_body_config g tdl vdl reg RHO l1 epochs e l).
  apply epoch_body_keeps_policies in Hbody as [Hes Hsc].
  destruct Harmed as [Hes0 Hsc0]. rewrite K. split; eauto.
Qed.

(** X8: Whatever the config, [train] does not meet one of its policies
    unbound: it raises no [UnboundLocalError] (for a name other than
    [loss], which [fit] and [validate] read after their loops) that does
    not come out of torch. *)
Theorem policies_are_bound_when_used g variables train_data test_data
    parent_path :
  never (UnboundLocalError name)
    (train g variables train_data test_data parent_path).
Proof.
  intros s. unfold train.
  do 7 (apply avoids_bind;
        [apply cfg_out | intros ? ? Hk; apply cfg_inv in Hk as [-> _]]).
  do 2 (apply avoids_bind;
        [apply lift_out, values_out
        | intros ? ? Hk; apply lift_inv_Ok in Hk as [_ ->]]).
  do 2 (apply avoids_bind;
        [apply lift_out, DataLoader_raises
        | intros ? ? Hk; apply lift_inv_Ok in Hk as [_ ->]]).
  apply avoids_bind; [discriminate | intros ? ? Hk; injection Hk as <- <-].
  apply avoids_bind;
    [apply lift_out, Adam_raises
    | intros opt ? Hk; apply lift_inv_Ok in Hk as [_ ->]].
  apply avoids_bind; [apply cfg_out | intros early ? Hk].
  apply cfg_inv in Hk as [-> Hearly].
  apply avoids_bind.
  { destruct (eq_True early); [|discriminate].
    do 2 (apply avoids_bind; [apply cfg_out | intros ? ? _]). discriminate. }
  intros es s1 Hes.
  assert (Hes_bound : eq_True early = true -> is_Some es).
  { intros Hon. rewrite Hon in Hes. inv_bind Hes. inv_bind Hes.
    injection Hes as <- _. eauto. }
  rest_unchanged Hes.
  apply avoids_bind; [apply cfg_out | intros sched ? Hk].
  apply cfg_inv in Hk as [-> Hsched].
  apply avoids_bind.
  { destruct (eq_True sched); [|discriminate].
    apply avoids_bind; [apply cfg_out | intros ? ? _]. discriminate. }
  intros sc s1 Hsc.
  assert (Hsc_bound : eq_True sched = true -> is_Some sc).
  { intros Hon. rewrite Hon in Hsc. inv_bind Hsc. injection Hsc as <- _. eauto. }
  rest_unchanged Hsc.
  apply avoids_bind;
    [apply lift_out, range_out
    | intros todo ? Hk; apply lift_inv_Ok in Hk as [_ ->]].
  apply avoids_bind.
  { apply for_epochs_out. split; intros v Hv Hon; simpl.
    - rewrite Hearly in Hv. injection Hv as <-. auto.
    - rewrite Hsched in Hv. injection Hv as <-. auto. }
  intros l s1 _.
  apply avoids_bind; [discriminate | intros ? ? _].
  apply avoids_bind; [apply lift_out, loss_frame_out | intros ? ? _].
  apply avoids_bind; [discriminate | intros ? ? _].
  apply avoids_bind; [apply lift_out, values_out | intros ? ? _].
  apply avoids_bind; [apply call_model_out | intros ? ? _].
  apply avoids_bind; [apply lift_out, load_global_out | intros ? ? _].
  discriminate.
Qed.

End Bound.

End Edges.
End TrainingEdges.

(** ** The pipeline at its edges *)

Module HelperEdges.
Import Helper HelperFacts.

Section Pipeline.
Context `{DP : DataProcessing}.

(** *** The latent width *)

Lemma latent_space_size_raises n ratio e :
  latent_space_size n ratio = Raise e ->
  e = TypeError \/ e = ZeroDivisionError \/ e = OverflowError \/ e = ValueError.
Proof.
  unfold latent_space_size, floordiv. cbn [as_int].
  destruct (as_int ratio) as [z|] eqn:Hint.
  { destruct (z =? 0); [intros [= <-]; auto | discriminate]. }
  destruct (as_double (VInt n)) as [[vx|e1]|] eqn:Hvx.
  - destruct (as_double ratio) as [[wx|e2]|] eqn:Hwx.
    + destruct (is_nonzero wx); [|intros [= <-]; auto].
      destruct (float_floor_div vx wx); cbn; intros [= <-]; auto.
    + destruct ratio; cbn in Hint, Hwx; discriminate.
    + intros [= <-]. auto.
  - assert (He1 : e1 = OverflowError).
    { cbn in Hvx. destruct (round64 (inject_Z n)); congruence. }
    subst e1. destruct (as_double ratio) as [[wx|e2]|]; intros [= <-]; auto.
  - cbn in Hvx. destruct (round64 (inject_Z n)); discriminate.
Qed.

(** The quotient of a double by a ratio that is not a number. *)
Lemma float_floor_div_nan a : float_floor_div (Fin a) NaN = NaN.
Proof. reflexivity. Qed.

(** X9: The width [compress] asks the model for, for the ratios the
    config may hold beside the positive ones (the number of columns being
    below [2^53], so that it is a double): a ratio that is no number is a
    [TypeError]; a ratio of zero, [0], [False] or [0.0], is a
    [ZeroDivisionError]; a ratio that is not a number (NaN) is a
    [ValueError], raised by [int]; an infinite ratio gives [0] or [-1];
    and whatever the ratio, no other exception than these three and
    [OverflowError] is raised. *)
Theorem latent_width_for_every_ratio (n : Z) (ratio : pyval) :
  0 <= n < 2 ^ 53 ->
  (as_double ratio = None -> latent_space_size n ratio = Raise TypeError) /\
  (forall r, number_of ratio = Some r -> (r == 0)%Q ->
     latent_space_size n ratio = Raise ZeroDivisionError) /\
  (ratio = VNaN -> latent_space_size n ratio = Raise ValueError) /\
  (ratio = VInf false -> latent_space_size n ratio = Ok 0) /\
  (ratio = VInf true -> 0 < n -> latent_space_size n ratio = Ok (-1)) /\
  (forall e, latent_space_size n ratio = Raise e ->
     e = TypeError \/ e = ZeroDivisionError \/ e = OverflowError \/
     e = ValueError).
Proof.
  intros Hn.
  destruct (FloatFacts.round64_Z (inject_Z n) n (Qeq_refl _) Hn)
    as (a & Ha & Han).
  assert (Hvx : as_double (VInt n) = Some (Ok (Fin a))).
  { cbn. rewrite Ha. reflexivity. }
  repeat apply conj.
  - intros Hnone. unfold latent_space_size, floordiv.
    assert (Hint : as_int ratio = None).
    { destruct ratio; try reflexivity; discriminate. }
    cbn [as_int]. rewrite Hint, Hvx, Hnone. reflexivity.
  - intros r Hr Hzero. unfold latent_space_size, floordiv. cbn [as_int].
    destruct (as_int ratio) as [z|] eqn:Hint.
    + assert (Hz : z = 0).
      { destruct ratio; try discriminate; cbn in Hr, Hint;
          injection Hr as <-; injection Hint as <-;
          unfold Qeq in Hzero; simpl in Hzero; lia. }
      rewrite Hz. reflexivity.
    + destruct ratio; try discriminate. cbn [number_of] in Hr.
      rewrite Hvx. cbn [as_double].
      destruct (round64 q) as [r'| | |]; try discriminate.
      injection Hr as ->. cbn [is_nonzero].
      rewrite (Qeq_eq_bool _ _ Hzero). reflexivity.
  - intros ->. unfold latent_space_size, floordiv. cbn [as_int].
    rewrite Hvx. cbn [as_double is_nonzero].
    rewrite float_floor_div_nan. reflexivity.
  - intros ->. unfold latent_space_size, floordiv. cbn [as_int].
    rewrite Hvx. cbn [as_double is_nonzero].
    unfold float_floor_div. cbn [fmod sub64].
    assert (Hzero : round64 (a - a) = Fin 0).
    { unfold round64. rewrite (Qeq_eq_bool (a - a) 0); [reflexivity | ring]. }
    rewrite Hzero. cbn [div64 is_negative].
    assert (Hneg : Qle_bool 0 a = true).
    { apply Qle_bool_iff. rewrite Han. change 0%Q with (inject_Z 0).
      rewrite <- Zle_Qle. lia. }
    rewrite Hneg. cbn [negb eqb]. rewrite andb_false_r. reflexivity.
  - intros -> Hpos. unfold latent_space_size, floordiv. cbn [as_int].
    rewrite Hvx. cbn [as_double is_nonzero].
    unfold float_floor_div. cbn [fmod sub64].
    assert (Hzero : round64 (a - a) = Fin 0).
    { unfold round64. rewrite (Qeq_eq_bool (a - a) 0); [reflexivity | ring]. }
    rewrite Hzero. cbn [div64 is_negative].
    assert (Hapos : (0 < a)%Q).
    { rewrite Han. change 0%Q with (inject_Z 0). rewrite <- Zlt_Qlt. exact Hpos. }
    assert (Hnz : is_nonzero (Fin a) = true).
    { cbn. destruct (Qeq_bool a 0) eqn:Hz; [|reflexivity].
      apply Qeq_bool_eq in Hz. rewrite Hz in Hapos. inversion Hapos. }
    assert (Hneg : Qle_bool 0 a = true) by (apply Qle_bool_iff; lra).
    rewrite Hnz, Hneg. reflexivity.
  - apply latent_space_size_raises.
Qed.

(** X10: For a count of columns below [2^53] and a positive ratio, the
    quotient below [2^50], the latent width is not negative; it is at
    most the number of columns for a ratio of at least [1], at least the
    number of columns for a ratio of at most [1], and zero as soon as the
    ratio exceeds the number of columns. *)
Theorem latent_width_bounds (n : Z) (ratio : pyval) (r : Q) :
  number_of ratio = Some r ->
  0 <= n < 2 ^ 53 ->
  (0 < r)%Q ->
  (inject_Z n / r < 2 ^ 50)%Q ->
  exists z,
    latent_space_size n ratio = Ok z /\
    0 <= z /\
    ((1 <= r)%Q -> z <= n) /\
    ((r <= 1)%Q -> n <= z) /\
    ((inject_Z n < r)%Q -> z = 0).
Proof.
  intros Hratio Hn Hr Hquot. exists (Qfloor (inject_Z n / r)).
  assert (Hn' : (inject_Z 0 <= inject_Z n)%Q) by (rewrite <- Zle_Qle; lia).
  change (inject_Z 0) with 0%Q in Hn'.
  assert (Hq : (0 <= inject_Z n / r)%Q).
  { apply Qle_shift_div_l; [exact Hr|]. rewrite Qmult_0_l. exact Hn'. }
  assert (H0 : 0 <= Qfloor (inject_Z n / r)).
  { change 0 with (Qfloor 0). apply Qfloor_resp_le, Hq. }
  split.
  { apply latent_space_size_floor; [exact Hratio | exact Hr |].
    intros _. split; [exact Hn | exact Hquot]. }
  split; [exact H0|]. split; [|split].
  - intros Hone. rewrite <- (Qfloor_Z n) at 2. apply Qfloor_resp_le.
    apply Qle_shift_div_r; [exact Hr|]. nra.
  - intros Hone. rewrite <- (Qfloor_Z n) at 1. apply Qfloor_resp_le.
    apply Qle_shift_div_l; [exact Hr|]. nra.
  - intros Hlt.
    assert (Hq1 : (inject_Z n / r < 1)%Q).
    { apply Qlt_shift_div_r; [exact Hr|]. rewrite Qmult_1_l. exact Hlt. }
    pose proof (Qfloor_le (inject_Z n / r)) as Hfl.
    assert (Hz : (inject_Z (Qfloor (inject_Z n / r)) < inject_Z 1)%Q).
    { eapply Qle_lt_trans; [exact Hfl | exact Hq1]. }
    rewrite <- Zlt_Qlt in Hz. lia.
Qed.

(** *** [compress] before the model *)

(** X11: With the data loaded and its columns read, a config without
    [compression_ratio], or with one for which the latent width cannot be
    computed (a [TypeError], [ZeroDivisionError], [OverflowError] or
    [ValueError], and nothing else), ends [compress] before the data is
    normalized and before the model is touched; the column list is on the
    config by then. *)
Theorem compress_fails_before_the_model model_path input_path st data cols :
  load_data input_path (config st) = Ok data ->
  get_columns data = Ok cols ->
  (config st !! "compression_ratio" = None ->
   compress model_path input_path st
   = (Raise (AttributeError "compression_ratio"), attached cols st)) /\
  (forall ratio e,
     config st !! "compression_ratio" = Some ratio ->
     latent_space_size (Z.of_nat (length cols)) ratio = Raise e ->
     compress model_path input_path st = (Raise e, attached cols st) /\
     (e = TypeError \/ e = ZeroDivisionError \/ e = OverflowError \/
      e = ValueError)).
Proof.
  intros Hload Hcols.
  split.
  - intros Hnone. unfold compress, setattr.
    rewrite (bind_Ok _ _ st data st) by (rewrite data_loader_run, Hload; reflexivity).
    rewrite (bind_lift_Ok _ _ _ _ Hcols), bind_modify.
    rewrite (bind_lift_Ok _ _ _ _ Hcols).
    fold (attached cols st).
    rewrite (bind_Raise _ _ _ (AttributeError "compression_ratio") (attached cols st));
      [reflexivity|].
    rewrite attr_run. unfold getattr, attached. simpl.
    rewrite lookup_insert_ne by discriminate. rewrite Hnone. reflexivity.
  - intros ratio e Hratio Hraise. split.
    + unfold compress, setattr.
      rewrite (bind_Ok _ _ st data st)
        by (rewrite data_loader_run, Hload; reflexivity).
      rewrite (bind_lift_Ok _ _ _ _ Hcols), bind_modify.
      rewrite (bind_lift_Ok _ _ _ _ Hcols).
      fold (attached cols st).
      rewrite (bind_Ok _ _ (attached cols st) ratio (attached cols st)).
      * rewrite (bind_lift_Raise _ e) by exact Hraise. reflexivity.
      * rewrite attr_run. unfold getattr, attached. simpl.
        rewrite lookup_insert_ne by discriminate. rewrite Hratio. reflexivity.
    + apply latent_space_size_raises in Hraise. exact Hraise.
Qed.

(** *** The calls to the model *)

(** What a run may add to the calls: nothing, and then it has failed; the
    call that loads the model, when loading fails; or that call and then
    one call of [step], the model loaded, and then the run returns if
    [use] on the model does and fails if it fails. *)
Definition in_order (model_path : string) (step : matrix -> call)
    (use : Model -> matrix -> result matrix) (ok : bool) (cs : list call)
  : Prop :=
  (cs = [] /\ ok = false) \/
  (exists n z ModelObject,
     cs = [Call_load_model model_path n z] /\
     is_ok (load_model ModelObject model_path n z) = false /\ ok = false) \/
  (exists n z t ModelObject model,
     cs = [Call_load_model model_path n z; step t] /\
     load_model ModelObject model_path n z = Ok model /\
     ok = is_ok (use model t)).

Ltac calls_made :=
  first
    [ exists []; split; [symmetry; apply app_nil_r | left; done]
    | eexists [_]; split;
      [ reflexivity
      | right; left; do 3 eexists; split; [reflexivity|];
        split; [|reflexivity];
        match goal with H : load_model _ _ _ _ = _ |- _ => rewrite H end;
        reflexivity ]
    | eexists [_; _]; split;
      [ rewrite <- app_assoc; reflexivity
      | right; right; do 5 eexists; split; [reflexivity|];
        split; [eassumption|];
        match goal with H : _ _ _ = _ |- _ => rewrite H end;
        reflexivity ] ].

(** X12: [compress] loads the model at most once and encodes at most once,
    in that order: it asks for the encoding only of a model that was
    loaded, it returns only after both calls, and a run that made both
    returns or fails as the encoding does. [decompress] does the same with
    [decode]. Neither touches the calls made before. *)
Theorem model_is_loaded_then_used model_path input_path st :
  (exists cs,
     calls (compress model_path input_path st).2 = calls st ++ cs /\
     in_order model_path Call_encode encode
       (is_ok (compress model_path input_path st).1) cs) /\
  (exists cs,
     calls (decompress model_path input_path st).2 = calls st ++ cs /\
     in_order model_path Call_decode decode
       (is_ok (decompress model_path input_path st).1) cs).
Proof.
  split.
  - unfold compress, data_loader, attr, normalize, setattr, log, numpy_to_tensor,
      bind, get, lift, modify, ret. simpl.
    repeat (case_match; simplify_eq/=); calls_made.
  - unfold decompress, data_loader, log, numpy_to_tensor,
      bind, get, lift, modify, ret. simpl.
    repeat (case_match; simplify_eq/=); calls_made.
Qed.

(** *** [decompress] before the model *)

(** X13: A compressed file that holds a frame, or an array without rows, a
    saved model without tensors, or one whose last tensor has no
    dimension: [decompress] ends before it asks for a model, and the
    state is as it was. *)
Theorem decompress_fails_before_the_model model_path input_path st :
  (forall cols vals,
     load_data input_path (config st) = Ok (DataFrame cols vals) ->
     decompress model_path input_path st = (Raise (KeyError "0"), st)) /\
  (load_data input_path (config st) = Ok (NDArray []) ->
   decompress model_path input_path st = (Raise IndexError, st)) /\
  (forall row rows,
     load_data input_path (config st) = Ok (NDArray (row :: rows)) ->
     (torch_load model_path = Ok [] ->
      decompress model_path input_path st = (Raise IndexError, st)) /\
     (forall d k t,
        torch_load model_path = Ok (d ++ [(k, t)]) ->
        NoDup (d ++ [(k, t)]).*1 ->
        shape t = [] ->
        decompress model_path input_path st = (Raise TypeError, st))).
Proof.
  split; [|split].
  - intros cols vals Hload. unfold decompress.
    rewrite (bind_Ok _ _ st _ st) by (rewrite data_loader_run, Hload; reflexivity).
    reflexivity.
  - intros Hload. unfold decompress.
    rewrite (bind_Ok _ _ st _ st) by (rewrite data_loader_run, Hload; reflexivity).
    reflexivity.
  - intros row rows Hload. split.
    + intros Hdict. unfold decompress.
      rewrite (bind_Ok _ _ st _ st)
        by (rewrite data_loader_run, Hload; reflexivity).
      rewrite (bind_lift_Ok _ row) by reflexivity.
      rewrite (bind_lift_Ok _ _ _ _ Hdict). reflexivity.
    + intros d k t Hdict Hnodup Hshape. unfold decompress.
      destruct (last_entry d k t Hnodup) as [Hlast Hget].
      rewrite (bind_Ok _ _ st _ st)
        by (rewrite data_loader_run, Hload; reflexivity).
      rewrite (bind_lift_Ok _ row) by reflexivity.
      rewrite (bind_lift_Ok _ _ _ _ Hdict).
      rewrite (bind_lift_Ok _ _ _ _ Hlast), (bind_lift_Ok _ _ _ _ Hget).
      rewrite (bind_lift_Raise _ TypeError); [reflexivity|].
      unfold len_weight. rewrite Hshape. reflexivity.
Qed.

(** *** What [process] hands back *)

(** X14: When [process] returns, the number of columns it returns is the
    length of the column list it left on the config, and it has made no
    call to the model. *)
Theorem process_counts_the_attached_columns data_path st
    train_set test_set n nf st' :
  process data_path st = (Ok (train_set, test_set, n, nf), st') ->
  exists cols,
    config st' = <["cleared_col_names" := VStrs cols]> (config st) /\
    n = Z.of_nat (length cols) /\
    calls st' = calls st.
Proof.
  unfold process, setattr. intros Hrun.
  rewrite bind_get in Hrun.
  apply bind_inv_Ok in Hrun as (df & s1 & Hload & Hrun).
  apply lift_inv_Ok in Hload as [Hload ->].
  apply bind_inv_Ok in Hrun as (cols & s1 & Hcols & Hrun).
  apply lift_inv_Ok in Hcols as [Hcols ->].
  rewrite bind_modify in Hrun.
  apply bind_inv_Ok in Hrun as (nf' & s1 & Hnf & Hrun).
  apply lift_inv_Ok in Hnf as [Hnf ->].
  apply bind_inv_Ok in Hrun as (cols2 & s1 & Hcols2 & Hrun).
  apply lift_inv_Ok in Hcols2 as [Hcols2 ->].
  rewrite bind_modify in Hrun.
  apply bind_inv_Ok in Hrun as (cols3 & s1 & Hcols3 & Hrun).
  apply lift_inv_Ok in Hcols3 as [Hcols3 ->].
  rewrite Hcols in Hcols2, Hcols3.
  injection Hcols2 as <-. injection Hcols3 as <-.
  apply bind_inv_Ok in Hrun as (df' & s1 & Hnorm & Hrun).
  rewrite normalize_run in Hnorm. injection Hnorm as _ <-.
  apply bind_inv_Ok in Hrun as (ts & s1 & Hts & Hrun).
  rewrite attr_run in Hts. injection Hts as _ <-.
  apply bind_inv_Ok in Hrun as ([tr te] & s1 & Hsplit & Hrun).
  apply lift_inv_Ok in Hsplit as [_ ->].
  injection Hrun as _ _ <- _ <-.
  exists cols. simpl. rewrite insert_insert_eq. done.
Qed.

End Pipeline.
End HelperEdges.

(** ** The command line and the ROOT export *)

Module FrontendFacts.
Import Helper Frontend.

Section CommandLine.
Context `{AP : ArgumentParser}.
Variable disk : string -> option (gmap string pyval).

Lemma get_arguments_cached argv i config m p i' :
  get_arguments disk argv i = (Returned (Some config, m, p), i') ->
  configClass i' = Some config.
Proof.
  unfold get_arguments, import_configClass. intros Hrun.
  repeat case_match; simplify_eq/=; done.
Qed.

(** What lines 34 to 36 test. *)
Definition lacks_its_options (args : namespace) : Prop :=
  is_falsy (mode args) = true \/
  (mode args <> Some "newProject" /\ is_falsy (project args) = true).

(** X15: [get_arguments] exits when argparse does, with the status of
    argparse and the interpreter as it was, and, with status [1] and
    after the usage message, when the arguments parsed have no mode, or no
    project for a mode other than [newProject]; it exits in no other
    case. So the status is [0], [1] or [2], and it is [1] exactly for
    arguments that lack their options. [sys.path] and the modules are as
    they were. *)
Theorem get_arguments_exits_without_its_options argv i :
  let run := get_arguments disk argv i in
  (forall code,
     run.1 = SystemExit code <->
     parse_args argv = Exits code \/
     (code = 1 /\
      exists args, parse_args argv = Parsed args /\ lacks_its_options args)) /\
  (run.1 = SystemExit 1 <->
   exists args, parse_args argv = Parsed args /\ lacks_its_options args) /\
  (forall code, run.1 = SystemExit code ->
     (code = 0 \/ code = 1 \/ code = 2) /\
     sys_path run.2 = sys_path i /\ configClass run.2 = configClass i /\
     usage_printed run.2
     = (if bool_decide (code = 1) then S (usage_printed i) else usage_printed i)).
Proof.
  cbv zeta. unfold get_arguments, import_configClass, lacks_its_options.
  destruct (parse_args argv) as [args|c] eqn:Hparse.
  2:{ pose proof (parse_args_exits argv c Hparse) as Hc. simpl.
      split; [|split].
      - intros code. split.
        + intros [= <-]. left. reflexivity.
        + intros [[= <-] | (_ & args & Hargs & _)]; [reflexivity | discriminate].
      - split.
        + intros [= ->]. lia.
        + intros (args & Hargs & _). discriminate.
      - intros code [= <-]. split; [lia|].
        rewrite bool_decide_eq_false_2 by lia. done. }
  destruct (is_falsy (mode args)) eqn:Hmode; simpl.
  { split; [|split].
    - intros code. split.
      + intros [= <-]. right. split; [reflexivity|]. eauto.
      + intros [? | [-> _]]; [discriminate | reflexivity].
    - split; [intros _; eauto | intros _; reflexivity].
    - intros code [= <-]. split; [lia|]. done. }
  destruct (bool_decide (mode args = Some "newProject")) eqn:Hnew; simpl.
  { apply bool_decide_eq_true in Hnew.
    assert (Hno : ~ exists args0,
               Parsed args = Parsed args0 /\
               (is_falsy (mode args0) = true \/
                mode args0 <> Some "newProject" /\
                is_falsy (project args0) = true)).
    { intros (args0 & [= <-] & [?|[? _]]); [congruence | contradiction]. }
    split; [|split].
    - intros code. split; [discriminate|].
      intros [? | [_ Hex]]; [discriminate | contradiction].
    - split; [discriminate | intros Hex; contradiction].
    - discriminate. }
  apply bool_decide_eq_false in Hnew.
  destruct (is_falsy (project args)) eqn:Hproject; simpl.
  { split; [|split].
    - intros code. split.
      + intros [= <-]. right. split; [reflexivity|]. eauto.
      + intros [? | [-> _]]; [discriminate | reflexivity].
    - split; [intros _; eauto | intros _; reflexivity].
    - intros code [= <-]. split; [lia|]. done. }
  assert (Hno : ~ exists args0,
             Parsed args = Parsed args0 /\
             (is_falsy (mode args0) = true \/
              mode args0 <> Some "newProject" /\
              is_falsy (project args0) = true)).
  { intros (args0 & [= <-] & [?|[_ ?]]); congruence. }
  split; [|split].
  - intros code. split.
    + repeat case_match; discriminate.
    + intros [? | [_ Hex]]; [discriminate | contradiction].
  - split; [repeat case_match; discriminate | intros Hex; contradiction].
  - intros code. repeat case_match; discriminate.
Qed.

(** X16: What [get_arguments] returns: the mode and the project of the
    arguments parsed, as they were given, the mode some non-empty string
    (any such string passes). For [newProject] the config is [None], the
    interpreter is untouched and the project may be missing; for any
    other mode there is a project, its directory has been appended to
    [sys.path] and the config is the one of the module [configClass]. *)
Theorem get_arguments_returns_what_it_was_given argv i config m p i' :
  get_arguments disk argv i = (Returned (config, m, p), i') ->
  exists args,
    parse_args argv = Parsed args /\
    m = mode args /\ p = project args /\
    exists the_mode,
      m = Some the_mode /\ the_mode <> EmptyString /\
      (the_mode = "newProject" -> config = None /\ i' = i) /\
      (the_mode <> "newProject" ->
       exists the_project,
         p = Some the_project /\ the_project <> EmptyString /\
         sys_path i' = sys_path i ++ ["projects/" +:+ the_project +:+ "/"] /\
         config = configClass i' /\ is_Some config).
Proof.
  unfold get_arguments, import_configClass.
  destruct (parse_args argv) as [args|c]; [|discriminate].
  intros Hrun. exists args. split; [reflexivity|]. revert Hrun.
  destruct (mode args) as [the_mode|] eqn:Hmode; simpl; [|discriminate].
  destruct (bool_decide (the_mode = EmptyString)) eqn:Hempty; simpl; [discriminate|].
  apply bool_decide_eq_false in Hempty.
  destruct (bool_decide (Some the_mode = Some "newProject")) eqn:Hnew; simpl.
  - apply bool_decide_eq_true in Hnew. injection Hnew as ->.
    intros [= <- <- <- <-]. split; [done|]. split; [done|].
    exists "newProject". repeat split; done.
  - apply bool_decide_eq_false in Hnew.
    destruct (project args) as [the_project|] eqn:Hproject; simpl; [|discriminate].
    destruct (bool_decide (the_project = EmptyString)) eqn:Hnone; simpl; [discriminate|].
    apply bool_decide_eq_false in Hnone.
    intros Hrun. split; [|split].
    1,2: repeat case_match; simplify_eq/=; done.
    exists the_mode. split; [repeat case_match; simplify_eq/=; done|].
    split; [exact Hempty|]. split.
    + intros ->. contradiction Hnew. reflexivity.
    + intros _. exists the_project.
      repeat case_match; simplify_eq/=; eauto 10.
Qed.

(** X17: Once a call has imported [configClass], every later call in the same
    interpreter returns the config of that module, whatever project it
    names. *)
Theorem later_calls_get_the_first_config argv1 i config1 m1 p1 i1 argv2 args2 :
  get_arguments disk argv1 i = (Returned (Some config1, m1, p1), i1) ->
  parse_args argv2 = Parsed args2 ->
  is_falsy (mode args2) = false ->
  mode args2 <> Some "newProject" ->
  is_falsy (project args2) = false ->
  (get_arguments disk argv2 i1).1
  = Returned (Some config1, mode args2, project args2).
Proof.
  intros Hfirst Hparse Hmode Hnew Hproject.
  assert (Hcached : configClass i1 = Some config1).
  { apply get_arguments_cached in Hfirst. exact Hfirst. }
  unfold get_arguments, import_configClass. rewrite Hparse, Hmode, Hproject.
  rewrite (bool_decide_eq_false_2 _ Hnew). simpl. rewrite Hcached. reflexivity.
Qed.

End CommandLine.

Section ToRootFacts.
Context `{RW : RootWriter}.

(** X18: [to_root] calls [df_to_root] at most once, with the [save_path] it
    was given, and only for a pickler or an array: for a frame it ends
    with [TypeError] before the call, and for anything else, a path
    included, it returns [None] and has done nothing. *)
Theorem to_root_exports_picklers_and_arrays data_path config save_path cs :
  let run := to_root data_path config save_path cs in
  (run.2 = cs \/
   exists df col_names,
     run.2 = cs ++ [{| root_df := df; root_col_names := col_names;
                       root_save_path := save_path |}]) /\
  (run.2 <> cs ->
   (exists handle, data_path = Pickler handle) \/
   (exists arr, data_path = Data (NDArray arr))) /\
  (forall cols vals, data_path = Data (DataFrame cols vals) ->
     run = (Raise TypeError, cs)) /\
  (forall v, data_path = Other v -> run = (Ok VNone, cs)).
Proof.
  cbv zeta. destruct data_path as [handle|[cols vals|arr]|v]; simpl.
  - unfold call_df_to_root, bind, lift, modify.
    destruct (pickle_to_df handle config) as [[df names]|e]; simpl.
    + destruct (df_to_root df names save_path); simpl; repeat split; eauto;
        discriminate.
    + repeat split; eauto; discriminate.
  - repeat split; eauto; try discriminate.
    + intros Hne. contradiction Hne. reflexivity.
  - unfold call_df_to_root, bind, lift, modify.
    destruct (numpy_to_df arr config) as [df|e]; simpl.
    + destruct (columns_attr df) as [names|e]; simpl.
      * destruct (df_to_root df names save_path); simpl; repeat split; eauto;
          discriminate.
      * repeat split; eauto; discriminate.
    + repeat split; eauto; discriminate.
  - repeat split; eauto; try discriminate.
    intros Hne. contradiction Hne. reflexivity.
Qed.

End ToRootFacts.

End FrontendFacts.

(** ** The edges, on the project *)

Module EdgeExamples.
Import Helper Spec Project ProjectEdges Frontend.
Import Training TrainingFacts TrainingEdges.
Import HelperFacts HelperEdges FrontendFacts.

Lemma train_needs_latent_space_size :
  setup_keys
  = ["lr"; "batch_size"; "reg_param"; "RHO"; "l1"; "epochs"]
    ++ "latent_space_size" :: [] /\
  Forall (fun k => is_Some (Training.config default_start !! k))
    ["lr"; "batch_size"; "reg_param"; "RHO"; "l1"; "epochs"] /\
  Training.config default_start !! "latent_space_size" = None /\
  @Training.train Linear.torch Linear.utils Training.module_globals 2
    train_data test_data "project/" default_start
  = (Raise (KeyError "latent_space_size"), default_start).
Proof.
  assert (H1 : setup_keys
               = ["lr"; "batch_size"; "reg_param"; "RHO"; "l1"; "epochs"]
                 ++ "latent_space_size" :: []) by reflexivity.
  assert (H2 : Forall (fun k => is_Some (Training.config default_start !! k))
                 ["lr"; "batch_size"; "reg_param"; "RHO"; "l1"; "epochs"]).
  { repeat (constructor; [eexists; reflexivity|]). constructor. }
  assert (H3 : Training.config default_start !! "latent_space_size" = None)
    by reflexivity.
  split; [exact H1|]. split; [exact H2|]. split; [exact H3|].
  exact (@train_needs_its_keys Linear.torch Linear.utils Training.module_globals
           2 train_data test_data "project/" default_start _ _ _ H1 H2 H3).
Defined.

Lemma empty_loader_divides_by_zero_on_the_project :
  Training.loader_len (Torch := Linear.torch) [] = 0%nat /\
  (Training.iterate (Torch := Linear.torch) [] (Training.rng train_start)).1 = [] /\
  (Training.fit (H := Linear.torch) [] (VFloat 0) (1 # 1000)%Q VNone VNone
     train_start).1 = Raise ZeroDivisionError /\
  (Training.validate (H := Linear.torch) [] (VFloat 0) train_start).1
  = Raise ZeroDivisionError.
Proof.
  destruct (@empty_loader_divides_by_zero Linear.torch [] (VFloat 0)
              (1 # 1000)%Q VNone VNone train_start eq_refl eq_refl)
    as (Hfit & _ & Hval & _).
  split; [reflexivity|]. split; [reflexivity|]. split; [exact Hfit | exact Hval].
Defined.

(** The project with early stopping switched off and five epochs to run:
    one epoch is started. *)
Lemma one_epoch_of_five_without_early_stopping :
  Training.config free_start !! "epochs" = Some (VInt 5) /\
  Training.config free_start !! "early_stopping" = Some (VBool false) /\
  is_ok (@Training.train Linear.torch Linear.utils Training.module_globals 2
           train_data test_data "project/" free_start).1 = false /\
  epochs_printed
    (@Training.train Linear.torch Linear.utils Training.module_globals 2
       train_data test_data "project/" free_start).2 = [1] /\
  Training.written
    (@Training.train Linear.torch Linear.utils Training.module_globals 2
       train_data test_data "project/" free_start).2 = [].
Proof.
  assert (F : length (epochs_printed
                (@Training.train Linear.torch Linear.utils
                   Training.module_globals 2 train_data test_data "project/"
                   free_start).2) = 1%nat)
    by (vm_compute; reflexivity).
  destruct (@no_second_epoch_is_started Linear.torch Linear.utils 2
              train_data test_data "project/" free_start)
    as [Hfail [Hnone | [Hone Hw]]].
  - rewrite Hnone in F. discriminate F.
  - split; [reflexivity|]. split; [reflexivity|]. split; [exact Hfail|].
    split; [exact Hone | exact Hw].
Defined.

(** The project with no epoch to run, in the namespace of [training.py]:
    the loss log is written, without rows. *)
Lemma loss_log_of_the_project :
  exists rows,
    Training.written
      (@Training.train Linear.torch Linear.utils Training.module_globals 2
         train_data test_data "project/" idle_start).2
    = [("project/loss_data.csv", rows)] /\
    length (epochs_printed
              (@Training.train Linear.torch Linear.utils Training.module_globals
                 2 train_data test_data "project/" idle_start).2)
    = length rows.
Proof.
  assert (F : length (Training.written
                (@Training.train Linear.torch Linear.utils
                   Training.module_globals 2 train_data test_data "project/"
                   idle_start).2) = 1%nat)
    by (vm_compute; reflexivity).
  destruct (@loss_log_has_a_row_per_epoch Linear.torch Linear.utils
              Training.module_globals 2 train_data test_data "project/"
              idle_start)
    as [[Hnone | (rows & Hw & Hlen)] _].
  - rewrite Hnone in F. discriminate F.
  - exists rows. split; [exact Hw | exact Hlen].
Defined.

Lemma last_batch_of_the_project :
  exists v s' ls y,
    Training.validate (H := Linear.torch) (valid_dl ++ valid_dl) (VFloat 0)
      train_start = (Ok v, s') /\
    truediv (fold_left fadd ls (Fin 0)) 2 = Ok v /\
    last ls = Some y /\
    Training.stdout s' = [BeginningValidating; FinishedValidating y].
Proof.
  assert (F : is_ok (Training.validate (H := Linear.torch) (valid_dl ++ valid_dl)
                       (VFloat 0) train_start).1 = true)
    by (vm_compute; reflexivity).
  destruct (Training.validate _ _ train_start) as [[v|e] s'] eqn:E;
    [|discriminate].
  destruct (@finished_line_shows_the_last_batch Linear.torch
              (valid_dl ++ valid_dl) (VFloat 0) train_start v s' E)
    as (ls & y & _ & Hmean & Hlast & Hout).
  exists v, s', ls, y.
  split; [reflexivity|]. split; [exact Hmean|]. split; [exact Hlast | exact Hout].
Defined.

(** The same run: it ends at the [return], with [NameError] for
    [model_from_fit], the model as it was. *)
Lemma no_epochs_on_the_project :
  Training.config idle_start !! "epochs" = Some (VInt 0) /\
  0 <= 0 /\
  @Training.train Linear.torch Linear.utils Training.module_globals 2
    train_data test_data "project/" idle_start
  = (Raise (NameError "model_from_fit"),
     @Training.Build_tstate Linear.torch (Training.config idle_start) 1%Q false
       tt [Minutes] [("project/loss_data.csv", [])]).
Proof.
  assert (H2 : 0 <= 0) by lia.
  assert (F : length (Training.written
                (@Training.train Linear.torch Linear.utils
                   Training.module_globals 2 train_data test_data "project/"
                   idle_start).2) = 1%nat)
    by (vm_compute; reflexivity).
  split; [reflexivity|]. split; [exact H2|].
  destruct (@no_epochs_trains_nothing Linear.torch Linear.utils
              Training.module_globals 2 train_data test_data "project/"
              idle_start 0 eq_refl H2)
    as [[_ Hs] | [Hs Hr]].
  - rewrite Hs in F. discriminate F.
  - apply run_eq; [exact Hr | exact Hs].
Defined.

Lemma policies_are_bound_on_the_project :
  "early_stopping" <> "loss" /\
  (forall mode p x,
     Training.forward (Torch := Linear.torch) mode p x
     <> Raise (UnboundLocalError "early_stopping")) /\
  (forall p x y r,
     Training.model_loss (Torch := Linear.torch) p x y r
     <> Raise (UnboundLocalError "early_stopping")) /\
  (forall p lr,
     Training.Adam (Torch := Linear.torch) p lr
     <> Raise (UnboundLocalError "early_stopping")) /\
  (forall ds bs shuffle,
     Training.DataLoader (Torch := Linear.torch) ds bs shuffle
     <> Raise (UnboundLocalError "early_stopping")) /\
  (@Training.train Linear.torch Linear.utils Training.module_globals 2
     train_data test_data "project/" train_start).1
  <> Raise (UnboundLocalError "early_stopping").
Proof.
  assert (H1 : "early_stopping" <> "loss") by discriminate.
  assert (H2 : forall mode p x,
             Training.forward (Torch := Linear.torch) mode p x
             <> Raise (UnboundLocalError "early_stopping")) by discriminate.
  assert (H3 : forall p x y r,
             Training.model_loss (Torch := Linear.torch) p x y r
             <> Raise (UnboundLocalError "early_stopping")).
  { intros p x y r. simpl. unfold Linear.loss. destruct (as_Q r); discriminate. }
  assert (H4 : forall p lr,
             Training.Adam (Torch := Linear.torch) p lr
             <> Raise (UnboundLocalError "early_stopping")).
  { intros p lr. simpl. destruct (as_Q lr); discriminate. }
  assert (H5 : forall ds bs shuffle,
             Training.DataLoader (Torch := Linear.torch) ds bs shuffle
             <> Raise (UnboundLocalError "early_stopping")).
  { intros ds bs shuffle. simpl.
    destruct bs; try discriminate. destruct (0 <? z); discriminate. }
  split; [exact H1|]. split; [exact H2|]. split; [exact H3|].
  split; [exact H4|]. split; [exact H5|].
  exact (@policies_are_bound_when_used Linear.torch Linear.utils
           "early_stopping" H1 H2 H3 H4 H5 Training.module_globals 2
           train_data test_data "project/" train_start).
Defined.

Lemma latent_width_of_ten_columns_for_other_ratios :
  0 <= 10 < 2 ^ 53 /\
  latent_space_size 10 (VStr "2") = Raise TypeError /\
  latent_space_size 10 (VFloat 0) = Raise ZeroDivisionError /\
  latent_space_size 10 VNaN = Raise ValueError /\
  latent_space_size 10 (VInf false) = Ok 0 /\
  latent_space_size 10 (VInf true) = Ok (-1).
Proof.
  assert (H1 : 0 <= 10 < 2 ^ 53) by (split; [lia | reflexivity]).
  assert (H2 : 0 < 10) by lia.
  split; [exact H1|].
  split; [exact (proj1 (latent_width_for_every_ratio 10 (VStr "2") H1) eq_refl)|].
  split.
  { exact (proj1 (proj2 (latent_width_for_every_ratio 10 (VFloat 0) H1)) 0%Q
             eq_refl (Qeq_refl 0)). }
  split.
  { exact (proj1 (proj2 (proj2 (latent_width_for_every_ratio 10 VNaN H1)))
             eq_refl). }
  split.
  { exact (proj1 (proj2 (proj2 (proj2
             (latent_width_for_every_ratio 10 (VInf false) H1)))) eq_refl). }
  exact (proj1 (proj2 (proj2 (proj2 (proj2
           (latent_width_for_every_ratio 10 (VInf true) H1))))) eq_refl H2).
Defined.

Lemma latent_width_of_three_columns :
  number_of (VFloat 4) = Some 4%Q /\ 0 <= 3 < 2 ^ 53 /\ (0 < 4)%Q /\
  (inject_Z 3 / 4 < 2 ^ 50)%Q /\
  exists z,
    latent_space_size 3 (VFloat 4) = Ok z /\ 0 <= z /\
    ((1 <= 4)%Q -> z <= 3) /\
    ((inject_Z 3 < 4)%Q -> z = 0).
Proof.
  assert (H2 : 0 <= 3 < 2 ^ 53) by (split; [lia | reflexivity]).
  assert (H3 : (0 < 4)%Q) by reflexivity.
  assert (H4 : (inject_Z 3 / 4 < 2 ^ 50)%Q) by reflexivity.
  destruct (latent_width_bounds 3 (VFloat 4) 4%Q eq_refl H2 H3 H4)
    as (z & Hz & H0 & Hle & _ & Hzero).
  split; [reflexivity|]. split; [exact H2|]. split; [exact H3|].
  split; [exact H4|].
  exists z. split; [exact Hz|]. split; [exact H0|]. split; [exact Hle | exact Hzero].
Defined.

Lemma compress_with_a_ratio_of_zero :
  load_data (DataProcessing := data_processing fs) "input.csv" (Helper.config flat)
  = Ok input_data /\
  get_columns (DataProcessing := data_processing fs) input_data = Ok ["a"; "b"] /\
  Helper.config flat !! "compression_ratio" = Some (VInt 0) /\
  latent_space_size 2 (VInt 0) = Raise ZeroDivisionError /\
  @Helper.compress (codec fs) (data_processing fs) "model.pt" "input.csv" flat
  = (Raise ZeroDivisionError, attached ["a"; "b"] flat).
Proof.
  destruct (@compress_fails_before_the_model (codec fs) (data_processing fs)
              "model.pt" "input.csv" flat input_data ["a"; "b"]
              eq_refl eq_refl) as [_ Hraise].
  do 4 (split; [reflexivity|]).
  exact (proj1 (Hraise (VInt 0) ZeroDivisionError eq_refl eq_refl)).
Defined.

Lemma process_counts_the_columns_of_the_project :
  exists train_set test_set n nf st' cols,
    @Helper.process (codec fs) (data_processing fs) "derive.csv" start
    = (Ok (train_set, test_set, n, nf), st') /\
    Helper.config st' = <["cleared_col_names" := VStrs cols]> (Helper.config start) /\
    n = Z.of_nat (length cols) /\
    calls st' = calls start.
Proof.
  assert (F : is_ok (@Helper.process (codec fs) (data_processing fs)
                       "derive.csv" start).1 = true)
    by (vm_compute; reflexivity).
  destruct (Helper.process _ start) as [[[[[train_set test_set] n] nf]|e] st']
    eqn:E; [|discriminate].
  destruct (@process_counts_the_attached_columns (codec fs) (data_processing fs)
              "derive.csv" start train_set test_set n nf st' E)
    as (cols & Hconfig & Hn & Hcalls).
  exists train_set, test_set, n, nf, st', cols.
  split; [reflexivity|]. split; [exact Hconfig|]. split; [exact Hn | exact Hcalls].
Defined.

(** Three command lines that end in an exit: the help asked for, an
    option the parser does not know, and a mode without a project. *)
Lemma get_arguments_exits_on_the_command_line :
  (get_arguments disk ["--help"] fresh).1 = SystemExit 0 /\
  (get_arguments disk ["--verbose"; "yes"] fresh).1 = SystemExit 2 /\
  (get_arguments disk ["--mode"; "train"] fresh).1 = SystemExit 1 /\
  usage_printed (get_arguments disk ["--mode"; "train"] fresh).2 = 1%nat /\
  usage_printed (get_arguments disk ["--verbose"; "yes"] fresh).2 = 0%nat.
Proof.
  split.
  { apply (proj1 (get_arguments_exits_without_its_options disk ["--help"] fresh)).
    left. reflexivity. }
  split.
  { apply (proj1 (get_arguments_exits_without_its_options disk
                    ["--verbose"; "yes"] fresh)).
    left. reflexivity. }
  split.
  { apply (proj1 (proj2 (get_arguments_exits_without_its_options disk
                           ["--mode"; "train"] fresh))).
    exists {| mode := Some "train"; project := None |}.
    split; [reflexivity|]. right. split; [discriminate | reflexivity]. }
  split.
  - exact (proj2 (proj2 (proj2 (proj2 (proj2
             (get_arguments_exits_without_its_options disk ["--mode"; "train"]
                fresh)) 1 eq_refl)))).
  - exact (proj2 (proj2 (proj2 (proj2 (proj2
             (get_arguments_exits_without_its_options disk
                ["--verbose"; "yes"] fresh)) 2 eq_refl)))).
Defined.

Lemma get_arguments_of_the_demo_project :
  get_arguments disk ["--mode"; "train"; "--project"; "demo"] fresh
  = (Returned (Some default_config, Some "train", Some "demo"), imported) /\
  exists args the_mode,
    parse_args ["--mode"; "train"; "--project"; "demo"] = Parsed args /\
    Some "train" = mode args /\ Some "demo" = project args /\
    Some "train" = Some the_mode /\ the_mode <> EmptyString /\
    (the_mode <> "newProject" ->
     exists the_project,
       Some "demo" = Some the_project /\ the_project <> EmptyString /\
       sys_path imported = sys_path fresh ++ ["projects/" +:+ the_project +:+ "/"] /\
       Some default_config = configClass imported /\
       is_Some (Some default_config)).
Proof.
  assert (H1 : get_arguments disk ["--mode"; "train"; "--project"; "demo"] fresh
               = (Returned (Some default_config, Some "train", Some "demo"),
                  imported)) by (vm_compute; reflexivity).
  destruct (get_arguments_returns_what_it_was_given disk
              ["--mode"; "train"; "--project"; "demo"] fresh
              (Some default_config) (Some "train") (Some "demo") imported H1)
    as (args & Hparse & Hm & Hp & the_mode & Hmode & Hne & _ & Hother).
  split; [exact H1|]. exists args, the_mode.
  split; [exact Hparse|]. split; [exact Hm|]. split; [exact Hp|].
  split; [exact Hmode|]. split; [exact Hne | exact Hother].
Defined.

Lemma another_project_gets_the_config_of_the_demo :
  get_arguments disk ["--mode"; "train"; "--project"; "demo"] fresh
  = (Returned (Some default_config, Some "train", Some "demo"), imported) /\
  parse_args ["--project"; "other"; "--mode"; "compress"]
  = Parsed {| mode := Some "compress"; project := Some "other" |} /\
  is_falsy (Some "compress") = false /\
  Some "compress" <> Some "newProject" /\
  is_falsy (Some "other") = false /\
  disk "projects/other/" = None /\
  (get_arguments disk ["--project"; "other"; "--mode"; "compress"] imported).1
  = Returned (Some default_config, Some "compress", Some "other").
Proof.
  assert (H1 : get_arguments disk ["--mode"; "train"; "--project"; "demo"] fresh
               = (Returned (Some default_config, Some "train", Some "demo"),
                  imported)) by (vm_compute; reflexivity).
  assert (H2 : parse_args ["--project"; "other"; "--mode"; "compress"]
               = Parsed {| mode := Some "compress"; project := Some "other" |})
    by (vm_compute; reflexivity).
  assert (H3 : Some "compress" <> Some "newProject") by discriminate.
  split; [exact H1|]. split; [exact H2|]. split; [reflexivity|].
  split; [exact H3|]. split; [reflexivity|]. split; [reflexivity|].
  exact (later_calls_get_the_first_config disk
           ["--mode"; "train"; "--project"; "demo"] fresh
           default_config (Some "train") (Some "demo") imported
           ["--project"; "other"; "--mode"; "compress"]
           {| mode := Some "compress"; project := Some "other" |}
           H1 H2 eq_refl H3 eq_refl).
Defined.

End EdgeExamples.
